(** * Converters: rule normalisation, value resolution and the conversion
      pipeline of [converters/converter.py]

    The development embeds the [Converter] class of the repository:
    Python values are a small inductive type, dictionaries are [gmap]s,
    the module-level counter and the thread-local context slot are an
    explicit state, exceptions are a sum, and every user-supplied callable
    is interpreted by an environment that the definitions take as a
    parameter. *)

From Stdlib Require Import Ascii String.
From stdpp Require Import gmap strings list fin_maps pretty sorting.

Open Scope string_scope.

(** ** Python values *)

Module Py.

(** [VSentry] is the module's [_SENTRY] object.  [VList] stands for lists
    and tuples alike, [VFunc] for functions and lambdas, [VClass] for class
    objects, [VInst] for an instance of a plain class with its attribute
    dictionary.  Dictionaries have string keys. *)
#[warnings="-register-all"]
Inductive pyval : Type :=
  | VNone
  | VSentry
  | VBool (b : bool)
  | VInt (n : Z)
  | VStr (s : string)
  | VList (l : list pyval)
  | VDict (d : gmap string pyval)
  | VFunc (f : string)
  | VClass (c : string)
  | VInst (c : string) (attrs : gmap string pyval).

Abbreviation dict := (gmap string pyval).
Abbreviation kwargs := (list (string * pyval)).

(** [bool(v)] *)
Definition truthy (v : pyval) : bool :=
  match v with
  | VNone => false
  | VSentry => true
  | VBool b => b
  | VInt n => negb (n =? 0)%Z
  | VStr s => negb (String.eqb s "")
  | VList l => match l with [] => false | _ => true end
  | VDict d => negb (Nat.eqb (size d) 0)
  | VFunc _ | VClass _ | VInst _ _ => true
  end.

Definition is_none (v : pyval) : bool :=
  match v with VNone => true | _ => false end.

Definition is_sentry (v : pyval) : bool :=
  match v with VSentry => true | _ => false end.

(** [isinstance(v, str)] *)
Definition is_str (v : pyval) : bool :=
  match v with VStr _ => true | _ => false end.

(** [isinstance(v, Callable)] *)
Definition is_callable (v : pyval) : bool :=
  match v with VFunc _ | VClass _ => true | _ => false end.

(** [isinstance(v, Iterable)] *)
Definition is_iterable (v : pyval) : bool :=
  match v with VStr _ | VList _ | VDict _ => true | _ => false end.

(** [isinstance(v, Number)] *)
Definition is_number (v : pyval) : bool :=
  match v with VInt _ | VBool _ => true | _ => false end.

(** [isinstance(v, dict)] *)
Definition is_dict (v : pyval) : bool :=
  match v with VDict _ => true | _ => false end.

(** [v == ''] *)
Definition is_empty_str (v : pyval) : bool :=
  match v with VStr s => String.eqb s "" | _ => false end.

(** [type(v).__name__] *)
Definition type_name (v : pyval) : string :=
  match v with
  | VNone => "NoneType"
  | VSentry => "ConverterSentry"
  | VBool _ => "bool"
  | VInt _ => "int"
  | VStr _ => "str"
  | VList _ => "list"
  | VDict _ => "dict"
  | VFunc _ => "function"
  | VClass _ => "type"
  | VInst c _ => c
  end.

(** [d.get(k, dflt)] *)
Definition dict_get (d : dict) (k : string) (dflt : pyval) : pyval :=
  default dflt (d !! k).

End Py.

Export Py.

(** ** Exceptions, state and the monad of the engine *)

Module Converter.

(** [NOS] marks a rule whose value is Not On the Source. *)
Definition NOS : string := "--Not On Source--".

(** [field is NOS] *)
Definition is_NOS (v : pyval) : bool :=
  match v with VStr s => String.eqb s NOS | _ => false end.

(** The exceptions the module raises or lets through.  Messages keep their
    fixed text only.  [InvalidToClassException] subclasses [TypeError] and
    [ValueRequired] subclasses [ValueError]; [Raised] is whatever user code
    raises, [Unmodelled] marks Python behaviour outside this embedding. *)
Inductive exn : Type :=
  | TypeError (msg : string)
  | InvalidToClassException (msg : string)
  | ValueError (msg : string)
  | ValueRequired (value_name : string) (msg : option string)
  | KeyError (key : pyval)
  | IndexError
  | AttributeError (msg : string)
  | RecursionError
  | Raised (payload : pyval)
  | Unmodelled (what : string).

(** [isinstance(e, TypeError)] *)
Definition is_TypeError (e : exn) : bool :=
  match e with TypeError _ | InvalidToClassException _ => true | _ => false end.

(** [isinstance(e, ValueError)] *)
Definition is_ValueError (e : exn) : bool :=
  match e with ValueError _ | ValueRequired _ _ => true | _ => false end.

(** The two pieces of global state: the thread-local context slot
    ([None] while the attribute is unset) and the next value of
    [_COUNTER = infinite_counter()]. *)
Record state : Type := State {
  context_local : option dict;
  counter : nat;
}.

Definition initial_state : state := State None 1.

Definition M (A : Type) : Type := state -> (exn + A) * state.

Definition ret {A} (a : A) : M A := fun st => (inr a, st).

Definition raise {A} (e : exn) : M A := fun st => (inl e, st).

Definition bind {A B} (m : M A) (k : A -> M B) : M B :=
  fun st =>
    match m st with
    | (inl e, st') => (inl e, st')
    | (inr a, st') => k a st'
    end.

(** [try: body finally: cleanup] *)
Definition try_finally {A} (body : M A) (cleanup : M unit) : M A :=
  fun st =>
    match body st with
    | (r, st') =>
        match cleanup st' with
        | (inl e, st'') => (inl e, st'')
        | (inr _, st'') => (r, st'')
        end
    end.

#[global] Instance M_ret : MRet M := @ret.
#[global] Instance M_bind : MBind M := fun A B k m => bind m k.

Fixpoint for_each {A B} (f : A -> M B) (l : list A) : M (list B) :=
  match l with
  | [] => ret []
  | a :: l' => b ← f a; bs ← for_each f l'; ret (b :: bs)
  end.

Fixpoint for_fold {A B} (f : B -> A -> M B) (l : list A) (b : B) : M B :=
  match l with
  | [] => ret b
  | a :: l' => b' ← f b a; for_fold f l' b'
  end.

Definition lift_exn {A} (r : exn + A) : M A :=
  match r with inl e => raise e | inr a => ret a end.

(** ** Classes *)

(** A declared [from_class] / [to_class]: a class, or [Union[...]] of
    classes. *)
Inductive pytype : Type :=
  | TClass (c : string)
  | TUnion (alts : list string).

(** The class attributes of a [Converter] subclass, as [getattr] sees them
    (that is, after inheritance).  [converter_options] lists the
    [converter_options] dictionaries of the subclass chain below
    [Converter], base first; [converter_washers] is the merged washer table
    in its iteration order; [methods] are the other callables defined on
    the class; the three adapter properties are [None] when the class keeps
    the default getter and setter. *)
Record converter_class : Type := ConverterClass {
  name : string;
  from_class : option pytype;
  to_class : option pytype;
  conversions : list pyval;
  converter_additional_attrs : list (string * pyval);
  default_if_nos : option pyval;
  converter_options : list dict;
  converter_washers : list (string * pyval);
  build_context : option pyval;
  post_convert : option pyval;
  methods : dict;
  from_getter : option pyval;
  to_getter : option pyval;
  setter : option pyval;
}.

(** What the engine needs to know about the rest of the program: how a
    callable behaves when called ([call f args kwargs]), the parameter
    names [signature(f).parameters] reports, the proper base classes of
    each class ([object] left out), the subclasses of [Converter] by name,
    and the [named_converters] registry. *)
Record env : Type := Env {
  call : pyval -> list pyval -> kwargs -> M pyval;
  parameters : pyval -> list string;
  bases : string -> list string;
  converter_classes : gmap string converter_class;
  named_converters : dict;
}.

(** ** [_utils.py] *)

(** [is_union_type(tp)] *)
Definition is_union_type (tp : option pytype) : bool :=
  match tp with Some (TUnion _) => true | _ => false end.

(** The proper bases of the built-in classes, abstract base classes
    included. *)
Definition builtin_bases (c : string) : list string :=
  if String.eqb c "bool" then ["int"; "Number"]
  else if String.eqb c "int" then ["Number"]
  else if String.eqb c "str" then ["Iterable"]
  else if String.eqb c "list" then ["Iterable"]
  else if String.eqb c "dict" then ["Iterable"]
  else if String.eqb c "function" then ["Callable"]
  else if String.eqb c "type" then ["Callable"]
  else [].

(** [issubclass(c, d)] *)
Definition issubclass (E : env) (c d : string) : bool :=
  String.eqb c d || String.eqb d "object"
  || existsb (String.eqb d) (builtin_bases c ++ bases E c)%list.

(** [isinstance(v, d)] *)
Definition isinstance (E : env) (v : pyval) (d : string) : bool :=
  issubclass E (type_name v) d.

(** [is_one_of_union_types(source, union)]:
    [any(type(source) is ut or isinstance(source, ut) for ut in union.__args__)] *)
Definition is_one_of_union_types (E : env) (source : pyval) (alts : list string) : bool :=
  existsb (fun ut => String.eqb (type_name source) ut || isinstance E source ut) alts.

(** [isinstance(v, Converter)] *)
Definition is_converter_instance (E : env) (v : pyval) : bool :=
  match v with
  | VInst c _ => bool_decide (is_Some (converter_classes E !! c))
  | _ => false
  end.

(** [isinstance(v, type) and issubclass(v, Converter)] *)
Definition is_converter_class (E : env) (v : pyval) : option converter_class :=
  match v with
  | VClass c => converter_classes E !! c
  | _ => None
  end.


(** ** Rule normalisation *)

(** [len(v)] and [v[i]] for the values a rule can be. *)
Definition py_len (v : pyval) : M nat :=
  match v with
  | VStr s => ret (String.length s)
  | VList l => ret (length l)
  | VDict d => ret (size d)
  | _ => raise (TypeError "object has no len")
  end.

Definition py_getitem (v : pyval) (i : nat) : M pyval :=
  match v with
  | VList l => match l !! i with Some x => ret x | None => raise IndexError end
  | VDict d => raise (KeyError (VInt (Z.of_nat i)))
  | VStr s =>
      match String.get i s with
      | Some c => ret (VStr (String c ""))
      | None => raise IndexError
      end
  | _ => raise (TypeError "object is not subscriptable")
  end.

(** ['-not-on-dest-%d' % next(_COUNTER)] *)
Definition _next_not_on_dest_attr : M string :=
  fun st =>
    (inr ("-not-on-dest-" +:+ pretty (counter st)),
     State (context_local st) (S (counter st))).

(** A normalised rule [(to_attr, from_attr, opts)] as the tuple it is. *)
Definition rule_tuple (r : pyval * pyval * dict) : pyval :=
  let '(to_attr, from_attr, opts) := r in VList [to_attr; from_attr; VDict opts].

Section Normalize.

Context (E : env).

Definition normalize_single_copy_attr (cls : converter_class) (field : pyval)
  : M (pyval * pyval * pyval) :=
  if is_str field then
    ret (field, field, VDict ∅)
  else if is_callable field then
    to_attr ← _next_not_on_dest_attr;
    ret (VStr to_attr, VStr "self", VDict {[ "converter" := field ]})
  else if is_iterable field then
    len ← py_len field;
    if Nat.eqb len 1 then
      field_0 ← py_getitem field 0;
      ret (field_0, field_0, VDict ∅)
    else if Nat.eqb len 2 then
      field_1 ← py_getitem field 1;
      if is_NOS field_1 then
        let nos_default := default VNone (default_if_nos cls) in
        field_0 ← py_getitem field 0;
        if negb (is_none nos_default) then
          ret (field_0, VStr NOS, VDict {[ "default" := nos_default ]})
        else
          ret (field_0, VStr NOS, VDict ∅)
      else if is_str field_1 then
        field_0 ← py_getitem field 0;
        ret (field_0, field_1, VDict ∅)
      else if is_callable field_1 then
        field_0 ← py_getitem field 0;
        ret (field_0, field_0, VDict {[ "converter" := field_1 ]})
      else
        field_0 ← py_getitem field 0;
        ret (field_0, field_0, field_1)
    else if Nat.eqb len 3 then
      field_0 ← py_getitem field 0;
      field_0 ← (if truthy field_0 then ret field_0
                 else fresh ← _next_not_on_dest_attr; ret (VStr fresh));
      if negb (is_str field_0) then
        raise (TypeError "copy converter attribute to field is invalid")
      else
        field_1 ← py_getitem field 1;
        if negb (is_NOS field_1) && negb (is_str field_1) then
          raise (TypeError "copy converter attribute from field is invalid")
        else
          field_2 ← py_getitem field 2;
          if is_dict field_2 then
            ret (field_0, field_1, field_2)
          else if is_NOS field_1 then
            ret (field_0, field_1, VDict {[ "default" := field_2 ]})
          else if negb (is_callable field_2) && negb (is_str field_2)
                  && negb (is_converter_instance E field_2) then
            raise (TypeError "copy converter to field converter is invalid")
          else
            ret (field_0, field_1, VDict {[ "converter" := field_2 ]})
    else
      raise (TypeError "Copy field spec is not valid")
  else
    raise (TypeError "Copy field spec is not valid").

(** The sanity check [normalize_copy_attrs] makes on every normalised
    rule; [opts.get] needs [opts] to be a dictionary. *)
Definition check_default (rule : pyval * pyval * pyval) : M (pyval * pyval * dict) :=
  let '(to_attr, from_attr, opts) := rule in
  match opts with
  | VDict o =>
      let default := dict_get o "default" VSentry in
      if negb (is_sentry default)
         && negb (is_callable default || is_number default || is_str default)
      then raise (TypeError "default option in converter can only be a callable, number or str")
      else ret (to_attr, from_attr, o)
  | _ => raise (AttributeError "object has no attribute get")
  end.

Definition normalize_copy_attrs (cls : converter_class) (copy_attrs : list pyval)
  : M (list (pyval * pyval * dict)) :=
  for_each (fun field => r ← normalize_single_copy_attr cls field; check_default r)
       copy_attrs.

End Normalize.

(** ** Converter instances *)

(** The attributes [__init__] sets.  [dest] is [VNone] when no destination
    was given; [_context] is the [context=] argument. *)
Record converter : Type := Self {
  cls : converter_class;
  source : pyval;
  dest : pyval;
  extra_attrs : kwargs;
  creating : bool;
  _extra : dict;
  _context : option dict;
  _normalized_attrs : list (pyval * pyval * dict);
}.

(** ** [pydash.merge] *)

(** What [merge] leaves under a key that holds [obj] when the source holds
    [src]: two dictionaries are merged key by key and two lists index by
    index, recursively; in every other case the source value replaces the
    other one.  ([VList] stands for a list here: [merge] replaces a
    tuple.) *)
Fixpoint merge_value (obj src : pyval) {struct obj} : pyval :=
  match obj, src with
  | VDict o, VDict s =>
      VDict (union_with (fun obj_value src_value => Some (merge_value obj_value src_value))
               o s)
  | VList o, VList s =>
      VList ((fix merge_items (o s : list pyval) {struct o} : list pyval :=
                match o, s with
                | obj_value :: o', src_value :: s' =>
                    merge_value obj_value src_value :: merge_items o' s'
                | [], s => s
                | o, [] => o
                end) o s)
  | _, _ => src
  end.

(** [merge(obj, source)] on dictionaries: a key of [source] that [obj]
    lacks is added, a key of [obj] that [source] lacks is kept. *)
Definition merge (obj source : dict) : dict :=
  union_with (fun obj_value src_value => Some (merge_value obj_value src_value))
    obj source.

(** [self._resolved_converter_options]: the [converter_options] of the
    class hierarchy merged base first, on top of those of [Converter]. *)
Definition Converter_converter_options : dict :=
  {[ "convert_nones_to_blanks" := VBool false;
     "include_nones" := VBool true;
     "include_empty_strings" := VBool true;
     "pass_attrs_to_init" := VBool false;
     "merge_all" := VBool false;
     "copy_only" := VBool false ]}.

Definition _resolved_converter_options (c : converter_class) : dict :=
  foldl merge Converter_converter_options (converter_options c).

(** [self._resolved_converter_options[key]] *)
Definition converter_option (c : converter_class) (key : string) : pyval :=
  dict_get (_resolved_converter_options c) key VNone.

(** ** [pydash.get] *)

Fixpoint split_on (sep : Ascii.ascii) (s : string) : list string :=
  match s with
  | EmptyString => [EmptyString]
  | String c s' =>
      if Ascii.eqb c sep then EmptyString :: split_on sep s'
      else match split_on sep s' with
           | [] => [String c EmptyString]
           | w :: ws => String c w :: ws
           end
  end.

Fixpoint string_mem (c : Ascii.ascii) (s : string) : bool :=
  match s with
  | EmptyString => false
  | String c' s' => Ascii.eqb c c' || string_mem c s'
  end.

Definition is_digit (c : Ascii.ascii) : bool :=
  let n := Ascii.nat_of_ascii c in (48 <=? n)%nat && (n <=? 57)%nat.

Fixpoint digits_value (s : string) (acc : nat) : nat :=
  match s with
  | EmptyString => acc
  | String c s' => digits_value s' (10 * acc + (Ascii.nat_of_ascii c - 48))
  end.

Fixpoint string_forall (p : Ascii.ascii -> bool) (s : string) : bool :=
  match s with
  | EmptyString => true
  | String c s' => p c && string_forall p s'
  end.

Fixpoint string_exists (p : Ascii.ascii -> bool) (s : string) : bool :=
  match s with
  | EmptyString => false
  | String c s' => p c || string_exists p s'
  end.

(** The keys of a path: the path itself when it has no delimiter, its
    non-empty dotted segments otherwise.  Bracketed list indices and
    escaped dots are not interpreted. *)
Definition to_path (path : string) : M (list string) :=
  if string_mem "["%char path || string_mem "\"%char path then
    raise (Unmodelled "path with brackets or escapes")
  else if string_mem "."%char path then
    ret (filter (fun key => key ≠ "") (split_on "."%char path))
  else ret [path].

(** One step of [get]: [None] when the key is missing. *)
Definition base_get (obj : pyval) (key : string) : M (option pyval) :=
  match obj with
  | VDict d => ret (d !! key)
  | VInst _ attrs => ret (attrs !! key)
  | VList l =>
      if negb (String.eqb key "") && string_forall is_digit key then
        ret (l !! digits_value key 0)
      else if string_exists is_digit key then
        raise (Unmodelled "signed or padded list index")
      else ret None
  | VStr _ =>
      if string_exists is_digit key then raise (Unmodelled "index into a string")
      else ret None
  | _ => ret None
  end.

Fixpoint get_path (obj : pyval) (keys : list string) (default : pyval) : M pyval :=
  match keys with
  | [] => ret obj
  | key :: keys' =>
      found ← base_get obj key;
      match found with
      | None => ret default
      | Some obj' => get_path obj' keys' default
      end
  end.

(** [get(obj, path, default)] *)
Definition get (obj : pyval) (path : string) (default : pyval) : M pyval :=
  keys ← to_path path;
  get_path obj keys default.

(** ** The engine *)

Section Engine.

Context (E : env).

(** How a conversion by a nested [Converter] subclass runs:
    [sub_converter(to_convert, dest=dest, _extra=_extra, **kwargs).convert()].
    The knot is tied by [convert_class] below. *)
Variable sub_convert : converter_class -> pyval -> pyval -> dict -> kwargs -> M pyval.

(** A call of a Python callable.  [dict] applied to keyword arguments is
    computed here, every other callable is the environment's. *)
Definition py_call (f : pyval) (args : list pyval) (kw : kwargs) : M pyval :=
  match f, args with
  | VClass "dict", [] => ret (VDict (list_to_map kw))
  | _, _ => call E f args kw
  end.

(** [self.context], the property: the slot, or [{}] while it is unset. *)
Definition context : M dict :=
  fun st => (inr (default ∅ (context_local st)), st).

(** [self.context = value] *)
Definition set_context (value : dict) : M unit :=
  fun st => (inr tt, State (Some value) (counter st)).

(** [default_getter(self, src, attr, default)] *)
Definition default_getter (self : converter) (src : pyval) (attr : string)
    (default : pyval) : M pyval :=
  if String.eqb attr "self" then ret (source self)
  else get src attr default.

(** [self.from_getter(src, attr, default, opts)] *)
Definition call_from_getter (self : converter) (src : pyval) (attr : string)
    (default : pyval) (opts : dict) : M pyval :=
  match from_getter (cls self) with
  | Some g => py_call g [src; VStr attr; default; VDict opts] []
  | None => default_getter self src attr default
  end.

(** [self.to_getter(inst, attr, default, *args, **kwargs)] *)
Definition call_to_getter (self : converter) (inst : pyval) (attr : string)
    (default : pyval) (args : list pyval) (kw : kwargs) : M pyval :=
  match to_getter (cls self) with
  | Some g => py_call g ([inst; VStr attr; default] ++ args)%list kw
  | None => default_getter self inst attr default
  end.

(** [val_is_collection(val)] *)
Definition val_is_collection (val : pyval) : bool :=
  is_iterable val && negb (is_str val) && negb (is_dict val).

(** [pluralize_val(val)] *)
Definition pluralize_val (val : pyval) : pyval := VList [val].

(** The first half of [_get_value]: the value taken from the instance, the
    source or the context, before any default. *)
Definition _get_value_raw (self : converter) (inst : pyval) (from_attr : string)
    (opts : dict) : M pyval :=
  val ← (if truthy (dict_get opts "pass_instance_to_converter" (VBool false)) then
           ret inst
         else if String.eqb from_attr NOS then
           ret VSentry
         else if negb (is_sentry (dict_get opts "getter" VSentry)) then
           py_call (dict_get opts "getter" VSentry)
                [source self; VStr from_attr; VDict opts] []
         else
           call_from_getter self (source self) from_attr VSentry opts);
  if is_sentry val then
    ctx ← context;
    get (VDict ctx) from_attr VSentry
  else ret val.

Definition _get_value (self : converter) (inst : pyval) (from_attr : string)
    (opts : dict) : M pyval :=
  if negb (is_none (dict_get opts "_kwarg_override" VNone)) then
    ret (dict_get opts "_kwarg_override" VNone)
  else
    val ← _get_value_raw self inst from_attr opts;
    let fall_through :=
      if truthy (dict_get opts "pluralize" (VBool false))
         && negb (val_is_collection val)
      then ret (pluralize_val val)
      else ret val in
    if is_sentry val || is_none val || is_empty_str val then
      let default := dict_get opts "default" VSentry in
      if is_sentry default && is_sentry val then
        ret VSentry
      else if negb (is_sentry default) then
        if is_callable default then py_call default [] []
        else ret default
      else fall_through
    else fall_through.

(** *** Setting a value on the destination *)

(** [to_attr.partition('.')], without the separator. *)
Fixpoint partition_dot (s : string) : string * string :=
  match s with
  | EmptyString => (EmptyString, EmptyString)
  | String c s' =>
      if Ascii.eqb c "."%char then (EmptyString, s')
      else let '(left_, right_) := partition_dot s' in (String c left_, right_)
  end.

(** [setattr(inst, to_attr, val)] *)
Definition py_setattr (inst : pyval) (to_attr : string) (val : pyval) : M pyval :=
  match inst with
  | VInst c attrs => ret (VInst c (<[to_attr := val]> attrs))
  | VNone | VBool _ | VInt _ | VStr _ | VList _ | VDict _ =>
      raise (AttributeError "object has no such attribute")
  | VSentry | VFunc _ | VClass _ =>
      raise (Unmodelled "attribute set on a function, class or sentinel")
  end.

(** [self.setter(inst, to_attr, val, opts)].  A setter mutates [inst] in
    place; here it returns the instance it leaves behind, and so does an
    adapter's setter. *)
Definition call_setter (self : converter) (inst : pyval) (to_attr : string)
    (val : pyval) (opts : dict) : M pyval :=
  match setter (cls self) with
  | Some f => py_call f [inst; VStr to_attr; val; VDict opts] []
  | None => py_setattr inst to_attr val
  end.

(** Where a nested object found by the default getter lives in [inst]; the
    object was updated in place, so [inst] now holds its new state. *)
Definition store_back (self : converter) (inst : pyval) (left_ : string)
    (subval : pyval) : M pyval :=
  match to_getter (cls self) with
  | Some _ => raise (Unmodelled "deep set through an adapter getter")
  | None =>
      if String.eqb left_ "self" then raise (Unmodelled "deep set into the source")
      else
        match inst with
        | VDict d => ret (VDict (<[left_ := subval]> d))
        | VInst c attrs => ret (VInst c (<[left_ := subval]> attrs))
        | VList l => ret (VList (<[digits_value left_ 0 := subval]> l))
        | _ => raise (Unmodelled "deep set into a scalar")
        end
  end.

(** [pick({**locals(), 'inst': inst_, 'attr': to_attr}, getfullargspec(setter).args)] *)
Definition setter_kwargs (names : list string) (inst_ : pyval) (to_attr : string)
    (opts : dict) (val : pyval) (left_ right_ : string) (setter_ : pyval) : kwargs :=
  let locals : kwargs :=
    [("inst", inst_); ("to_attr", VStr to_attr); ("opts", VDict opts);
     ("val", val); ("left", VStr left_); ("right", VStr right_);
     ("setter", setter_); ("attr", VStr to_attr)] in
  filter (fun kv => bool_decide (kv.1 ∈ names)) locals.

Fixpoint _set_value_fuel (fuel : nat) (self : converter) (inst : pyval)
    (to_attr : string) (opts : dict) (val : pyval) : M pyval :=
  match fuel with
  | O => raise RecursionError
  | S fuel' =>
      let '(left_, right_) := partition_dot to_attr in
      if negb (String.eqb right_ "") then
        subval ← call_to_getter self inst left_ VNone [VDict opts] [("right", VStr right_)];
        if is_none subval then ret inst
        else
          subval' ← _set_value_fuel fuel' self subval right_ opts val;
          store_back self inst left_ subval'
      else
        let setter_ := dict_get opts "setter" VNone in
        if negb (truthy setter_) then
          match inst with
          | VDict d => ret (VDict (<[to_attr := val]> d))
          | VList l =>
              l' ← for_each (fun inst_ => call_setter self inst_ to_attr val opts) l;
              ret (VList l')
          | VStr s =>
              if String.eqb s "" then ret inst
              else raise (AttributeError "object has no such attribute")
          | _ => call_setter self inst to_attr val opts
          end
        else
          setter_ ← (match setter_ with
                     | VStr method =>
                         match methods (cls self) !! method with
                         | Some m => ret m
                         | None => raise (AttributeError "converter has no such method")
                         end
                     | _ => ret setter_
                     end);
          if bool_decide ("self" ∈ parameters E setter_) then
            raise (Unmodelled "setter taking the converter itself")
          else
            let apply inst_ :=
              py_call setter_ []
                (setter_kwargs (parameters E setter_) inst_ to_attr opts val left_ right_ setter_) in
            match inst with
            | VList l => l' ← for_each apply l; ret (VList l')
            | VStr s =>
                if String.eqb s "" then ret inst
                else raise (Unmodelled "setter applied to the characters of a string")
            | _ => apply inst
            end
  end.

(** A path loses at least one character at every recursive call. *)
Definition _set_value (self : converter) (inst : pyval) (to_attr : string)
    (opts : dict) (val : pyval) : M pyval :=
  _set_value_fuel (S (String.length to_attr)) self inst to_attr opts val.

(** *** Converting a resolved value *)

(** [func in [str, dict, list, int, float, bool]] *)
Definition _is_builtin_func (func : pyval) : bool :=
  match func with
  | VClass c => bool_decide (c ∈ ["str"; "dict"; "list"; "int"; "float"; "bool"])
  | _ => false
  end.

Definition _filter_includes_val (self : converter) (filter_ val : pyval) : M bool :=
  if _is_builtin_func filter_ then
    r ← py_call filter_ [val] []; ret (truthy r)
  else if Nat.eqb (length (parameters E filter_)) 1 then
    r ← py_call filter_ [val] []; ret (truthy r)
  else
    r ← py_call filter_ [val; source self] []; ret (truthy r).

(** [_attr_should_be_merged(opts)] *)
Definition _attr_should_be_merged (self : converter) (opts : dict) : bool :=
  truthy (dict_get opts "merge" (converter_option (cls self) "merge_all")).

(** The function [_convert_child] ends up applying: [identity], the wrapper
    around a [Converter] subclass, or the callable itself. *)
Inductive cfunc : Type :=
  | CIdentity
  | CConverter (c : converter_class)
  | CCallable (f : pyval).

(** [signature(cfunc).parameters] *)
Definition cfunc_parms (cf : cfunc) : list string :=
  match cf with
  | CIdentity => ["arg"]
  | CConverter _ => ["to_convert"; "dest"; "kwargs"]
  | CCallable f => parameters E f
  end.

(** [cfunc(val, **kwargs)] *)
Definition apply_cfunc (self : converter) (cf : cfunc) (val : pyval) (kw : kwargs)
  : M pyval :=
  match cf with
  | CIdentity =>
      match kw with
      | [] => ret val
      | _ => raise (TypeError "identity got an unexpected keyword argument")
      end
  | CConverter c =>
      sub_convert c val
        (default VNone (snd <$> find (fun kv => String.eqb kv.1 "dest") kw))
        (_extra self)
        (filter (fun kv => kv.1 ≠ "dest") kw)
  | CCallable f => py_call f [val] kw
  end.

(** [list(v)], for the values whose iteration order the embedding knows. *)
Definition py_iter (v : pyval) : M (list pyval) :=
  match v with
  | VList l => ret l
  | VStr _ | VDict _ => raise (Unmodelled "iteration over a string or a dictionary")
  | _ => raise (TypeError "object is not iterable")
  end.

Definition _convert_child (self : converter) (to_attr : string) (opts : dict)
    (val inst : pyval) : M pyval :=
  let filter_ := dict_get opts "filter" VSentry in
  let sub_converter := dict_get opts "converter" VSentry in
  let reverse_attr_name := dict_get opts "reverse_attr_name" VNone in
  let should_map := truthy (dict_get opts "map" (VBool true)) && val_is_collection val in
  included ← (if negb should_map && negb (is_sentry filter_)
              then _filter_includes_val self filter_ val
              else ret true);
  if negb included then ret VSentry
  else if is_sentry sub_converter && is_sentry filter_ then
    if truthy reverse_attr_name && negb (is_sentry inst) then
      raise (Unmodelled "reverse reference to the instance being built")
    else ret val
  else
    let sub_converter := if is_sentry sub_converter then None else Some sub_converter in
    if is_none val && negb (truthy (dict_get opts "converter_wants_nones" (VBool false)))
    then ret VNone
    else
      sub_converter ←
        (match sub_converter with
         | Some (VStr sub_converter_str) =>
             let attr := default VNone (methods (cls self) !! sub_converter_str) in
             if is_callable attr then ret (Some attr)
             else
               match named_converters E !! sub_converter_str with
               | Some c => ret (Some c)
               | None => raise (KeyError (VStr sub_converter_str))
               end
         | other => ret other
         end);
      cf ← (match sub_converter with
            | None => ret CIdentity
            | Some f =>
                match is_converter_class E f with
                | Some c => ret (CConverter c)
                | None =>
                    if is_callable f then ret (CCallable f)
                    else raise (TypeError "Unexpected type of subconverter")
                end
            end);
      if truthy reverse_attr_name && is_sentry inst then
        raise (ValueError "reverse_attr_name set on an initialization property")
      else if truthy reverse_attr_name then
        raise (Unmodelled "reverse reference to the instance being built")
      else
        let builtin := match cf with CCallable f => _is_builtin_func f | _ => false end in
        let wants_dest := negb builtin && bool_decide ("dest" ∈ cfunc_parms cf) in
        let wants_inst :=
          negb builtin && bool_decide ("inst" ∈ cfunc_parms cf)
          && negb (bool_decide (head (cfunc_parms cf) = Some "inst")) in
        sub_dest ← (if _attr_should_be_merged self opts
                    then call_to_getter self inst to_attr VSentry [] []
                    else ret VSentry);
        if wants_dest && negb (is_sentry sub_dest) then
          raise (Unmodelled "merge into an existing destination")
        else if should_map then
          items ← py_iter val;
          results ← for_each (fun val_ =>
                            keep ← (if is_sentry filter_ then ret true
                                    else _filter_includes_val self filter_ val_);
                            if keep : bool then apply_cfunc self cf val_ []
                            else ret VSentry)
                         items;
          ret (VList (filter (fun subval => negb (is_sentry subval)) results))
        else
          apply_cfunc self cf val (if wants_inst then [("inst", inst)] else []).

(** *** Washing, truncating and sorting *)

Fixpoint wash_result_from (washers : list (string * pyval)) (val : pyval) : M pyval :=
  match washers with
  | [] => ret val
  | (washer_type, washer) :: washers' =>
      if negb (isinstance E val washer_type) then wash_result_from washers' val
      else py_call washer [val] []
  end.

Definition wash_result (self : converter) (val : pyval) : M pyval :=
  wash_result_from (converter_washers (cls self)) val.

(** The stop of the slice [value[:max_len]] on a sequence of [len] items. *)
Definition slice_stop (len : nat) (max_len : Z) : nat :=
  if (0 <=? max_len)%Z then Nat.min (Z.to_nat max_len) len
  else Z.to_nat (Z.of_nat len + max_len).

Fixpoint string_take (n : nat) (s : string) : string :=
  match n, s with
  | S n', String c s' => String c (string_take n' s')
  | _, _ => EmptyString
  end.

(** [truncate_value(value, max_len, opts)], that is [value[:max_len]] *)
Definition truncate_value (value max_len : pyval) (opts : dict) : M pyval :=
  stop ← (match max_len with
          | VInt n => ret n
          | VBool b => ret (if b then 1 else 0)%Z
          | _ => raise (TypeError "slice indices must be integers")
          end);
  match value with
  | VStr s => ret (VStr (string_take (slice_stop (String.length s) stop) s))
  | VList l => ret (VList (take (slice_stop (length l) stop) l))
  | VDict _ | VInst _ _ => raise (Unmodelled "slice of a mapping or an object")
  | _ => raise (TypeError "object is not subscriptable")
  end.

(** Sort keys the embedding can order: numbers among themselves, strings
    among themselves. *)
Inductive sort_key : Type :=
  | KNum (n : Z)
  | KStr (s : string).

Definition key_le (a b : sort_key) : option bool :=
  match a, b with
  | KNum x, KNum y => Some (x <=? y)%Z
  | KStr x, KStr y => Some (String.leb x y)
  | _, _ => None
  end.

Definition as_sort_key (v : pyval) : M (option sort_key) :=
  match v with
  | VInt n => ret (Some (KNum n))
  | VBool b => ret (Some (KNum (if b then 1 else 0)))
  | VStr s => ret (Some (KStr s))
  | VList _ | VInst _ _ => raise (Unmodelled "ordering of sequences or objects")
  | _ => ret None
  end.

(** Stable insertion of an item that preceded those of [l]: [x] goes before
    the first element that is not smaller. *)
Fixpoint insert_sorted (x : sort_key * pyval) (l : list (sort_key * pyval))
  : option (list (sort_key * pyval)) :=
  match l with
  | [] => Some [x]
  | y :: l' =>
      match key_le x.1 y.1 with
      | None => None
      | Some true => Some (x :: y :: l')
      | Some false => cons y <$> insert_sorted x l'
      end
  end.

Fixpoint sort_keyed (l : list (sort_key * pyval)) : option (list (sort_key * pyval)) :=
  match l with
  | [] => Some []
  | x :: l' => sort_keyed l' ≫= insert_sorted x
  end.

(** [sorted(val, key=sort_key)]: the keys are computed first, in order, then
    compared; a list of fewer than two items needs no comparison. *)
Definition py_sorted (val : list pyval) (key : pyval -> M pyval) : M (list pyval) :=
  keys ← for_each key val;
  match val with
  | [] | [_] => ret val
  | _ =>
      ks ← for_each as_sort_key keys;
      match mapM id ks with
      | None => raise (TypeError "ordering not supported between these instances")
      | Some ks =>
          match sort_keyed (zip ks val) with
          | None => raise (TypeError "ordering not supported between these instances")
          | Some sorted => ret (sorted.*2)
          end
      end
  end.

(** *** From a rule to the value to set *)

Definition _normalize_value (self : converter) (to_attr from_attr : string)
    (opts : dict) (inst : pyval) : M pyval :=
  val ← _get_value self inst from_attr opts;
  let value_requirement := dict_get opts "required" (VBool false) in
  if is_sentry val then
    if truthy value_requirement then raise (ValueRequired from_attr None)
    else ret VSentry
  else
    satisfied ← (if is_callable value_requirement
                 then r ← py_call value_requirement [val] []; ret (truthy r)
                 else ret true);
    if negb satisfied then
      raise (ValueRequired from_attr
               (Some "value from source does not satisfy requirement condition"))
    else
      val ← _convert_child self to_attr opts val inst;
      if negb (truthy (converter_option (cls self) "include_nones")) && is_none val
      then ret VSentry
      else
        let val := if is_none val
                      && truthy (converter_option (cls self) "convert_nones_to_blanks")
                   then VStr "" else val in
        if negb (truthy (converter_option (cls self) "include_empty_strings"))
           && is_empty_str val
        then ret VSentry
        else if is_sentry val then ret VSentry
        else
          val ← (if negb (truthy (dict_get opts "skip_wash" (VBool false)))
                 then wash_result self val else ret val);
          let max_len := dict_get opts "max_len" VNone in
          val ← (if negb (is_none max_len) then truncate_value val max_len opts
                 else ret val);
          let sort_ := dict_get opts "sort" (VBool false) in
          if truthy sort_ then
            if negb (val_is_collection val) then
              raise (ValueError "sort is only applicable to collections")
            else
              sort_key ← (if is_callable sort_ then ret (fun x => py_call sort_ [x] [])
                          else match sort_ with
                               | VBool true => ret (fun x => ret x)
                               | _ => raise (TypeError "sort value must be a boolean or a callable")
                               end);
              items ← py_iter val;
              sorted ← py_sorted items sort_key;
              ret (VList sorted)
          else ret val.

(** [_is_initialization_attr(attr, opts)] *)
Definition _is_initialization_attr (self : converter) (attr : string) (opts : dict)
  : bool :=
  let attr_is_deep := string_mem "."%char attr in
  let attrs_generally_are_for_init :=
    truthy (converter_option (cls self) "pass_attrs_to_init") in
  let attr_has_a_reverse_attribute :=
    truthy (dict_get opts "reverse_attr_name" VNone) in
  let attr_converter_wants_instance :=
    truthy (dict_get opts "pass_instance_to_converter" VNone) in
  let attr_is_merging := truthy (dict_get opts "merge" (VBool false)) in
  truthy (dict_get opts "initialization_attribute"
            (VBool (attrs_generally_are_for_init
                    && negb attr_converter_wants_instance
                    && negb attr_is_deep
                    && negb attr_has_a_reverse_attribute
                    && negb attr_is_merging))).

(** The destination and source names of a normalised rule. *)
Definition rule_names (rule : pyval * pyval * dict) : M (string * string * dict) :=
  match rule with
  | (VStr to_attr, VStr from_attr, opts) => ret (to_attr, from_attr, opts)
  | _ => raise (TypeError "attribute name is not a string")
  end.

(** [dct[to_attr] = item] on an [OrderedDict]: a key already present keeps
    its place. *)
Fixpoint odict_set {A} (dct : list (string * A)) (to_attr : string) (item : A)
  : list (string * A) :=
  match dct with
  | [] => [(to_attr, item)]
  | (k, x) :: dct' =>
      if String.eqb k to_attr then (k, item) :: dct'
      else (k, x) :: odict_set dct' to_attr item
  end.

Definition params_for (self : converter) (initialization : bool) (inst : pyval)
  : M (list (string * (pyval * dict))) :=
  for_fold
    (fun dct rule =>
       '(to_attr, from_attr, opts) ← rule_names rule;
       if negb (Bool.eqb (_is_initialization_attr self to_attr opts) initialization)
       then ret dct
       else
         val ← _normalize_value self to_attr from_attr opts inst;
         if is_sentry val then ret dct
         else ret (odict_set dct to_attr (val, opts)))
    (_normalized_attrs self) [].

Definition params_for_initialization (self : converter)
  : M (list (string * (pyval * dict))) :=
  params_for self true VSentry.

Definition params_for_population (self : converter) (inst : pyval)
  : M (list (string * (pyval * dict))) :=
  params_for self false inst.

Definition instantiate (self : converter) (dct : list (string * (pyval * dict)))
  : M pyval :=
  if truthy (converter_option (cls self) "copy_only") then
    raise (TypeError "Cannot instantiate new instance. copy_only parameter set to true")
  else
    let attr_val_only_map := map (fun kv => (kv.1, kv.2.1)) dct in
    match to_class (cls self) with
    | Some (TClass c) => py_call (VClass c) [] attr_val_only_map
    | _ => raise (TypeError "to_class is not callable")
    end.

Definition populate_instance (self : converter) (inst : pyval)
    (params : list (string * (pyval * dict))) : M pyval :=
  for_fold
    (fun inst '(to_attr, (val, opts)) =>
       if truthy (dict_get opts "merge" (VBool false)) then ret inst
       else _set_value self inst to_attr opts val)
    params inst.

Definition instance_convert (self : converter) : M pyval :=
  init_attrs ← params_for_initialization self;
  inst ← (if negb (is_none (dest self)) then populate_instance self (dest self) init_attrs
          else instantiate self init_attrs);
  if is_none (dest self) && (is_none inst || is_sentry inst) then ret inst
  else
    pop_parms ← params_for_population self inst;
    inst ← populate_instance self inst pop_parms;
    match post_convert (cls self) with
    | Some f => py_call f [inst] []
    | None => ret inst
    end.

(** *** The context manager and [convert] *)

(** A value unpacked with [**] has to be a mapping. *)
Definition as_mapping (v : pyval) : M dict :=
  match v with
  | VDict d => ret d
  | _ => raise (TypeError "argument after ** must be a mapping")
  end.

(** [with self._updated_context(): body] *)
Definition _updated_context {A} (self : converter) (body : M A) : M A :=
  new_built_context ← (match build_context (cls self) with
                       | None => ret ∅
                       | Some f => r ← py_call f [] []; as_mapping r
                       end);
  let new_context := default ∅ (_context self) in
  old_context ← context;
  set_context (new_context ∪ (new_built_context ∪ old_context));;
  try_finally body (set_context old_context).

(** [self.convert()] *)
Definition convert (self : converter) : M pyval :=
  _updated_context self (instance_convert self).

(** *** Construction *)

(** The loop body of [dynamic_copy_attrs]: the first rule whose destination
    is [k] gets the override, [None] when there is no such rule. *)
Fixpoint stash_override (attrs : list (pyval * pyval * dict)) (k : string) (v : pyval)
  : option (list (pyval * pyval * dict)) :=
  match attrs with
  | [] => None
  | (ca_dest, ca_source_key, ca_opts) :: attrs' =>
      if (match ca_dest with VStr d => String.eqb d k | _ => false end) then
        Some ((ca_dest, ca_source_key, <["_kwarg_override" := v]> ca_opts) :: attrs')
      else cons (ca_dest, ca_source_key, ca_opts) <$> stash_override attrs' k v
  end.

(** [dynamic_copy_attrs(self)].  The rules of [conversions] are taken not to
    share their option dictionaries. *)
Definition dynamic_copy_attrs (self : converter) : M (list pyval) :=
  let converter_attrs := conversions (cls self) in
  let additional_attrs :=
    map (fun kv => VList [VStr kv.1; VStr NOS; VDict {[ "default" := kv.2 ]}])
        (converter_additional_attrs (cls self)) in
  normalized_converter_attrs ← normalize_copy_attrs E (cls self) converter_attrs;
  let normalized_converter_attrs :=
    foldl (fun attrs kv =>
             match stash_override attrs kv.1 kv.2 with
             | Some attrs' => attrs'
             | None => (attrs ++ [(VStr kv.1, VStr NOS, {[ "_kwarg_override" := kv.2 ]})])%list
             end)
          normalized_converter_attrs (extra_attrs self) in
  ret (map rule_tuple normalized_converter_attrs ++ additional_attrs)%list.

Definition _normalized_dynamic_copy_attrs (self : converter)
  : M (list (pyval * pyval * dict)) :=
  attrs ← dynamic_copy_attrs self;
  normalize_copy_attrs E (cls self) attrs.

(** [_is_valid_source_type(source)] *)
Definition _is_valid_source_type (c : converter_class) (source : pyval) : bool :=
  match from_class c with
  | Some (TUnion alts) => is_one_of_union_types E source alts
  | Some (TClass d) => isinstance E source d
  | None => false
  end.

(** [Converter.__init__(self, source, *, context, dest, _extra, **extra_attrs)] *)
Definition __init__ (c : converter_class) (source : pyval) (context : option dict)
    (dest : pyval) (_extra : dict) (extra_attrs : kwargs) : M converter :=
  if bool_decide (from_class c = None) then
    raise (TypeError "has no from_class")
  else if bool_decide (to_class c = None) then
    raise (TypeError "has no to_class")
  else if is_union_type (to_class c) then
    raise (InvalidToClassException "Specifying to_class as Union type is forbidden.")
  else if negb (is_none source) && negb (_is_valid_source_type c source) then
    raise (TypeError "source is not an instance of from_class")
  else
    let self := Self c source dest extra_attrs (is_none dest) _extra context [] in
    attrs ← _normalized_dynamic_copy_attrs self;
    ret (Self c source dest extra_attrs (is_none dest) _extra context attrs).

(** [cls.convert(source, context=..., dest=..., **extra_attrs)], that is
    [cls(...).convert()] *)
Definition convert_class (c : converter_class) (source : pyval) (context : option dict)
    (dest : pyval) (_extra : dict) (extra_attrs : kwargs) : M pyval :=
  self ← __init__ c source context dest _extra extra_attrs;
  convert self.

End Engine.

(** A conversion whose nested conversions may go [depth] levels deep; past
    that it raises [RecursionError], as the interpreter does at its
    recursion limit. *)
Fixpoint convert_to_depth (E : env) (depth : nat) (c : converter_class)
    (source : pyval) (context : option dict) (dest : pyval) (_extra : dict)
    (extra_attrs : kwargs) : M pyval :=
  match depth with
  | O => raise RecursionError
  | S depth' =>
      convert_class E
        (fun c' to_convert dest' _extra' kw =>
           convert_to_depth E depth' c' to_convert None dest' _extra' kw)
        c source context dest _extra extra_attrs
  end.

End Converter.

Import Converter.

(** ** The reference table of rule normalisation *)

(** The definitions of this module follow the words of section 4.1 of the
    specification, not the code: they are what [normalize_copy_attrs] is
    compared with. *)
Module Reference.

(** [fresh_unique_name()], from a counter. *)
Definition fresh_name (n : nat) : string := "-not-on-dest-" +:+ pretty n.

(** [dst_or_null] becomes [dst_or_fresh_name]. *)
Definition dst_or_fresh_name (dst : pyval) (fresh : string) : option (pyval * bool) :=
  match dst with
  | VNone => Some (VStr fresh, true)
  | VStr _ => Some (dst, false)
  | _ => None
  end.

(** A converter is a name, a rule-set class or any other callable. *)
Definition is_converter (v : pyval) : bool := is_callable v || is_str v.

(** The three rows of 3-element rules: [(dst_or_null, NOT-ON-SOURCE, default)],
    [(dst_or_null, src, opts:Mapping)] and [(dst_or_null, src, converter)]. *)
Definition three_nos_default (d : pyval * bool) (src x : pyval) :=
  Some ((d.1, src, VDict {[ "default" := x ]}), d.2).

Definition three_opts (d : pyval * bool) (src x : pyval) :=
  Some ((d.1, src, x), d.2).

Definition three_converter (d : pyval * bool) (src x : pyval) :=
  Some ((d.1, src, VDict {[ "converter" := x ]}), d.2).

(** The table, row by row in its priority order; the second component of
    the result tells whether the fresh name was used, [None] is
    [InvalidRuleSpec].  With [mapping_first] the row of the options mapping
    is tried before the row of the default after [NOT-ON-SOURCE]; the table
    as written has it after. *)
Definition table_rows (mapping_first : bool) (nos_default : option pyval)
    (fresh : string) (raw : pyval)
  : option ((pyval * pyval * pyval) * bool) :=
  match raw with
  | VStr s => Some ((VStr s, VStr s, VDict ∅), false)
  | VList [s] => Some ((s, s, VDict ∅), false)
  | VFunc _ | VClass _ =>
      Some ((VStr fresh, VStr "self", VDict {[ "converter" := raw ]}), true)
  | VList [dst; x] =>
      if is_NOS x then
        match nos_default with
        | Some provider => Some ((dst, VStr NOS, VDict {[ "default" := provider ]}), false)
        | None => Some ((dst, VStr NOS, VDict ∅), false)
        end
      else if is_str x then Some ((dst, x, VDict ∅), false)
      else if is_callable x then Some ((dst, dst, VDict {[ "converter" := x ]}), false)
      else if is_dict x then Some ((dst, dst, x), false)
      else None
  | VList [dst; src; x] =>
      match dst_or_fresh_name dst fresh with
      | None => None
      | Some d =>
          if mapping_first && is_str src && is_dict x then three_opts d src x
          else if is_NOS src then three_nos_default d src x
          else if is_str src && is_dict x then three_opts d src x
          else if is_str src && is_converter x then three_converter d src x
          else None
      end
  | _ => None
  end.

(** A default is a zero-argument callable, a number or a string; the
    module's own sentinel counts as no default. *)
Definition default_allowed (o : dict) : bool :=
  match o !! "default" with
  | Some d => is_sentry d || is_callable d || is_number d || is_str d
  | None => true
  end.

(** One pass over a rule list: expansion by the table, a counter for the
    fresh names, then the validation of [default]. *)
Fixpoint normalize_rows (mapping_first : bool) (nos_default : option pyval)
    (n : nat) (rules : list pyval) : option (list (pyval * pyval * dict) * nat) :=
  match rules with
  | [] => Some ([], n)
  | raw :: rules' =>
      match table_rows mapping_first nos_default (fresh_name n) raw with
      | Some ((dst, src, VDict o), used) =>
          if default_allowed o then
            match normalize_rows mapping_first nos_default
                    (if used then S n else n) rules' with
            | Some (out, n') => Some ((dst, src, o) :: out, n')
            | None => None
            end
          else None
      | _ => None
      end
  end.

(** The table as section 4.1 orders it, and with the two rows exchanged. *)
Definition table := table_rows false.

Definition table_amended := table_rows true.

End Reference.

Import Reference.

(** ** Predicates used in the statements *)

(** The raw rules on which the table of section 4.1 and the code are
    compared: not a mapping standing where a rule should; a 2-element rule
    whose second element is [NOS], a string, a callable or a mapping; a
    3-element rule whose destination is [None] or truthy, and whose third
    element is not a [Converter] instance unless the source is [NOS]. *)
Definition in_table_scope (E : env) (raw : pyval) : bool :=
  match raw with
  | VDict _ => false
  | VList [dst; x] => is_NOS x || is_str x || is_callable x || is_dict x
  | VList [dst; src; x] =>
      (is_none dst || truthy dst)
      && (is_NOS src || negb (is_converter_instance E x))
  | _ => true
  end.

(** The state after one [next(_COUNTER)]. *)
Definition bump (st : state) : state := State (context_local st) (S (counter st)).

(** The class-level default provider, [default_if_nos] when it is not
    [None]. *)
Definition provider (cls : converter_class) : option pyval :=
  match default_if_nos cls with
  | Some v => if is_none v then None else Some v
  | None => None
  end.

(** The raw rules that are given a fresh destination name: a bare callable,
    and a 3-element rule with a falsy destination. *)
Definition takes_fresh_name (raw : pyval) : bool :=
  is_callable raw
  || match raw with VList [dst; _; _] => negb (truthy dst) | _ => false end.

(** A canonical triple with a non-empty destination and an admissible
    default. *)
Definition is_canonical (raw : pyval) : bool :=
  match raw with
  | VList [VStr d; VStr s; VDict o] => negb (String.eqb d "") && default_allowed o
  | _ => false
  end.

(** A normalised rule whose destination is a non-empty string and whose
    source is a string. *)
Definition is_named (r : pyval * pyval * dict) : bool :=
  match r with
  | (VStr d, VStr s, _) => negb (String.eqb d "")
  | _ => false
  end.

(** What [self.context] reads in a state. *)
Definition observed (st : state) : dict := default ∅ (context_local st).

(** [build_context] leaves the context slot as it found it. *)
Definition build_context_keeps_context (E : env) (self : converter) : Prop :=
  ∀ f st, build_context (cls self) = Some f →
    observed (py_call E f [] [] st).2 = observed st.

(** The state in which [build_context] leaves the interpreter, when the
    class has one. *)
Definition after_build (E : env) (self : converter) (st : state) : state :=
  match build_context (cls self) with
  | None => st
  | Some f => (py_call E f [] [] st).2
  end.

(** The converted value after [convert_nones_to_blanks]. *)
Definition blanked (c : converter_class) (v : pyval) : pyval :=
  if is_none v && truthy (converter_option c "convert_nones_to_blanks")
  then VStr "" else v.

(** A converted value that the converter-level options do not omit:
    not [None] unless [include_nones], and after blanking neither the empty
    string unless [include_empty_strings] nor the omit sentinel. *)
Definition passes_global_options (c : converter_class) (v : pyval) : bool :=
  negb (negb (truthy (converter_option c "include_nones")) && is_none v)
  && negb (negb (truthy (converter_option c "include_empty_strings"))
           && is_empty_str (blanked c v))
  && negb (is_sentry (blanked c v)).

(** A source path that is one key: no dot, bracket or escape, and neither
    ["self"] nor [NOS]. *)
Definition plain_key (k : string) : bool :=
  negb (string_mem "."%char k) && negb (string_mem "["%char k)
  && negb (string_mem "\"%char k)
  && negb (String.eqb k "self") && negb (String.eqb k NOS).

(** A parameter of [populate_instance] whose options carry a truthy
    [merge]. *)
Definition merge_flagged (p : string * (pyval * dict)) : bool :=
  truthy (dict_get p.2.2 "merge" (VBool false)).

(** ** Classes and sources of the examples *)

Module Examples.

(** A [DictConverter] subclass: [from_class = to_class = dict]. *)
Definition dict_converter (name : string) (conversions : list pyval) : converter_class :=
  ConverterClass name (Some (TClass "dict")) (Some (TClass "dict")) conversions
    [] None [] [] None None ∅ None None None.

Definition with_options (c : converter_class) (options : dict) : converter_class :=
  ConverterClass (name c) (from_class c) (to_class c) (conversions c)
    (converter_additional_attrs c) (default_if_nos c) [options]
    (converter_washers c) (build_context c) (post_convert c) (methods c)
    (from_getter c) (to_getter c) (setter c).

Definition with_build_context (c : converter_class) (f : pyval) : converter_class :=
  ConverterClass (name c) (from_class c) (to_class c) (conversions c)
    (converter_additional_attrs c) (default_if_nos c) (converter_options c)
    (converter_washers c) (Some f) (post_convert c) (methods c)
    (from_getter c) (to_getter c) (setter c).

Definition with_classes (c : converter_class) (from_ to_ : option pytype)
  : converter_class :=
  ConverterClass (name c) from_ to_ (conversions c)
    (converter_additional_attrs c) (default_if_nos c) (converter_options c)
    (converter_washers c) (build_context c) (post_convert c) (methods c)
    (from_getter c) (to_getter c) (setter c).

(** The sub-converter of the docstring's context example, and a variant
    that builds a context of its own. *)
Definition MySubConverter : converter_class :=
  dict_converter "MySubConverter" [VStr "from_context"].

Definition BuildingSubConverter : converter_class :=
  with_build_context (dict_converter "BuildingSubConverter" [VStr "from_context"])
    (VFunc "build_context").

(** The callables of the examples: [lambda x: x * 2],
    [lambda x: x is not None], [lambda p: p > 10], [lambda x: None], a
    [build_context] method that returns a dictionary, and one that assigns
    [self.context = {'leak': 1}] before it returns [{}]. *)
Definition example_call (f : pyval) (args : list pyval) (kw : kwargs) : M pyval :=
  match f, args with
  | VFunc "double", [VInt n] => ret (VInt (2 * n))
  | VFunc "double", [VBool b] => ret (VInt (if b then 2 else 0))
  | VFunc "double", [VStr s] => ret (VStr (String.append s s))
  | VFunc "double", [VList l] => ret (VList (l ++ l))
  | VFunc "double", [_] => raise (TypeError "unsupported operand type(s) for *")
  | VFunc "is_not_none", [v] => ret (VBool (negb (is_none v)))
  | VFunc "bigger_than_ten", [VInt n] => ret (VBool (10 <? n)%Z)
  | VFunc "bigger_than_ten", [VBool b] => ret (VBool false)
  | VFunc "bigger_than_ten", [_] =>
      raise (TypeError "'>' not supported between these instances")
  | VFunc "to_none", [_] => ret VNone
  | VFunc "build_context", [] => ret (VDict {[ "from_context" := VStr "built" ]})
  | VFunc "leaking_build_context", [] =>
      fun st => (inr (VDict ∅), State (Some {[ "leak" := VInt 1 ]}) (counter st))
  | _, _ => raise (Raised (VStr "not a callable of the examples"))
  end.

Definition example_parameters (f : pyval) : list string :=
  match f with
  | VFunc "double" | VFunc "is_not_none" | VFunc "to_none" => ["x"]
  | VFunc "bigger_than_ten" => ["p"]
  | _ => []
  end.

Definition example_env : env :=
  Env example_call example_parameters (fun _ => [])
    {[ "MySubConverter" := MySubConverter;
       "BuildingSubConverter" := BuildingSubConverter ]}
    ∅.

(** An environment without callables. *)
Definition plain_env : env :=
  Env (fun _ _ _ => raise (Raised (VStr "nothing to call"))) (fun _ => [])
    (fun _ => []) ∅ ∅.

(** [c.convert(source, context=context, **extra_attrs)] from a fresh
    interpreter. *)
Definition run (c : converter_class) (source : pyval) (context : option dict)
    (extra_attrs : kwargs) : (exn + pyval) * state :=
  convert_to_depth example_env 3 c source context VNone ∅ extra_attrs initial_state.

(** The instance [__init__] builds when the rules are already normalised. *)
Definition instance (c : converter_class) (source : pyval) (context : option dict)
    (attrs : list (pyval * pyval * dict)) : converter :=
  Self c source VNone [] true ∅ context attrs.

(** The class of the docstring's first example. *)
Definition MyConverter : converter_class :=
  dict_converter "MyConverter"
    [VStr "a";
     VList [VStr "b"; VStr "a"];
     VList [VStr "c"; VStr NOS; VStr "a default"];
     VList [VStr "d"; VStr "a"; VFunc "double"];
     VList [VStr "e"; VStr NOS; VClass "dict"]].

(** The rules of the docstring's example configuration, with two unnamed
    rules of the kind [StrConverter] uses. *)
Definition example_rules : list pyval :=
  [VStr "attr1";
   VList [VStr "attr1_alternative"];
   VList [VStr "renamed_attr"; VStr "attr2"];
   VList [VStr "greeting"; VDict {[ "converter" := VFunc "double" ]}];
   VList [VStr "multiply_this"; VFunc "double"];
   VList [VStr "add_this_dest"; VStr "add_this_from"; VFunc "double"];
   VList [VStr "added_attr"; VStr NOS; VDict {[ "default" := VStr "added attr value" ]}];
   VList [VStr "added_attr_2"; VStr NOS; VStr "added attr value 2"];
   VList [VNone; VStr "attr2"; VFunc "double"];
   VFunc "double";
   VFunc "double"].

(** [('added_attr', NOS, {'default': 'added attr value'})] *)
Definition options_after_NOS : pyval :=
  VList [VStr "added_attr"; VStr NOS; VDict {[ "default" := VStr "added attr value" ]}].

(** The parent of the docstring's context example, over a chosen
    sub-converter. *)
Definition ContextConverter (sub : string) : converter_class :=
  dict_converter "MyConverter"
    [VStr "from_context"; VList [VStr "subs"; VClass sub]].

(** [conversions = [('x', 'y', {'required': True, 'default': 'fallback'})]] *)
Definition RequiredWithDefault : converter_class :=
  dict_converter "RequiredWithDefault"
    [VList [VStr "x"; VStr "y";
            VDict {[ "required" := VBool true; "default" := VStr "fallback" ]}]].

(** [conversions = [('x', 'y', {'required': lambda x: x is not None,
    'default': 'fallback'})]] *)
Definition RequiredPredicateWithDefault : converter_class :=
  dict_converter "RequiredPredicateWithDefault"
    [VList [VStr "x"; VStr "y";
            VDict {[ "required" := VFunc "is_not_none"; "default" := VStr "fallback" ]}]].

(** [conversions = [('x', 'y', {'required': True})]] *)
Definition RequiredOnly : converter_class :=
  dict_converter "RequiredOnly"
    [VList [VStr "x"; VStr "y"; VDict {[ "required" := VBool true ]}]].

(** [conversions = [('x', NOS, 'fallback')]] *)
Definition DefaultNotOnSource : converter_class :=
  dict_converter "DefaultNotOnSource" [VList [VStr "x"; VStr NOS; VStr "fallback"]].

(** [conversions = [('x', 'y', {'default': 'fallback'})]] *)
Definition DefaultOnNull : converter_class :=
  dict_converter "DefaultOnNull"
    [VList [VStr "x"; VStr "y"; VDict {[ "default" := VStr "fallback" ]}]].

(** [converter_options = {'include_empty_strings': False}] and
    [conversions = [('x', {'max_len': 0})]] *)
Definition EmptyingConverter : converter_class :=
  with_options
    (dict_converter "EmptyingConverter"
       [VList [VStr "x"; VDict {[ "max_len" := VInt 0 ]}]])
    {[ "include_empty_strings" := VBool false ]}.

(** [converter_options = {'convert_nones_to_blanks': True}] and
    [conversions = ['x']] *)
Definition BlankingConverter : converter_class :=
  with_options (dict_converter "BlankingConverter" [VStr "x"])
    {[ "convert_nones_to_blanks" := VBool true ]}.

(** [converter_options = {'merge_all': True}] and [conversions = ['a']] *)
Definition MergeAllConverter : converter_class :=
  with_options (dict_converter "MergeAllConverter" [VStr "a"])
    {[ "merge_all" := VBool true ]}.

(** [from_class = Union[dict, MyObject]] *)
Definition UnionSourceConverter : converter_class :=
  with_classes (dict_converter "UnionSourceConverter" [VStr "a"])
    (Some (TUnion ["dict"; "MyObject"])) (Some (TClass "dict")).

(** [to_class = Union[dict, object]] *)
Definition UnionDestinationConverter : converter_class :=
  with_classes (dict_converter "UnionDestinationConverter" [VStr "a"])
    (Some (TClass "dict")) (Some (TUnion ["dict"; "object"])).

(** [converter_options = {'include_nones': False}],
    [converter_washers = {str: lambda x: None}] and [conversions = ['x']] *)
Definition NullingConverter : converter_class :=
  ConverterClass "NullingConverter" (Some (TClass "dict")) (Some (TClass "dict"))
    [VStr "x"] [] None [ {[ "include_nones" := VBool false ]} ]
    [("str", VFunc "to_none")] None None ∅ None None None.

(** A class whose [build_context] assigns [self.context]. *)
Definition LeakingConverter : converter_class :=
  with_build_context (dict_converter "LeakingConverter" [VStr "x"])
    (VFunc "leaking_build_context").

(** [conversions = ['x']] *)
Definition Plain : converter_class := dict_converter "Plain" [VStr "x"].

End Examples.

Import Examples.

(** ** Further predicates used in the statements *)

(** No custom setter in the options of a rule. *)
Definition no_setter (opts : dict) : bool :=
  negb (truthy (dict_get opts "setter" VNone)).

(** A destination name without a dot. *)
Definition undotted (k : string) : bool := negb (string_mem "."%char k).

(** The sort key of a value that is its own key, where the embedding
    orders it. *)
Definition own_key (v : pyval) : option sort_key :=
  match v with
  | VInt n => Some (KNum n)
  | VBool b => Some (KNum (if b then 1 else 0))
  | VStr s => Some (KStr s)
  | _ => None
  end.

(** [a <= b] for two values that are their own keys. *)
Definition value_le (a b : pyval) : Prop :=
  match own_key a, own_key b with
  | Some ka, Some kb => key_le ka kb = Some true
  | _, _ => False
  end.

(** [a <= b] on keyed items. *)
Definition keyed_le (a b : sort_key * pyval) : Prop := key_le a.1 b.1 = Some true.

(** ** [create_compound_converter] *)

(** [kwargs.get(k)] on keyword arguments. *)
Definition kwarg (kw : kwargs) (k : string) : option pyval :=
  snd <$> find (fun kv => String.eqb kv.1 k) kw.

(** The function [create_compound_converter] returns, applied to [val]
    and its keyword arguments.  A [Converter] subclass is constructed on
    the running result and converted, [class_convert] being the class
    called with [source], [context], [dest], [_extra] and the extra
    attributes, followed by [convert]; anything else is called on the
    result.  The keywords [context], [dest] and [_extra] are those of
    [Converter.__init__]. *)
Definition create_compound_converter (E : env)
    (class_convert : converter_class → pyval → option dict → pyval → dict → kwargs
                     → M pyval)
    (converters : list pyval) (val : pyval) (kw : kwargs) : M pyval :=
  for_fold
    (fun result conv =>
       match is_converter_class E conv with
       | Some c =>
           context ← (match kwarg kw "context" with
                      | None | Some VNone => ret None
                      | Some (VDict d) => ret (Some d)
                      | Some _ => raise (Unmodelled "context that is not a mapping")
                      end);
           _extra ← (match kwarg kw "_extra" with
                     | None => ret ∅
                     | Some (VDict d) => ret d
                     | Some v =>
                         if truthy v
                         then raise (Unmodelled "_extra that is not a mapping")
                         else ret ∅
                     end);
           class_convert c result context (default VNone (kwarg kw "dest")) _extra
             (filter (fun kv => kv.1 ∉ ["context"; "dest"; "_extra"]) kw)
       | None => py_call E conv [result] kw
       end)
    converters val.

(** The sanity check of [normalize_copy_attrs] on the options of a rule:
    no [default], or one that is a callable, a number or a string. *)
Definition default_is_admissible (opts : dict) : bool :=
  let default := dict_get opts "default" VSentry in
  is_sentry default || is_callable default || is_number default || is_str default.

(** A rule in three parts. *)
Definition is_triple (raw : pyval) : bool :=
  match raw with VList [_; _; _] => true | _ => false end.

(** [next(a for a in rules if a[0] == k)], [None] on [StopIteration]. *)
Definition first_rule_for (k : string) (rules : list (pyval * pyval * dict))
  : option (pyval * pyval * dict) :=
  find (fun a => match a.1.1 with VStr d => String.eqb d k | _ => false end) rules.

(** The rules [dynamic_copy_attrs] appends for [converter_additional_attrs]. *)
Definition additional_rules (c : converter_class) : list pyval :=
  map (fun kv => VList [VStr kv.1; VStr NOS; VDict {[ "default" := kv.2 ]}])
      (converter_additional_attrs c).

(** What a plain key resolves to on a dictionary source, before any
    default: the value of the source, the value of the context when the
    source has none, the omit sentinel when neither has. *)
Definition resolved (d ctx : dict) (k : string) : pyval :=
  let val := default VSentry (d !! k) in
  if is_sentry val then default VSentry (ctx !! k) else val.

(** The dictionary a list of parameters leaves when each is set in turn. *)
Definition set_all (params : list (string * (pyval * dict))) (m : dict) : dict :=
  foldl (fun m kv => <[kv.1 := kv.2.1]> m) m params.

(** A parameter that [populate_instance] sets by plain item assignment on a
    dictionary: an undotted name, no [merge] and no setter in its options. *)
Definition plainly_set (p : string * (pyval * dict)) : bool :=
  undotted p.1 && negb (merge_flagged p) && no_setter p.2.2.

(** ** Rules that copy a key *)

(** The normal form of the rule that copies the source key [p.2] to the
    destination [p.1]. *)
Definition copy_rule (p : string * string) : pyval * pyval * dict :=
  (VStr p.1, VStr p.2, ∅).

(** A raw rule that copies [p.2] to [p.1]: a bare name, or a (destination,
    source) pair. *)
Definition copies (raw : pyval) (p : string * string) : Prop :=
  (raw = VStr p.1 ∧ p.2 = p.1) ∨ raw = VList [VStr p.1; VStr p.2].

(** The destination is one non-empty key and the source a plain key. *)
Definition copyable (p : string * string) : bool :=
  undotted p.1 && negb (String.eqb p.1 "") && plain_key p.2.

(** The dictionary the copies build: every pair whose source key resolves
    to a value stores it under its destination, in order. *)
Definition copied (d ctx : dict) (pairs : list (string * string)) : dict :=
  foldl (fun m p =>
           let val := resolved d ctx p.2 in
           if is_sentry val then m else <[p.1 := val]> m)
        ∅ pairs.

(** The parameters the copies give [populate_instance]: an ordered
    dictionary in which a later value for a name replaces the earlier
    one. *)
Definition copy_params (d ctx : dict) (pairs : list (string * string))
    (dct : list (string * (pyval * dict))) : list (string * (pyval * dict)) :=
  foldl (fun dct p =>
           let val := resolved d ctx p.2 in
           if is_sentry val then dct else odict_set dct p.1 (val, ∅))
        dct pairs.

(** The dictionary [dest] after the copies have been set on it. *)
Definition updated (dest d ctx : dict) (pairs : list (string * string)) : dict :=
  foldl (fun m p =>
           let val := resolved d ctx p.2 in
           if is_sentry val then m else <[p.1 := val]> m)
        dest pairs.

(** A [DictConverter] subclass that sets [pass_attrs_to_init] and its
    rules, and nothing else. *)
Definition InitDictConverter (name : string) (conversions : list pyval)
  : converter_class :=
  with_options (dict_converter name conversions)
    {[ "pass_attrs_to_init" := VBool true ]}.

(** The values [merge] merges into one another rather than replaces. *)
Definition is_mergeable (v : pyval) : bool :=
  match v with VDict _ | VList _ => true | _ => false end.

(** The options dictionary a raw rule carries itself, which normalisation
    hands on as it is (every other rule gets a dictionary of its own). *)
Definition given_options (raw : pyval) : option dict :=
  match raw with
  | VList [_; VDict o] | VList [_; _; VDict o] => Some o
  | _ => None
  end.

(** ** Rules with a keyword override *)

(** [opts.get('_kwarg_override')] *)
Definition override_of (opts : dict) : pyval := dict_get opts "_kwarg_override" VNone.

(** The rules of a class that copies keys, after [dynamic_copy_attrs] has
    dealt with the keyword argument [k=v]. *)
Definition keyword_rules (pairs : list (string * string)) (k : string) (v : pyval)
  : list (pyval * pyval * dict) :=
  match stash_override (map copy_rule pairs) k v with
  | Some attrs' => attrs'
  | None => (map copy_rule pairs ++ [(VStr k, VStr NOS, {[ "_kwarg_override" := v ]})])%list
  end.

(** What such a rule resolves to on a dictionary source: its override
    when that is not [None], what its source key resolves to otherwise. *)
Definition rule_value (d ctx : dict) (r : pyval * pyval * dict) : pyval :=
  if is_none (override_of r.2)
  then match r.1.2 with VStr from_attr => resolved d ctx from_attr | _ => VSentry end
  else override_of r.2.

Definition rule_dest (r : pyval * pyval * dict) : string :=
  match r.1.1 with VStr to_attr => to_attr | _ => "" end.

(** A rule that copies a key, with or without an override: an undotted,
    non-empty destination, no option but the override, and a plain source
    key unless the override decides. *)
Definition keyword_rule (r : pyval * pyval * dict) : Prop :=
  ∃ dst src,
    r.1 = (VStr dst, VStr src)
    ∧ undotted dst = true ∧ dst ≠ ""
    ∧ (r.2 = ∅ ∨ r.2 = {[ "_kwarg_override" := override_of r.2 ]})
    ∧ (if is_none (override_of r.2) then plain_key src = true
       else is_sentry (override_of r.2) = false).

(** The dictionary such rules build. *)
Definition built_by (d ctx : dict) (rs : list (pyval * pyval * dict)) (m : dict) : dict :=
  foldl (fun m r =>
           let val := rule_value d ctx r in
           if is_sentry val then m else <[rule_dest r := val]> m)
        m rs.

(** The parameters such rules give [populate_instance]. *)
Definition keyword_params (d ctx : dict) (rs : list (pyval * pyval * dict))
    (dct : list (string * (pyval * dict))) : list (string * (pyval * dict)) :=
  foldl (fun dct r =>
           let val := rule_value d ctx r in
           if is_sentry val then dct else odict_set dct (rule_dest r) (val, r.2))
        dct rs.

(** ** Facts *)

Open Scope nat_scope.

Ltac unfold_monad :=
  unfold mbind, mret, M_bind, M_ret, bind, ret, raise in *.

Lemma is_NOS_is_str v : is_NOS v = true → is_str v = true.
Proof. by destruct v. Qed.

Lemma single_matches_table E cls raw st :
  in_table_scope E raw = true →
  match table_amended (provider cls) (fresh_name (counter st)) raw with
  | Some (r, used) =>
      normalize_single_copy_attr E cls raw st = (inr r, if used then bump st else st)
  | None =>
      ∃ e st', normalize_single_copy_attr E cls raw st = (inl e, st')
               ∧ is_TypeError e = true
  end.
Proof.
  intros Hscope.
  destruct raw as [| | b | n | s | l | d | f | c | c a]; simpl in *;
    try (eexists _, _; split; [reflexivity | reflexivity]); try reflexivity; try done.
  destruct l as [| x0 [| x1 [| x2 [| x3 l]]]]; simpl in *;
    try (eexists _, _; split; [reflexivity | reflexivity]); try reflexivity.
  - unfold normalize_single_copy_attr. simpl. unfold_monad. simpl.
    unfold provider.
    destruct (is_NOS x1) eqn:Hnos.
    + destruct (default_if_nos cls) as [v|]; simpl; [destruct (is_none v)|]; reflexivity.
    + destruct (is_str x1) eqn:Hs; [reflexivity|].
      destruct (is_callable x1) eqn:Hc; [reflexivity|].
      destruct (is_dict x1) eqn:Hd; [reflexivity|].
      done.
  - unfold normalize_single_copy_attr. simpl. unfold_monad. simpl.
    apply andb_true_iff in Hscope as [Hdst Hinst].
    unfold is_converter, three_opts, three_nos_default, three_converter.
    destruct (is_NOS x1) eqn:Hn;
      [rewrite (is_NOS_is_str _ Hn)
      | simpl in Hinst; apply negb_true_iff in Hinst; rewrite Hinst;
        destruct (is_str x1)];
      destruct (is_dict x2), (is_callable x2), (is_str x2);
      destruct x0; simpl in Hdst |- *; try done;
      try rewrite Hdst; simpl;
      try done; try (eexists _, _; split; [reflexivity | reflexivity]).
Qed.

Lemma table_opts_dict b p f raw d s o u :
  table_rows b p f raw = Some ((d, s, o), u) → is_dict o = true.
Proof.
  destruct raw as [| | ? | ? | ? | l | ? | ? | ? | ? ?]; simpl; try done;
    try (intros [= <- <- <- <-]; done).
  destruct l as [| x0 [| x1 [| x2 [| x3 l]]]]; simpl; try done.
  - intros [= <- <- <- <-]; done.
  - destruct (is_NOS x1); [destruct p; intros [= <- <- <- <-]; done|].
    destruct (is_str x1); [intros [= <- <- <- <-]; done|].
    destruct (is_callable x1); [intros [= <- <- <- <-]; done|].
    destruct (is_dict x1) eqn:Hd; [intros [= <- <- <- <-]; done|done].
  - destruct (dst_or_fresh_name x0 f); [|done].
    unfold three_opts, three_nos_default, three_converter.
    destruct b, (is_NOS x1), (is_str x1), (is_dict x2) eqn:Hd, (is_converter x2);
      simpl; try done; intros [= <- <- <- <-]; done.
Qed.

Lemma check_default_allowed d s o st :
  check_default (d, s, VDict o) st =
    if default_allowed o then (inr (d, s, o), st)
    else (inl (TypeError "default option in converter can only be a callable, number or str"), st).
Proof.
  unfold check_default, default_allowed, dict_get.
  destruct (o !! "default") as [v|]; simpl; [|done].
  destruct (is_sentry v); simpl; [done|].
  destruct (is_callable v || is_number v || is_str v); done.
Qed.

Lemma pass_matches_table E cls rules : ∀ st,
  forallb (in_table_scope E) rules = true →
  match normalize_rows true (provider cls) (counter st) rules with
  | Some (out, n') =>
      normalize_copy_attrs E cls rules st = (inr out, State (context_local st) n')
  | None =>
      ∃ e st', normalize_copy_attrs E cls rules st = (inl e, st')
               ∧ is_TypeError e = true
  end.
Proof.
  induction rules as [| raw rules IH]; intros st Hscope; simpl.
  { by destruct st. }
  simpl in Hscope. apply andb_true_iff in Hscope as [Hraw Hrules].
  pose proof (single_matches_table E cls raw st Hraw) as Hsingle.
  unfold table_amended in Hsingle.
  unfold normalize_copy_attrs in *. simpl. unfold_monad.
  destruct (table_rows true (provider cls) (fresh_name (counter st)) raw)
    as [[[[d s] o] used]|] eqn:Htab.
  - rewrite Hsingle.
    pose proof (table_opts_dict _ _ _ _ _ _ _ _ Htab) as Hd.
    destruct o; try done.
    rewrite check_default_allowed.
    destruct (default_allowed d0); [|eexists _, _; split; [reflexivity|reflexivity]].
    specialize (IH (if used then bump st else st) Hrules).
    replace (counter (if used then bump st else st))
      with (if used then S (counter st) else counter st) in IH by (by destruct used).
    destruct (normalize_rows true (provider cls) _ rules) as [[out n']|].
    + rewrite IH. by destruct used.
    + destruct IH as (e & st' & -> & He). by eexists _, _.
  - destruct Hsingle as (e & st' & -> & He). by eexists _, _.
Qed.

Lemma bind_inr {A B} (m : M A) (k : A → M B) st b st' :
  bind m k st = (inr b, st') →
  ∃ a st1, m st = (inr a, st1) ∧ k a st1 = (inr b, st').
Proof.
  unfold bind. destruct (m st) as [[e|a] st1]; [done|]. intros H. by exists a, st1.
Qed.

Lemma single_counter E cls raw st r st' :
  normalize_single_copy_attr E cls raw st = (inr r, st') →
  if takes_fresh_name raw
  then r.1.1 = VStr (fresh_name (counter st)) ∧ st' = bump st
  else st' = st.
Proof.
  unfold normalize_single_copy_attr.
  destruct raw as [| | ? | ? | ? | l | ? | ? | ? | ? ?]; simpl; unfold_monad; simpl;
    try done; try (intros [= <- <-]; done).
  - destruct l as [| x0 [| x1 [| x2 [| x3 l]]]]; simpl; try done.
    + intros [= <- <-]; done.
    + intros H; repeat case_match; simplify_eq; done.
    + unfold takes_fresh_name; simpl.
      destruct (truthy x0) eqn:Ht; simpl; intros H;
        repeat case_match; simplify_eq; done.
  - intros H; repeat case_match; simplify_eq.
Qed.

Lemma pass_fresh E cls rules : ∀ st out st',
  normalize_copy_attrs E cls rules st = (inr out, st') →
  counter st ≤ counter st' ∧
  ∀ k rk ok, rules !! k = Some rk → out !! k = Some ok →
    takes_fresh_name rk = true →
    ∃ m, ok.1.1 = VStr (fresh_name m) ∧ counter st ≤ m < counter st'.
Proof.
  unfold normalize_copy_attrs.
  induction rules as [| raw rules IH]; intros st out st' H; simpl in H.
  { injection H as <- <-. split; [lia|]. intros k rk ok Hk. done. }
  apply bind_inr in H as (r & st1 & Hr & H).
  apply bind_inr in H as (outs & st2 & Houts & H).
  injection H as <- <-.
  apply bind_inr in Hr as (r0 & st0 & Hsingle & Hcheck).
  assert (st1 = st0 ∧ r.1.1 = r0.1.1) as [-> Hdst].
  { destruct r0 as [[d s] o]. destruct o; try done.
    rewrite check_default_allowed in Hcheck.
    destruct (default_allowed _); by simplify_eq. }
  apply single_counter in Hsingle.
  destruct (IH _ _ _ Houts) as [Hle Hrest].
  assert (counter st ≤ counter st0
          ∧ (takes_fresh_name raw = true →
             r0.1.1 = VStr (fresh_name (counter st)) ∧ counter st < counter st0))
    as [Hle0 Hraw].
  { destruct (takes_fresh_name raw).
    - destruct Hsingle as [? ->]. simpl. split; [lia|]. intros _. split; [done|lia].
    - subst. split; [lia|done]. }
  split; [lia|].
  intros [|k] rk ok Hk Hok Hfresh; simpl in *.
  - injection Hk as <-. injection Hok as <-.
    destruct (Hraw Hfresh) as [Hname Hlt].
    exists (counter st). rewrite Hdst. split; [done|lia].
  - destruct (Hrest k rk ok Hk Hok Hfresh) as (m & Hm & Hrange).
    exists m. split; [done|lia].
Qed.

Lemma fresh_name_inj m n : fresh_name m = fresh_name n → m = n.
Proof.
  unfold fresh_name. intros H. simpl in H. simplify_eq.
  by apply (inj pretty).
Qed.

Lemma fresh_names_distinct E cls rules : ∀ st out st',
  normalize_copy_attrs E cls rules st = (inr out, st') →
  ∀ i j ri rj oi oj, i < j →
    rules !! i = Some ri → rules !! j = Some rj →
    out !! i = Some oi → out !! j = Some oj →
    takes_fresh_name ri = true → takes_fresh_name rj = true →
    oi.1.1 ≠ oj.1.1.
Proof.
  induction rules as [| raw rules IH]; intros st out st' H i j ri rj oi oj Hij Hi Hj Hoi Hoj Hfi Hfj.
  { done. }
  pose proof H as Hpass.
  unfold normalize_copy_attrs in H. simpl in H.
  apply bind_inr in H as (r & st1 & Hr & H).
  apply bind_inr in H as (outs & st2 & Houts & H).
  injection H as <- <-.
  destruct j as [|j]; [lia|]. simpl in Hj, Hoj.
  destruct i as [|i]; simpl in Hi, Hoi.
  - injection Hi as <-. injection Hoi as <-.
    apply bind_inr in Hr as (r0 & st0 & Hsingle & Hcheck).
    assert (st1 = st0 ∧ r.1.1 = r0.1.1) as [-> Hdst].
    { destruct r0 as [[d s] o]. destruct o; try done.
      rewrite check_default_allowed in Hcheck.
      destruct (default_allowed _); by simplify_eq. }
    apply single_counter in Hsingle. rewrite Hfi in Hsingle.
    destruct Hsingle as [Hname ->].
    destruct (pass_fresh E cls rules _ _ _ Houts) as [_ Hrest].
    destruct (Hrest j rj oj Hj Hoj Hfj) as (m & Hm & Hrange).
    rewrite Hdst, Hname, Hm. intros Heq.
    assert (fresh_name (counter st) = fresh_name m) as Hmn%fresh_name_inj by congruence.
    simpl in Hrange. lia.
  - eapply (IH _ _ _ Houts i j); eauto. lia.
Qed.

Lemma canonical_single E cls d s o st :
  d ≠ "" →
  normalize_single_copy_attr E cls (VList [VStr d; VStr s; VDict o]) st
  = (inr (VStr d, VStr s, VDict o), st).
Proof.
  intros Hd. unfold normalize_single_copy_attr. simpl. unfold_monad. simpl.
  apply String.eqb_neq in Hd. rewrite Hd. simpl.
  destruct (s =? NOS)%string; reflexivity.
Qed.

Lemma canonical_pass E cls rules st :
  forallb is_canonical rules = true →
  ∃ out, normalize_copy_attrs E cls rules st = (inr out, st)
         ∧ map rule_tuple out = rules.
Proof.
  unfold normalize_copy_attrs.
  induction rules as [| raw rules IH]; simpl; intros H.
  { by exists []. }
  apply andb_true_iff in H as [Hraw Hrules].
  destruct (IH Hrules) as (out & Hout & Hmap).
  destruct raw as [| | | | | l | | | |]; try done.
  destruct l as [| x0 [| x1 [| x2 [|]]]]; try done;
    destruct x0 as [| | | | d | | | | |]; try done;
    destruct x1 as [| | | | s | | | | |]; try done;
    destruct x2 as [| | | | | | o | | |]; try done.
  simpl in Hraw. apply andb_true_iff in Hraw as [Hd Ho].
  apply negb_true_iff, String.eqb_neq in Hd.
  exists ((VStr d, VStr s, o) :: out). split; [|by rewrite <- Hmap].
  unfold_monad. rewrite canonical_single by done.
  rewrite check_default_allowed, Ho. by rewrite Hout.
Qed.

Lemma pass_defaults_allowed E cls rules : ∀ st out st',
  normalize_copy_attrs E cls rules st = (inr out, st') →
  forallb (fun r => default_allowed r.2) out = true.
Proof.
  unfold normalize_copy_attrs.
  induction rules as [| raw rules IH]; intros st out st' H; simpl in H.
  { by injection H as <- <-. }
  apply bind_inr in H as (r & st1 & Hr & H).
  apply bind_inr in H as (outs & st2 & Houts & H).
  injection H as <- <-.
  apply bind_inr in Hr as (r0 & st0 & Hsingle & Hcheck).
  simpl. rewrite (IH _ _ _ Houts), andb_true_r.
  destruct r0 as [[d s] o]. destruct o; try done.
  rewrite check_default_allowed in Hcheck.
  destruct (default_allowed _) eqn:Hd; by simplify_eq.
Qed.

Lemma named_canonical out :
  forallb is_named out = true →
  forallb (fun r => default_allowed r.2) out = true →
  forallb is_canonical (map rule_tuple out) = true.
Proof.
  induction out as [| [[d s] o] out IH]; simpl; [done|].
  intros [H1 H2]%andb_true_iff [H3 H4]%andb_true_iff.
  rewrite IH by done. rewrite andb_true_r.
  destruct d; try done. destruct s; try done. simpl. by rewrite H1, H3.
Qed.

Lemma rule_tuple_inj out out' : map rule_tuple out = map rule_tuple out' → out = out'.
Proof.
  revert out'. induction out as [| [[d s] o] out IH]; intros [| [[d' s'] o'] out']; simpl; try done.
  intros [= -> -> -> H]. by rewrite (IH _ H).
Qed.

Lemma normalize_twice E cls raw st out st' :
  normalize_copy_attrs E cls raw st = (inr out, st') →
  forallb is_named out = true →
  normalize_copy_attrs E cls (map rule_tuple out) st' = (inr out, st').
Proof.
  intros Hpass Hnamed.
  pose proof (pass_defaults_allowed _ _ _ _ _ _ Hpass) as Hdef.
  destruct (canonical_pass E cls (map rule_tuple out) st' (named_canonical _ Hnamed Hdef))
    as (out' & Hout' & Hmap).
  by rewrite Hout', (rule_tuple_inj _ _ Hmap).
Qed.

Lemma dict_get_insert_ne (o : dict) k k' v d :
  k ≠ k' → dict_get (<[k := v]> o) k' d = dict_get o k' d.
Proof. intros H. unfold dict_get. by rewrite lookup_insert_ne. Qed.

Lemma dict_get_absent (o : dict) k d : o !! k = None → dict_get o k d = d.
Proof. intros H. unfold dict_get. by rewrite H. Qed.

Lemma dict_get_insert_eq (o : dict) k v d : dict_get (<[k := v]> o) k d = v.
Proof. unfold dict_get. by rewrite lookup_insert_eq. Qed.

Lemma py_call_cons E f a args kw :
  py_call E f (a :: args) kw = call E f (a :: args) kw.
Proof. unfold py_call. repeat case_match; done. Qed.

Ltac other_keys :=
  repeat match goal with
    | |- context [dict_get (<[?k := ?v]> ?o) ?k' ?d] =>
        lazymatch k' with
        | k => fail
        | _ => rewrite (dict_get_insert_ne o k k' v d) by discriminate
        end
    end.

Lemma updated_context_restores E self {A} (body : M A) st :
  build_context_keeps_context E self →
  observed (_updated_context E self body st).2 = observed st.
Proof.
  intros Hbuild. unfold _updated_context.
  unfold mbind, M_bind, bind.
  destruct (build_context (cls self)) as [f|] eqn:Hf.
  - specialize (Hbuild f st Hf).
    destruct (py_call E f [] [] st) as [[e|r] st1]; simpl in *; [done|].
    unfold as_mapping. destruct r; simpl; try done.
    unfold try_finally. simpl.
    destruct (body _) as [r' st2]. simpl. done.
  - simpl. unfold try_finally. destruct (body _) as [r' st2]. simpl. done.
Qed.

Lemma updated_context_runs_body E self {A} (body : M A) st (built : dict) :
  match build_context (cls self) with
  | None => built = ∅
  | Some f => py_call E f [] [] st = (inr (VDict built), st)
  end →
  _updated_context E self body st
  = (let merged := default ∅ (_context self) ∪ (built ∪ observed st) in
     let '(r, st1) := body (State (Some merged) (counter st)) in
     (r, State (Some (observed st)) (counter st1))).
Proof.
  intros Hbuild. unfold _updated_context, observed.
  unfold mbind, M_bind, bind.
  destruct (build_context (cls self)) as [f|].
  - rewrite Hbuild. simpl. unfold try_finally. simpl.
    by destruct (body _) as [r st1].
  - subst built. simpl. unfold try_finally. simpl.
    by destruct (body _) as [r st1].
Qed.

Lemma get_plain_key (d : dict) k st :
  plain_key k = true →
  get (VDict d) k VSentry st = (inr (default VSentry (d !! k)), st).
Proof.
  unfold plain_key. intros H.
  repeat (apply andb_true_iff in H as [H ?]).
  apply negb_true_iff in H.
  repeat match goal with H : negb _ = true |- _ => apply negb_true_iff in H end.
  unfold get, to_path. rewrite H, H3, H2. simpl.
  unfold mbind, M_bind, bind, ret. simpl.
  by destruct (d !! k).
Qed.

Lemma is_one_of_union_types_spec E source alts :
  is_one_of_union_types E source alts = true
  ↔ ∃ ut, ut ∈ alts ∧ isinstance E source ut = true.
Proof.
  unfold is_one_of_union_types. rewrite existsb_exists. split.
  - intros (ut & Hin & H). exists ut. split; [by apply list_elem_of_In|].
    apply orb_true_iff in H as [H|H]; [|done].
    apply String.eqb_eq in H. unfold isinstance, issubclass.
    rewrite <- H, String.eqb_refl. done.
  - intros (ut & Hin & H). exists ut. split; [by apply list_elem_of_In|].
    rewrite H. apply orb_true_r.
Qed.


(** ** Worked examples of the docstrings *)

Example docstring_first_example :
  (run MyConverter (VDict {[ "a" := VInt 1 ]}) None []).1
  = inr (VDict {[ "a" := VInt 1; "b" := VInt 1; "c" := VStr "a default";
                  "d" := VInt 2; "e" := VDict ∅ ]}).
Proof. vm_compute. reflexivity. Qed.

Example docstring_context_example :
  (run (ContextConverter "MySubConverter")
       (VDict {[ "from_context" := VStr "OVERRIDE"; "subs" := VList [VDict ∅] ]})
       (Some {[ "from_context" := VStr "context" ]}) []).1
  = inr (VDict {[ "from_context" := VStr "OVERRIDE";
                  "subs" := VList [VDict {[ "from_context" := VStr "context" ]}] ]}).
Proof. vm_compute. reflexivity. Qed.

(** ** Required values and defaults *)

(** C1, evaluated on the code: the requirement is checked on the value
    [_get_value] returns, which is already defaulted.  With
    [('x', 'y', {'required': True, 'default': 'fallback'})] and the source
    [{}] the conversion returns [{'x': 'fallback'}] and raises nothing; a
    predicate [lambda x: x is not None] is called on ['fallback'], not on the
    [None] of the source; without the default the same rule raises
    [ValueRequired]. *)
Theorem required_check_sees_defaulted_value :
  (run RequiredWithDefault (VDict ∅) None []).1
  = inr (VDict {[ "x" := VStr "fallback" ]})
  ∧ (run RequiredPredicateWithDefault (VDict {[ "y" := VNone ]}) None []).1
    = inr (VDict {[ "x" := VStr "fallback" ]})
  ∧ (run RequiredOnly (VDict ∅) None []).1 = inl (ValueRequired "y" None).
Proof. repeat split; vm_compute; reflexivity. Qed.

(** C3: when no override is stashed and the rule has a default, a value
    resolved from the source and the context that is the omit sentinel,
    [None] or the empty string is replaced by the default, called if it is
    callable and taken as it is otherwise. *)
Theorem default_applies_to_missing_null_empty E self inst from_attr (opts : dict)
    d v st st' :
  dict_get opts "_kwarg_override" VNone = VNone →
  opts !! "default" = Some d →
  is_sentry d = false →
  _get_value_raw E self inst from_attr opts st = (inr v, st') →
  is_sentry v || is_none v || is_empty_str v = true →
  _get_value E self inst from_attr opts st
  = (if is_callable d then py_call E d [] [] else ret d) st'.
Proof.
  intros Hover Hd Hsentry Hraw Hv.
  unfold _get_value. rewrite Hover. simpl.
  unfold mbind, M_bind, bind. rewrite Hraw, Hv.
  unfold dict_get. rewrite Hd. simpl. rewrite Hsentry. simpl.
  reflexivity.
Qed.

Lemma default_applies_witness :
  _get_value example_env
    (instance DefaultOnNull (VDict {[ "y" := VNone ]}) None []) VSentry "y"
    {[ "default" := VStr "fallback" ]} initial_state
  = (inr (VStr "fallback"), initial_state).
Proof.
  apply (default_applies_to_missing_null_empty example_env
           (instance DefaultOnNull (VDict {[ "y" := VNone ]}) None []) VSentry "y"
           {[ "default" := VStr "fallback" ]} (VStr "fallback") VNone
           initial_state initial_state); reflexivity.
Defined.

Example default_for_a_rule_not_on_source :
  (run DefaultNotOnSource (VDict ∅) None []).1
  = inr (VDict {[ "x" := VStr "fallback" ]}).
Proof. vm_compute. reflexivity. Qed.

Example default_for_a_null_source_value :
  (run DefaultOnNull (VDict {[ "y" := VNone ]}) None []).1
  = inr (VDict {[ "x" := VStr "fallback" ]}).
Proof. vm_compute. reflexivity. Qed.

Example default_for_an_empty_source_value :
  (run DefaultOnNull (VDict {[ "y" := VStr "" ]}) None []).1
  = inr (VDict {[ "x" := VStr "fallback" ]}).
Proof. vm_compute. reflexivity. Qed.

(** ** Rule normalisation against the table of section 4.1 *)

(** C2, as the code has it: on the rules of the table, [normalize_copy_attrs]
    returns exactly what the table gives when a mapping in third position is
    read as the options before a third element after [NOS] is read as a
    default, with destinations named from the counter and the [default] of
    every expanded rule validated; where that table has no row, or the
    default is not admissible, it raises a [TypeError].  The fresh names
    given within one pass are pairwise distinct. *)
Theorem normalisation_follows_amended_table E cls rules st :
  forallb (in_table_scope E) rules = true →
  match normalize_rows true (provider cls) (counter st) rules with
  | Some (out, n') =>
      normalize_copy_attrs E cls rules st = (inr out, State (context_local st) n')
  | None =>
      ∃ e st', normalize_copy_attrs E cls rules st = (inl e, st')
               ∧ is_TypeError e = true
  end
  ∧ (∀ out st' i j ri rj oi oj,
       normalize_copy_attrs E cls rules st = (inr out, st') →
       i < j →
       rules !! i = Some ri → rules !! j = Some rj →
       out !! i = Some oi → out !! j = Some oj →
       takes_fresh_name ri = true → takes_fresh_name rj = true →
       oi.1.1 ≠ oj.1.1).
Proof.
  intros Hscope. split.
  - by apply pass_matches_table.
  - intros out st' i j ri rj oi oj Hpass. by eapply fresh_names_distinct.
Qed.

Lemma normalisation_follows_amended_table_witness :
  forallb (in_table_scope example_env) example_rules = true
  ∧ normalize_copy_attrs example_env MyConverter example_rules initial_state
    = (inr [(VStr "attr1", VStr "attr1", ∅);
            (VStr "attr1_alternative", VStr "attr1_alternative", ∅);
            (VStr "renamed_attr", VStr "attr2", ∅);
            (VStr "greeting", VStr "greeting", {[ "converter" := VFunc "double" ]});
            (VStr "multiply_this", VStr "multiply_this",
             {[ "converter" := VFunc "double" ]});
            (VStr "add_this_dest", VStr "add_this_from",
             {[ "converter" := VFunc "double" ]});
            (VStr "added_attr", VStr NOS, {[ "default" := VStr "added attr value" ]});
            (VStr "added_attr_2", VStr NOS,
             {[ "default" := VStr "added attr value 2" ]});
            (VStr "-not-on-dest-1", VStr "attr2", {[ "converter" := VFunc "double" ]});
            (VStr "-not-on-dest-2", VStr "self", {[ "converter" := VFunc "double" ]});
            (VStr "-not-on-dest-3", VStr "self", {[ "converter" := VFunc "double" ]})],
       State None 4).
Proof.
  split; [reflexivity|].
  exact (proj1 (normalisation_follows_amended_table example_env MyConverter
                  example_rules initial_state eq_refl)).
Defined.

(** C2 as stated fails on [('added_attr', NOS, {'default': 'added attr value'})],
    a rule of the class docstring.  The table in its priority order reads the
    mapping as the default of a rule that is not on the source, and the
    validation of defaults then rejects it; the code takes the mapping as
    the options and accepts the rule. *)
Lemma options_after_NOS_are_not_a_default :
  table None (fresh_name 1) options_after_NOS
  = Some ((VStr "added_attr", VStr NOS,
           VDict {[ "default" := VDict {[ "default" := VStr "added attr value" ]} ]}),
          false)
  ∧ normalize_rows false None 1 [options_after_NOS] = None
  ∧ normalize_copy_attrs example_env MyConverter [options_after_NOS] initial_state
    = (inr [(VStr "added_attr", VStr NOS, {[ "default" := VStr "added attr value" ]})],
       initial_state).
Proof. repeat split; vm_compute; reflexivity. Qed.

(** ** Idempotence of normalisation *)

(** C9, as the code has it: a list of canonical triples whose destinations
    are non-empty strings (and whose defaults are admissible) is returned
    unchanged, counter included; and normalising the result of a
    normalisation gives that result again whenever its destinations are
    non-empty strings and its sources are strings. *)
Theorem normalisation_idempotent_on_named_rules E cls :
  (∀ rules st, forallb is_canonical rules = true →
     ∃ out, normalize_copy_attrs E cls rules st = (inr out, st)
            ∧ map rule_tuple out = rules)
  ∧ (∀ raw st out st',
       normalize_copy_attrs E cls raw st = (inr out, st') →
       forallb is_named out = true →
       normalize_copy_attrs E cls (map rule_tuple out) st' = (inr out, st')).
Proof.
  split.
  - intros rules st. apply canonical_pass.
  - intros raw st out st'. apply normalize_twice.
Qed.

Lemma normalisation_idempotent_witness :
  normalize_copy_attrs example_env MyConverter
    (map rule_tuple
       [(VStr "a", VStr "a", ∅); (VStr "b", VStr "a", ∅);
        (VStr "c", VStr NOS, {[ "default" := VStr "a default" ]});
        (VStr "d", VStr "a", {[ "converter" := VFunc "double" ]});
        (VStr "e", VStr NOS, {[ "default" := VClass "dict" ]})])
    initial_state
  = (inr [(VStr "a", VStr "a", ∅); (VStr "b", VStr "a", ∅);
          (VStr "c", VStr NOS, {[ "default" := VStr "a default" ]});
          (VStr "d", VStr "a", {[ "converter" := VFunc "double" ]});
          (VStr "e", VStr NOS, {[ "default" := VClass "dict" ]})],
     initial_state).
Proof.
  apply (proj2 (normalisation_idempotent_on_named_rules example_env MyConverter)
           (conversions MyConverter) initial_state); reflexivity.
Defined.

(** C9 as stated fails on the rule [''].  Its normal form is the canonical
    triple [('', '', {})]; normalising that triple replaces the empty
    destination by a fresh name and moves the counter. *)
Lemma empty_destination_is_renamed :
  normalize_copy_attrs example_env MyConverter [VStr ""] initial_state
  = (inr [(VStr "", VStr "", ∅)], initial_state)
  ∧ normalize_copy_attrs example_env MyConverter
      (map rule_tuple [(VStr "", VStr "", ∅)]) initial_state
    = (inr [(VStr "-not-on-dest-1", VStr "", ∅)], State None 2).
Proof. split; vm_compute; reflexivity. Qed.

(** ** Keyword overrides *)

Example null_extra_attribute_is_resolved_from_the_source :
  (run Plain (VDict {[ "x" := VInt 5 ]}) None [("x", VNone)]).1
  = inr (VDict {[ "x" := VInt 5 ]})
  ∧ (run Plain (VDict {[ "x" := VInt 5 ]}) None [("x", VInt 9)]).1
    = inr (VDict {[ "x" := VInt 9 ]}).
Proof. split; vm_compute; reflexivity. Qed.

(** ** The context: precedence and restoration *)

(** C4, as the code has it: for a rule read through the default getter
    under a plain key, a value on the converter's own source wins; failing
    that, the context its caller passed to it explicitly; failing that, the
    context its own [build_context] computes; and only then the context it
    inherits from the enclosing conversion. *)
Theorem context_precedence E self inst (k : string) (opts src built : dict) st :
  source self = VDict src →
  from_getter (cls self) = None →
  opts !! "getter" = None →
  opts !! "pass_instance_to_converter" = None →
  plain_key k = true →
  src !! k ≠ Some VSentry →
  match build_context (cls self) with
  | None => built = ∅
  | Some f => py_call E f [] [] st = (inr (VDict built), st)
  end →
  (_updated_context E self (_get_value_raw E self inst k opts) st).1
  = inr (match src !! k with
         | Some v => v
         | None =>
             match default ∅ (_context self) !! k with
             | Some v => v
             | None =>
                 match built !! k with
                 | Some v => v
                 | None => default VSentry (observed st !! k)
                 end
             end
         end).
Proof.
  intros Hsrc Hgetter Hg Hp Hk Hsentry Hbuild.
  rewrite (updated_context_runs_body E self _ st built Hbuild). simpl.
  unfold _get_value_raw.
  rewrite (dict_get_absent opts "pass_instance_to_converter") by done.
  rewrite (dict_get_absent opts "getter") by done. simpl.
  pose proof Hk as Hk'. unfold plain_key in Hk'.
  repeat (apply andb_true_iff in Hk' as [Hk' ?]).
  repeat match goal with H : negb _ = true |- _ => apply negb_true_iff in H end.
  rewrite H. unfold call_from_getter, default_getter. rewrite Hgetter, H0, Hsrc.
  unfold mbind, M_bind, bind. rewrite get_plain_key by done.
  destruct (src !! k) as [v|] eqn:Hv; simpl.
  - destruct v; try done.
  - unfold context. simpl. rewrite get_plain_key by done. simpl.
    rewrite lookup_union.
    destruct (default ∅ (_context self) !! k) as [v1|]; simpl.
    { by destruct ((built ∪ observed st) !! k). }
    rewrite (left_id None _), lookup_union.
    destruct (built !! k) as [v2|]; simpl.
    { by destruct (observed st !! k). }
    by rewrite (left_id None _).
Qed.

Lemma context_precedence_witness :
  (_updated_context example_env
     (instance BuildingSubConverter (VDict ∅) None [])
     (_get_value_raw example_env
        (instance BuildingSubConverter (VDict ∅) None []) VSentry "from_context" ∅)
     (State (Some {[ "from_context" := VStr "inherited" ]}) 1)).1
  = inr (VStr "built").
Proof.
  exact (context_precedence example_env
           (instance BuildingSubConverter (VDict ∅) None []) VSentry
           "from_context" ∅ ∅ {[ "from_context" := VStr "built" ]}
           (State (Some {[ "from_context" := VStr "inherited" ]}) 1)
           eq_refl eq_refl eq_refl eq_refl eq_refl
           ltac:(vm_compute; discriminate) eq_refl).
Defined.

(** C4 as stated fails in a nested conversion: the parent is entered with
    the context [{'from_context': 'inherited'}], the child's source is [{}]
    and its [build_context] returns [{'from_context': 'built'}]; the child
    copies ['built'], not the inherited value. *)
Lemma built_context_beats_inherited :
  (run (ContextConverter "BuildingSubConverter")
       (VDict {[ "subs" := VList [VDict ∅] ]})
       (Some {[ "from_context" := VStr "inherited" ]}) []).1
  = inr (VDict {[ "from_context" := VStr "inherited";
                  "subs" := VList [VDict {[ "from_context" := VStr "built" ]}] ]}).
Proof. vm_compute. reflexivity. Qed.

Lemma updated_context_resets E self {A} (body : M A) st :
  observed (_updated_context E self body st).2 = observed (after_build E self st).
Proof.
  unfold _updated_context, after_build.
  unfold mbind, M_bind, bind.
  destruct (build_context (cls self)) as [f|] eqn:Hf.
  - destruct (py_call E f [] [] st) as [[e|r] st1]; simpl in *; [done|].
    unfold as_mapping. destruct r; simpl; try done.
    unfold try_finally. simpl.
    destruct (body _) as [r' st2]. simpl. done.
  - simpl. unfold try_finally. destruct (body _) as [r' st2]. simpl. done.
Qed.

(** C5, as the code has it: the previous context is read after
    [build_context] has run, so the context read after
    [with self._updated_context()], and after [convert], is the one
    [build_context] left behind, whatever the body returns or raises and
    whatever it did to the slot; it is the context read before the
    conversion whenever [build_context] leaves the slot alone, as it does
    when the class has none.  The body runs with the merge of the previous
    context, the built context and the context passed by the caller, later
    ones overriding, and the slot is reset to the previous context when the
    body is left. *)
Theorem context_restored_on_exit E sub self :
  (∀ A (body : M A) st,
     observed (_updated_context E self body st).2 = observed (after_build E self st))
  ∧ (∀ st, observed (convert E sub self st).2 = observed (after_build E self st))
  ∧ (build_context_keeps_context E self →
     (∀ A (body : M A) st, observed (_updated_context E self body st).2 = observed st)
     ∧ (∀ st, observed (convert E sub self st).2 = observed st))
  ∧ (∀ A (body : M A) st built,
       match build_context (cls self) with
       | None => built = ∅
       | Some f => py_call E f [] [] st = (inr (VDict built), st)
       end →
       _updated_context E self body st
       = (let merged := default ∅ (_context self) ∪ (built ∪ observed st) in
          let '(r, st1) := body (State (Some merged) (counter st)) in
          (r, State (Some (observed st)) (counter st1)))).
Proof.
  split; [|split; [|split]].
  - intros A body st. apply updated_context_resets.
  - intros st. unfold convert. apply updated_context_resets.
  - intros Hbuild. split.
    + intros A body st. by apply updated_context_restores.
    + intros st. unfold convert. by apply updated_context_restores.
  - intros A body st built. apply updated_context_runs_body.
Qed.

Lemma context_restored_on_exit_witness :
  (convert example_env (fun _ _ _ _ _ => raise RecursionError)
     (instance (with_build_context RequiredOnly (VFunc "build_context")) (VDict ∅)
        (Some {[ "inner" := VInt 1 ]})
        [(VStr "x", VStr "y", {[ "required" := VBool true ]})])
     (State (Some {[ "outer" := VInt 0 ]}) 1)).1
  = inl (ValueRequired "y" None)
  ∧ observed
      (convert example_env (fun _ _ _ _ _ => raise RecursionError)
         (instance (with_build_context RequiredOnly (VFunc "build_context")) (VDict ∅)
            (Some {[ "inner" := VInt 1 ]})
            [(VStr "x", VStr "y", {[ "required" := VBool true ]})])
         (State (Some {[ "outer" := VInt 0 ]}) 1)).2
    = {[ "outer" := VInt 0 ]}.
Proof.
  split; [vm_compute; reflexivity|].
  apply (proj2 (proj1 (proj2 (proj2 (context_restored_on_exit example_env
                         (fun _ _ _ _ _ => raise RecursionError)
                         (instance (with_build_context RequiredOnly (VFunc "build_context"))
                            (VDict ∅) (Some {[ "inner" := VInt 1 ]})
                            [(VStr "x", VStr "y", {[ "required" := VBool true ]})]))))
                  ltac:(intros f st [= <-]; reflexivity))).
Defined.

(** C5 as stated fails for a class whose [build_context] assigns the
    context: converting [{}] from an empty context returns normally and
    leaves [{'leak': 1}] in the slot. *)
Lemma assigned_context_is_not_undone :
  observed initial_state = ∅
  ∧ convert_to_depth example_env 1 LeakingConverter (VDict ∅) None VNone ∅ []
      initial_state
    = (inr (VDict ∅), State (Some {[ "leak" := VInt 1 ]}) 1).
Proof. split; vm_compute; reflexivity. Qed.

(** ** Converter-level options on nones and empty strings *)

(** C6, as the code has it: [include_nones], [convert_nones_to_blanks] and
    [include_empty_strings] act on the value the child conversion returns,
    before washers, truncation and sort.  A [None] there is omitted when
    [include_nones] is off; otherwise, with [convert_nones_to_blanks], it
    becomes the empty string, which [include_empty_strings] being off omits
    in turn; an empty string there is omitted when [include_empty_strings]
    is off.  A value that passes is washed and truncated, and what comes
    out is the value of the rule, without another look at it: a [None] or
    an empty string that a washer or the truncation produces is kept,
    whatever the three options say. *)
Theorem global_options_act_on_converted_value E sub self to_attr from_attr
    (opts : dict) inst val v st st1 st1' st2 :
  _get_value E self inst from_attr opts st = (inr val, st1) →
  is_sentry val = false →
  (if is_callable (dict_get opts "required" (VBool false))
   then r ← py_call E (dict_get opts "required" (VBool false)) [val] [];
        ret (truthy r)
   else ret true) st1 = (inr true, st1') →
  _convert_child E sub self to_attr opts val inst st1' = (inr v, st2) →
  let include_nones := truthy (converter_option (cls self) "include_nones") in
  let convert_nones_to_blanks :=
    truthy (converter_option (cls self) "convert_nones_to_blanks") in
  let include_empty_strings :=
    truthy (converter_option (cls self) "include_empty_strings") in
  let result := _normalize_value E sub self to_attr from_attr opts inst st in
  (is_none v = true → include_nones = false → result = (inr VSentry, st2))
  ∧ (is_empty_str v = true → include_empty_strings = false →
     result = (inr VSentry, st2))
  ∧ (is_none v = true → include_nones = true → convert_nones_to_blanks = true →
     include_empty_strings = false → result = (inr VSentry, st2))
  ∧ (passes_global_options (cls self) v = true →
     ∀ washed st3 truncated st4,
       (if negb (truthy (dict_get opts "skip_wash" (VBool false)))
        then wash_result E self (blanked (cls self) v)
        else ret (blanked (cls self) v)) st2 = (inr washed, st3) →
       (if negb (is_none (dict_get opts "max_len" VNone))
        then truncate_value washed (dict_get opts "max_len" VNone) opts
        else ret washed) st3 = (inr truncated, st4) →
       truthy (dict_get opts "sort" (VBool false)) = false →
       result = (inr truncated, st4)).
Proof.
  intros Hget Hval Hreq Hchild include_nones blanks include_empty result.
  subst result include_nones blanks include_empty.
  unfold _normalize_value.
  unfold mbind, M_bind, bind in *. rewrite Hget, Hval.
  rewrite Hreq. cbn [negb]. rewrite Hchild.
  split; [|split; [|split]].
  - intros Hv Hn. by rewrite Hn, Hv.
  - intros Hv He. rewrite He.
    destruct v; try done. simpl in *. rewrite Hv. simpl.
    by rewrite andb_false_r.
  - intros Hv Hn Hb He. rewrite Hn, Hv, Hb, He. done.
  - intros Hpass washed st3 truncated st4 Hwash Htrunc Hsort.
    unfold passes_global_options, blanked in *.
    apply andb_true_iff in Hpass as [Hpass Hs].
    apply andb_true_iff in Hpass as [Hn He].
    apply negb_true_iff in Hn, He, Hs.
    rewrite Hn, He, Hs, Hwash, Htrunc, Hsort. reflexivity.
Qed.

Lemma global_options_act_on_converted_value_witness :
  truthy (converter_option NullingConverter "include_nones") = false
  ∧ _normalize_value example_env (fun _ _ _ _ _ => raise RecursionError)
      (instance NullingConverter (VDict {[ "x" := VStr "abc" ]}) None [])
      "x" "x" ∅ VSentry initial_state
    = (inr VNone, initial_state).
Proof.
  split; [vm_compute; reflexivity|].
  exact (proj2 (proj2 (proj2
           (global_options_act_on_converted_value example_env
              (fun _ _ _ _ _ => raise RecursionError)
              (instance NullingConverter (VDict {[ "x" := VStr "abc" ]}) None [])
              "x" "x" ∅ VSentry (VStr "abc") (VStr "abc")
              initial_state initial_state initial_state initial_state
              eq_refl eq_refl eq_refl eq_refl)))
           eq_refl VNone initial_state VNone initial_state eq_refl eq_refl eq_refl).
Defined.

(** C6 as stated fails when truncation empties a string: with
    [include_empty_strings] off and [('x', {'max_len': 0})], the source
    [{'x': 'abc'}] gives [{'x': ''}]: the final value is the empty string
    and it is not omitted. *)
Lemma emptied_by_truncation_is_kept :
  truthy (converter_option EmptyingConverter "include_empty_strings") = false
  ∧ (run EmptyingConverter (VDict {[ "x" := VStr "abc" ]}) None []).1
    = inr (VDict {[ "x" := VStr "" ]}).
Proof. split; vm_compute; reflexivity. Qed.

(** With [include_nones] off, a [None] that a washer returns is kept. *)
Example nulled_by_a_washer_is_kept :
  (run NullingConverter (VDict {[ "x" := VStr "abc" ]}) None []).1
  = inr (VDict {[ "x" := VNone ]}).
Proof. vm_compute. reflexivity. Qed.

(** A [None] blanked by [convert_nones_to_blanks] is kept. *)
Example blanked_none_is_kept :
  (run BlankingConverter (VDict {[ "x" := VNone ]}) None []).1
  = inr (VDict {[ "x" := VStr "" ]}).
Proof. vm_compute. reflexivity. Qed.

Example docstring_nones_dropped_before_blanking :
  (run (with_options (dict_converter "MyConverter" [VList [VStr "to_attr"; VStr "from_attr"]])
          {[ "convert_nones_to_blanks" := VBool true; "include_nones" := VBool false ]})
       (VDict {[ "from_attr" := VNone ]}) None []).1
  = inr (VDict ∅).
Proof. vm_compute. reflexivity. Qed.

(** ** Population and merged attributes *)

Lemma set_value_independent E self self' :
  source self = source self' →
  to_getter (cls self) = to_getter (cls self') →
  setter (cls self) = setter (cls self') →
  methods (cls self) = methods (cls self') →
  ∀ fuel inst to_attr opts val st,
    _set_value_fuel E fuel self inst to_attr opts val st
    = _set_value_fuel E fuel self' inst to_attr opts val st.
Proof.
  intros Hsrc Hget Hset Hmeth.
  induction fuel as [| fuel IH]; intros inst to_attr opts val st; [done|].
  simpl. destruct (partition_dot to_attr) as [left_ right_].
  unfold call_to_getter, default_getter, store_back, call_setter.
  rewrite Hsrc, Hget, Hset, Hmeth.
  destruct (negb (right_ =? "")%string); [|reflexivity].
  unfold mbind, M_bind, bind.
  match goal with |- match ?m st with _ => _ end = _ =>
    destruct (m st) as [[e|subval] st1] end; [done|].
  destruct (is_none subval); [done|].
  by rewrite IH.
Qed.

(** C7, as the code has it: [populate_instance] passes over every parameter
    whose own options carry a truthy [merge]: the outcome is that of
    populating with those parameters removed, whatever the setter does.
    The converter-level options, [merge_all] among them, play no part in
    it: two converters with the same source, getter, setter and methods
    populate alike. *)
Theorem merge_rules_are_not_set E self params :
  (∀ inst st,
     populate_instance E self inst params st
     = populate_instance E self inst
         (List.filter (fun p => negb (merge_flagged p)) params) st)
  ∧ (∀ self' inst st,
       source self = source self' →
       to_getter (cls self) = to_getter (cls self') →
       setter (cls self) = setter (cls self') →
       methods (cls self) = methods (cls self') →
       populate_instance E self inst params st
       = populate_instance E self' inst params st).
Proof.
  split.
  - unfold populate_instance.
    induction params as [| [to_attr [val opts]] params IH]; intros inst st; [done|].
    simpl. unfold merge_flagged at 1. simpl.
    destruct (truthy (dict_get opts "merge" (VBool false))) eqn:Hm; simpl.
    + unfold mbind, M_bind, bind. simpl. apply IH.
    + unfold mbind, M_bind, bind. simpl.
      rewrite Hm.
      destruct (_set_value E self inst to_attr opts val st) as [[e|inst'] st1]; [done|].
      apply IH.
  - intros self' inst st Hsrc Hget Hset Hmeth. unfold populate_instance.
    revert inst st.
    induction params as [| [to_attr [val opts]] params IH]; intros inst st; [done|].
    simpl. unfold mbind, M_bind, bind.
    destruct (truthy (dict_get opts "merge" (VBool false))); simpl; [apply IH|].
    unfold _set_value. rewrite (set_value_independent E self self') by done.
    destruct (_set_value_fuel _ _ _ _ _ _ _ _) as [[e|inst'] st1]; [done|].
    apply IH.
Qed.

Lemma merge_rules_are_not_set_witness :
  populate_instance example_env
    (instance MergeAllConverter (VDict ∅) None []) (VDict ∅)
    [("a", (VInt 1, {[ "merge" := VBool true ]})); ("b", (VInt 2, ∅))]
    initial_state
  = populate_instance example_env
      (instance Plain (VDict ∅) None []) (VDict ∅)
      [("a", (VInt 1, {[ "merge" := VBool true ]})); ("b", (VInt 2, ∅))]
      initial_state.
Proof.
  exact (proj2 (merge_rules_are_not_set example_env
                  (instance MergeAllConverter (VDict ∅) None [])
                  [("a", (VInt 1, {[ "merge" := VBool true ]})); ("b", (VInt 2, ∅))])
           (instance Plain (VDict ∅) None []) (VDict ∅) initial_state
           eq_refl eq_refl eq_refl eq_refl).
Defined.

(** C7 as stated fails for [merge_all]: in a converter whose options set
    [merge_all], a rule without a [merge] of its own counts as merged for
    the child conversion, and is set on the destination all the same. *)
Lemma merge_all_rules_are_set :
  _attr_should_be_merged (instance MergeAllConverter (VDict ∅) None []) ∅ = true
  ∧ populate_instance example_env
      (instance MergeAllConverter (VDict ∅) None []) (VDict {[ "a" := VInt 0 ]})
      [("a", (VInt 1, ∅))] initial_state
    = (inr (VDict {[ "a" := VInt 1 ]}), initial_state)
  ∧ (convert_to_depth example_env 3 MergeAllConverter (VDict {[ "a" := VInt 1 ]})
       None (VDict {[ "a" := VInt 0 ]}) ∅ [] initial_state).1
    = inr (VDict {[ "a" := VInt 1 ]}).
Proof. repeat split; vm_compute; reflexivity. Qed.

(** ** Source and destination types *)

(** C8, as the code has it: with a union as [from_class] and a class as
    [to_class], a source that is [None] or an instance of one of the
    alternatives passes the type check, so that construction comes down to
    the normalisation of the rules; a source that is not [None] and an
    instance of none of them raises [TypeError]; and a union as [to_class]
    of a class that declares a [from_class] raises
    [InvalidToClassException] for every source, the state untouched. *)
Theorem union_source_accepted_union_destination_rejected
    E c source context dest _extra extra_attrs st :
  let construct := __init__ E c source context dest _extra extra_attrs st in
  let normalise :=
    (attrs ← _normalized_dynamic_copy_attrs E
               (Self c source dest extra_attrs (is_none dest) _extra context []);
     ret (Self c source dest extra_attrs (is_none dest) _extra context attrs)) st in
  (∀ alts t, from_class c = Some (TUnion alts) → to_class c = Some (TClass t) →
     (source = VNone ∨ ∃ ut, ut ∈ alts ∧ isinstance E source ut = true) →
     construct = normalise)
  ∧ (∀ alts t, from_class c = Some (TUnion alts) → to_class c = Some (TClass t) →
     source ≠ VNone →
     (∀ ut, ut ∈ alts → isinstance E source ut = false) →
     ∃ msg, construct = (inl (TypeError msg), st))
  ∧ (∀ alts, from_class c ≠ None → to_class c = Some (TUnion alts) →
     ∃ msg, construct = (inl (InvalidToClassException msg), st)).
Proof.
  intros construct normalise. subst construct normalise. unfold __init__.
  repeat split.
  - intros alts t Hfrom Hto Hsrc. rewrite Hfrom, Hto. simpl.
    unfold _is_valid_source_type. rewrite Hfrom.
    destruct Hsrc as [-> | Hinst]; [done|].
    apply is_one_of_union_types_spec in Hinst. rewrite Hinst.
    by rewrite andb_false_r.
  - intros alts t Hfrom Hto Hnone Hno. rewrite Hfrom, Hto. simpl.
    unfold _is_valid_source_type. rewrite Hfrom.
    assert (is_one_of_union_types E source alts = false) as ->.
    { apply not_true_is_false. intros (ut & Hin & H)%is_one_of_union_types_spec.
      rewrite (Hno ut Hin) in H. done. }
    destruct source; try done; simpl; by eexists.
  - intros alts Hfrom Hto. rewrite Hto. simpl.
    rewrite (bool_decide_eq_false_2 (from_class c = None)) by done.
    simpl. by eexists.
Qed.

Lemma union_source_witness :
  (__init__ example_env UnionSourceConverter (VInst "MyObject" ∅) None VNone ∅ []
     initial_state).1
  = inr (Self UnionSourceConverter (VInst "MyObject" ∅) VNone [] true ∅ None
           [(VStr "a", VStr "a", ∅)])
  ∧ (∃ msg, __init__ example_env UnionSourceConverter (VInt 3) None VNone ∅ []
              initial_state
            = (inl (TypeError msg), initial_state))
  ∧ (∃ msg, __init__ example_env UnionDestinationConverter (VDict ∅) None VNone ∅ []
              initial_state
            = (inl (InvalidToClassException msg), initial_state)).
Proof.
  split; [|split].
  - assert ("MyObject" ∈ ["dict"; "MyObject"]) as Hin by set_solver.
    etransitivity;
      [exact (f_equal fst
                (proj1 (union_source_accepted_union_destination_rejected example_env
                          UnionSourceConverter (VInst "MyObject" ∅) None VNone ∅ []
                          initial_state)
                   ["dict"; "MyObject"] "dict" eq_refl eq_refl
                   (or_intror (ex_intro _ "MyObject" (conj Hin eq_refl)))))
      | vm_compute; reflexivity].
  - apply (proj1 (proj2 (union_source_accepted_union_destination_rejected example_env
                           UnionSourceConverter (VInt 3) None VNone ∅ []
                           initial_state))
             ["dict"; "MyObject"] "dict"); [reflexivity | reflexivity | discriminate |].
    intros ut Hut. apply list_elem_of_In in Hut. simpl in Hut.
    destruct Hut as [<- | [<- | []]]; reflexivity.
  - apply (proj2 (proj2 (union_source_accepted_union_destination_rejected example_env
                           UnionDestinationConverter (VDict ∅) None VNone ∅ []
                           initial_state))
             ["dict"; "object"]); [discriminate | reflexivity].
Defined.

(** C8 as stated fails for the source [None]: it is an instance of neither
    alternative of [Union[dict, MyObject]], and the converter is constructed
    all the same. *)
Lemma null_source_passes_union_check :
  is_one_of_union_types example_env VNone ["dict"; "MyObject"] = false
  ∧ (__init__ example_env UnionSourceConverter VNone None VNone ∅ [] initial_state).1
    = inr (Self UnionSourceConverter VNone VNone [] true ∅ None
             [(VStr "a", VStr "a", ∅)]).
Proof. split; vm_compute; reflexivity. Qed.

(** ** Further examples from the docstrings and the tests *)

Example docstring_filter_example :
  (run (dict_converter "FilteredConverter"
          [VList [VStr "bigger_than_ten"; VStr "numbers";
                  VDict {[ "filter" := VFunc "bigger_than_ten" ]}]])
       (VDict {[ "numbers" := VList [VInt 3; VInt 11] ]}) None []).1
  = inr (VDict {[ "bigger_than_ten" := VList [VInt 11] ]}).
Proof. vm_compute. reflexivity. Qed.

Example test_single_val_filter :
  (run (dict_converter "MyConverter"
          [VList [VStr "a"; VDict {[ "filter" := VFunc "bigger_than_ten" ]}]])
       (VDict {[ "a" := VInt 4 ]}) None []).1
  = inr (VDict ∅)
  ∧ (run (dict_converter "MyConverter"
            [VList [VStr "a"; VDict {[ "filter" := VFunc "bigger_than_ten" ]}]])
         (VDict {[ "a" := VInt 11 ]}) None []).1
    = inr (VDict {[ "a" := VInt 11 ]}).
Proof. split; vm_compute; reflexivity. Qed.

Example docstring_max_len_example :
  (run (dict_converter "TruncatedConverter"
          [VList [VStr "truncated_string"; VStr "string"; VDict {[ "max_len" := VInt 10 ]}];
           VList [VStr "truncated_list"; VStr "list"; VDict {[ "max_len" := VInt 2 ]}]])
       (VDict {[ "string" := VStr "Hello world!";
                 "list" := VList [VInt 1; VInt 2; VInt 3] ]}) None []).1
  = inr (VDict {[ "truncated_string" := VStr "Hello worl";
                  "truncated_list" := VList [VInt 1; VInt 2] ]}).
Proof. vm_compute. reflexivity. Qed.

Example docstring_pluralize_example :
  (run (dict_converter "PluralizingConverter"
          [VList [VStr "pluralize_me"; VDict {[ "pluralize" := VBool true ]}];
           VList [VStr "and_me"; VDict {[ "pluralize" := VBool true ]}]])
       (VDict {[ "pluralize_me" := VDict {[ "some" := VStr "dict" ]};
                 "and_me" := VList [VStr "a"; VStr "b"] ]}) None []).1
  = inr (VDict {[ "pluralize_me" := VList [VDict {[ "some" := VStr "dict" ]}];
                  "and_me" := VList [VStr "a"; VStr "b"] ]}).
Proof. vm_compute. reflexivity. Qed.

Example docstring_sort_example :
  (run (dict_converter "SortExampleConverter"
          [VList [VStr "nums"; VDict {[ "sort" := VBool true ]}];
           VList [VStr "filter_and_sort";
                  VDict {[ "filter" := VFunc "bigger_than_ten"; "sort" := VBool true ]}]])
       (VDict {[ "nums" := VList [VInt 4; VInt 2; VInt 1; VInt 3];
                 "filter_and_sort" := VList [VInt 14; VInt 9; VInt 15; VInt 11; VInt 3] ]})
       None []).1
  = inr (VDict {[ "nums" := VList [VInt 1; VInt 2; VInt 3; VInt 4];
                  "filter_and_sort" := VList [VInt 11; VInt 14; VInt 15] ]}).
Proof. vm_compute. reflexivity. Qed.

Example test_converter_default_is_limited :
  (run (dict_converter "BadDefaultSingletonListConverter"
          [VList [VStr "a"; VDict {[ "default" := VList [] ]}]])
       (VDict ∅) None []).1
  = inl (TypeError "default option in converter can only be a callable, number or str").
Proof. vm_compute. reflexivity. Qed.

Example test_converter_invalid_field_spec :
  (run (dict_converter "MyConverter" [VDict ∅]) (VDict ∅) None []).1
  = inl (TypeError "Copy field spec is not valid").
Proof. vm_compute. reflexivity. Qed.

Example test_deep_converter_set :
  (run (dict_converter "DeepSettingConverter"
          [VList [VStr "a"; VDict {[ "default" := VClass "dict" ]}];
           VList [VStr "a.deep"; VDict {[ "default" := VClass "dict" ]}];
           VList [VStr "a.deep.path"; VStr "input_attr"];
           VList [VStr "a.deep.alternative"; VStr "second_attr"]])
       (VDict {[ "input_attr" := VStr "this to be inserted" ]}) None []).1
  = inr (VDict {[ "a" := VDict {[ "deep" :=
                      VDict {[ "path" := VStr "this to be inserted" ]} ]} ]}).
Proof. vm_compute. reflexivity. Qed.

(** ** Setting and reading back destination attributes *)

Lemma partition_dot_cons c s :
  partition_dot (String c s)
  = if Ascii.eqb c "."%char then (EmptyString, s)
    else let '(l, r) := partition_dot s in (String c l, r).
Proof. reflexivity. Qed.

Lemma string_mem_cons c c' s :
  string_mem c (String c' s) = Ascii.eqb c c' || string_mem c s.
Proof. reflexivity. Qed.

Lemma partition_dot_undotted k :
  string_mem "."%char k = false → partition_dot k = (k, "").
Proof.
  induction k as [| c k IH]; [done|].
  rewrite string_mem_cons, partition_dot_cons.
  intros [Hc Hk]%orb_false_iff. rewrite Ascii.eqb_sym, Hc.
  by rewrite (IH Hk).
Qed.

Lemma partition_dot_dotted a b :
  string_mem "."%char a = false →
  partition_dot (String.append a (String "."%char b)) = (a, b).
Proof.
  induction a as [| c a IH]; [done|].
  rewrite string_mem_cons.
  change (String.append (String c a) (String "."%char b))
    with (String c (String.append a (String "."%char b))).
  rewrite partition_dot_cons.
  intros [Hc Hk]%orb_false_iff. rewrite Ascii.eqb_sym, Hc.
  by rewrite (IH Hk).
Qed.

Lemma partition_dot_shorter s l r :
  partition_dot s = (l, r) → r ≠ "" → String.length r < String.length s.
Proof.
  revert l. induction s as [| c s IH]; intros l.
  { intros [= <- <-]. done. }
  rewrite partition_dot_cons. cbn [String.length].
  destruct (Ascii.eqb c "."%char).
  - intros [= <- <-] _. lia.
  - destruct (partition_dot s) as [l' r'] eqn:Hp. intros [= <- <-] Hr.
    specialize (IH l' eq_refl Hr). lia.
Qed.

Lemma set_value_fuel_enough E self : ∀ n m inst to_attr opts val st,
  String.length to_attr < n → String.length to_attr < m →
  _set_value_fuel E n self inst to_attr opts val st
  = _set_value_fuel E m self inst to_attr opts val st.
Proof.
  induction n as [| n IH]; intros m inst to_attr opts val st Hn Hm; [lia|].
  destruct m as [| m]; [lia|]. simpl.
  destruct (partition_dot to_attr) as [left_ right_] eqn:Hp.
  destruct (negb (right_ =? "")%string) eqn:Hr; [|reflexivity].
  apply negb_true_iff, String.eqb_neq in Hr.
  pose proof (partition_dot_shorter _ _ _ Hp Hr) as Hlt.
  unfold mbind, M_bind, bind.
  destruct (call_to_getter E self inst left_ VNone [VDict opts] [("right", VStr right_)] st)
    as [[e|subval] st1]; [done|].
  destruct (is_none subval); [done|].
  rewrite (IH m) by lia. done.
Qed.

Lemma get_plain_key_default (d : dict) k dflt st :
  plain_key k = true →
  get (VDict d) k dflt st = (inr (default dflt (d !! k)), st).
Proof.
  unfold plain_key. intros H.
  repeat (apply andb_true_iff in H as [H ?]).
  apply negb_true_iff in H.
  repeat match goal with H : negb _ = true |- _ => apply negb_true_iff in H end.
  unfold get, to_path. rewrite H, H3, H2. simpl.
  unfold mbind, M_bind, bind, ret. simpl.
  by destruct (d !! k).
Qed.

Lemma plain_key_not_self k : plain_key k = true → (k =? "self")%string = false.
Proof.
  unfold plain_key. intros H.
  repeat (apply andb_true_iff in H as [H ?]).
  by repeat match goal with H : negb _ = true |- _ => apply negb_true_iff in H end.
Qed.

Lemma plain_key_undotted k : plain_key k = true → string_mem "."%char k = false.
Proof.
  unfold plain_key. intros H.
  repeat (apply andb_true_iff in H as [H ?]).
  by apply negb_true_iff in H.
Qed.

Lemma append_length a b :
  String.length (String.append a b) = String.length a + String.length b.
Proof. induction a as [| c a IH]; simpl; [done|]. by rewrite IH. Qed.

(** X2: on a dictionary, a rule without a setter of its own and with an
    undotted destination stores the value under that key, and the default
    getter reads it back (for a key that is a plain path). *)
Theorem value_set_on_a_dict_is_read_back E self (d : dict) k opts val dflt st :
  undotted k = true →
  no_setter opts = true →
  _set_value E self (VDict d) k opts val st = (inr (VDict (<[k := val]> d)), st)
  ∧ (plain_key k = true → to_getter (cls self) = None →
     call_to_getter E self (VDict (<[k := val]> d)) k dflt [] [] st = (inr val, st)).
Proof.
  intros Hk Hset. apply negb_true_iff in Hk. apply negb_true_iff in Hset.
  split.
  - unfold _set_value. cbn [_set_value_fuel].
    rewrite (partition_dot_undotted k Hk). simpl. by rewrite Hset.
  - intros Hplain Hget. unfold call_to_getter, default_getter. rewrite Hget.
    rewrite (plain_key_not_self k Hplain), get_plain_key_default by done.
    by rewrite lookup_insert_eq.
Qed.

Lemma value_set_on_a_dict_witness :
  _set_value example_env (instance Plain (VDict ∅) None [])
    (VDict {[ "a" := VInt 0 ]}) "b" ∅ (VInt 1) initial_state
  = (inr (VDict (<[ "b" := VInt 1 ]> {[ "a" := VInt 0 ]})), initial_state).
Proof.
  exact (proj1 (value_set_on_a_dict_is_read_back example_env
                  (instance Plain (VDict ∅) None []) {[ "a" := VInt 0 ]} "b" ∅
                  (VInt 1) VNone initial_state eq_refl eq_refl)).
Defined.

(** X3: a dotted destination [a.b] on a dictionary is set through the
    nested object found under [a] by the default getter: the rest of the
    path is set on that object, which stays under [a]; when [a] is missing
    or [None] the assignment is dropped without an error and the
    dictionary is left as it was. *)
Theorem deep_set_goes_through_the_nested_object E self (d : dict) a b opts val st :
  to_getter (cls self) = None →
  plain_key a = true →
  b ≠ "" →
  _set_value E self (VDict d) (String.append a (String "."%char b)) opts val st
  = match d !! a with
    | None | Some VNone => (inr (VDict d), st)
    | Some sub =>
        (sub' ← _set_value E self sub b opts val;
         ret (VDict (<[a := sub']> d))) st
    end.
Proof.
  intros Hget Ha Hb.
  unfold _set_value at 1. cbn [_set_value_fuel].
  rewrite (partition_dot_dotted a b (plain_key_undotted a Ha)).
  apply String.eqb_neq in Hb. rewrite Hb. cbn [negb].
  unfold call_to_getter, default_getter. rewrite Hget, (plain_key_not_self a Ha).
  unfold mbind, M_bind, bind. rewrite get_plain_key_default by done.
  destruct (d !! a) as [sub|] eqn:Hsub; simpl; [|done].
  destruct (is_none sub) eqn:Hnone.
  { by destruct sub. }
  rewrite (set_value_fuel_enough E self _ (S (String.length b)))
    by (rewrite ?append_length; simpl; lia).
  change (_set_value_fuel E (S (String.length b)) self sub b opts val st)
    with (_set_value E self sub b opts val st).
  destruct (_set_value E self sub b opts val st) as [[e|sub'] st1].
  { by destruct sub. }
  unfold store_back. rewrite Hget, (plain_key_not_self a Ha).
  by destruct sub.
Qed.

Lemma deep_set_witness :
  _set_value example_env (instance Plain (VDict ∅) None [])
    (VDict {[ "a" := VDict ∅ ]}) "a.b" ∅ (VInt 1) initial_state
  = (inr (VDict {[ "a" := VDict {[ "b" := VInt 1 ]} ]}), initial_state)
  ∧ _set_value example_env (instance Plain (VDict ∅) None [])
      (VDict ∅) "a.b" ∅ (VInt 1) initial_state
    = (inr (VDict ∅), initial_state).
Proof.
  split.
  - etransitivity;
      [exact (deep_set_goes_through_the_nested_object example_env
                (instance Plain (VDict ∅) None []) {[ "a" := VDict ∅ ]} "a" "b" ∅
                (VInt 1) initial_state eq_refl eq_refl ltac:(discriminate))
      | vm_compute; reflexivity].
  - exact (deep_set_goes_through_the_nested_object example_env
             (instance Plain (VDict ∅) None []) ∅ "a" "b" ∅
             (VInt 1) initial_state eq_refl eq_refl ltac:(discriminate)).
Defined.

(** ** Sorting *)

Lemma for_each_length {A B} (f : A → M B) l : ∀ st out st',
  for_each f l st = (inr out, st') → length out = length l.
Proof.
  induction l as [| a l IH]; intros st out st' H; simpl in H.
  { by injection H as <- <-. }
  apply bind_inr in H as (b & st1 & _ & H).
  apply bind_inr in H as (bs & st2 & Hbs & H).
  injection H as <- <-. simpl. by rewrite (IH _ _ _ Hbs).
Qed.

Lemma for_each_ret {A} (l : list A) st : for_each (λ x, ret x) l st = (inr l, st).
Proof.
  induction l as [| a l IH]; [done|]. simpl.
  unfold mbind, M_bind, bind. simpl. by rewrite IH.
Qed.

Lemma key_le_total a b : key_le a b = Some false → key_le b a = Some true.
Proof.
  destruct a as [x|x], b as [y|y]; simpl; try done; intros [= H]; f_equal.
  - apply Z.leb_le. apply Z.leb_gt in H. lia.
  - destruct (String.leb_total x y) as [H'|H']; congruence.
Qed.

Lemma insert_sorted_perm x l l' : insert_sorted x l = Some l' → l' ≡ₚ x :: l.
Proof.
  revert l'. induction l as [| y l IH]; intros l'; simpl.
  { by intros [= <-]. }
  destruct (key_le x.1 y.1) as [[]|]; [by intros [= <-] | | done].
  destruct (insert_sorted x l) as [l''|]; simpl; [|done].
  intros [= <-]. rewrite (IH l'' eq_refl). apply Permutation_swap.
Qed.

Lemma sort_keyed_perm l l' : sort_keyed l = Some l' → l' ≡ₚ l.
Proof.
  revert l'. induction l as [| x l IH]; intros l'; simpl.
  { by intros [= <-]. }
  destruct (sort_keyed l) as [l''|]; simpl; [|done].
  intros H%insert_sorted_perm. by rewrite H, (IH l'' eq_refl).
Qed.

Lemma insert_sorted_hd x y l l' :
  insert_sorted x l = Some l' → HdRel keyed_le y l → keyed_le y x →
  HdRel keyed_le y l'.
Proof.
  destruct l as [| z l]; simpl.
  { intros [= <-] _ Hyx. by constructor. }
  destruct (key_le x.1 z.1) as [[]|]; [| | done].
  - intros [= <-] _ Hyx. by constructor.
  - destruct (insert_sorted x l); simpl; [|done].
    intros [= <-] Hyz _. inversion Hyz; subst. by constructor.
Qed.

Lemma insert_sorted_sorted x l l' :
  insert_sorted x l = Some l' → Sorted keyed_le l → Sorted keyed_le l'.
Proof.
  revert l'. induction l as [| y l IH]; intros l'; simpl.
  { intros [= <-] _. repeat constructor. }
  destruct (key_le x.1 y.1) as [[]|] eqn:Hxy; [| | done].
  - intros [= <-] Hs. constructor; [done|]. by constructor.
  - destruct (insert_sorted x l) as [l''|] eqn:Hins; simpl; [|done].
    intros [= <-] Hs. inversion Hs; subst.
    constructor; [by apply IH|].
    eapply insert_sorted_hd; [done..|]. by apply key_le_total.
Qed.

Lemma sort_keyed_sorted l l' : sort_keyed l = Some l' → Sorted keyed_le l'.
Proof.
  revert l'. induction l as [| x l IH]; intros l'; simpl.
  { intros [= <-]. constructor. }
  destruct (sort_keyed l) as [l''|]; simpl; [|done].
  intros H. eapply insert_sorted_sorted; [done|]. by apply IH.
Qed.

Lemma insert_sorted_already x l :
  HdRel keyed_le x l → insert_sorted x l = Some (x :: l).
Proof.
  destruct l as [| y l]; [done|]. intros H. inversion H; subst. simpl.
  unfold keyed_le in *. by rewrite H1.
Qed.

Lemma sort_keyed_already l : Sorted keyed_le l → sort_keyed l = Some l.
Proof.
  induction l as [| x l IH]; [done|]. intros H. inversion H; subst. simpl.
  rewrite IH by done. simpl. by apply insert_sorted_already.
Qed.

Lemma as_sort_key_own v st o st' :
  as_sort_key v st = (inr o, st') → o = own_key v ∧ st' = st.
Proof. destruct v; simpl; intros [= <- <-]; done. Qed.

Lemma as_sort_key_of_own v k st :
  own_key v = Some k → as_sort_key v st = (inr (Some k), st).
Proof. destruct v; simpl; intros [= <-]; done. Qed.

Lemma for_each_as_sort_key l : ∀ st ks st',
  for_each as_sort_key l st = (inr ks, st') → ks = own_key <$> l ∧ st' = st.
Proof.
  induction l as [| v l IH]; intros st ks st' H; simpl in H.
  { by injection H as <- <-. }
  apply bind_inr in H as (o & st1 & Ho & H).
  apply bind_inr in H as (os & st2 & Hos & H).
  injection H as <- <-.
  apply as_sort_key_own in Ho as [-> ->].
  apply IH in Hos as [-> ->]. done.
Qed.

Lemma for_each_as_sort_key_own (l : list (sort_key * pyval)) st :
  Forall (λ p, own_key p.2 = Some p.1) l →
  for_each as_sort_key (l.*2) st = (inr (Some <$> l.*1), st).
Proof.
  induction 1 as [| [k v] l Hkv _ IH]; [done|].
  rewrite !fmap_cons. cbn [for_each fst snd]. simpl in Hkv.
  unfold mbind, M_bind, bind. rewrite (as_sort_key_of_own v k st Hkv), IH. done.
Qed.

Lemma mapM_id_Some {A} (l : list A) : mapM id (Some <$> l) = Some l.
Proof. apply mapM_Some_2. induction l; constructor; done. Qed.

Lemma zip_own_keys (l : list pyval) ks :
  mapM id (own_key <$> l) = Some ks →
  Forall (λ p, own_key p.2 = Some p.1) (zip ks l).
Proof.
  intros H%mapM_Some_1. revert ks H.
  induction l as [| v l IH]; intros ks H; inversion H; subst; simpl; [done|].
  constructor; [done|]. by apply IH.
Qed.

Lemma sorted_values (l : list (sort_key * pyval)) :
  Forall (λ p, own_key p.2 = Some p.1) l →
  Sorted keyed_le l → Sorted value_le (l.*2).
Proof.
  induction 1 as [| [k v] l Hkv Hl IH]; [constructor|].
  intros Hs. inversion Hs; subst. simpl. constructor; [by apply IH|].
  destruct Hl as [| [k' v'] l Hkv' _]; simpl; constructor.
  inversion H2; subst. unfold value_le, keyed_le in *. simpl in *.
  by rewrite Hkv, Hkv'.
Qed.

Lemma py_sorted_of_two_or_more items key st :
  2 ≤ length items →
  py_sorted items key st
  = (keys ← for_each key items;
     ks ← for_each as_sort_key keys;
     match mapM id ks with
     | None => raise (TypeError "ordering not supported between these instances")
     | Some ks =>
         match sort_keyed (zip ks items) with
         | None => raise (TypeError "ordering not supported between these instances")
         | Some sorted => ret (sorted.*2)
         end
     end) st.
Proof. destruct items as [| x [| y items]]; simpl; [lia..|]. reflexivity. Qed.

(** X4: [sorted] as the engine uses it returns a rearrangement of the
    collection, whatever the key function; with [sort: True], where the
    items are their own keys, the outcome is in ascending order and sorting
    it again gives it back unchanged. *)
Theorem sorting_rearranges_in_ascending_order :
  (∀ items key st out st',
     py_sorted items key st = (inr out, st') → out ≡ₚ items)
  ∧ (∀ items st out st',
       py_sorted items (λ x, ret x) st = (inr out, st') →
       Sorted value_le out ∧ py_sorted out (λ x, ret x) st' = (inr out, st')).
Proof.
  split.
  - intros items key st out st' H. unfold py_sorted in H.
    apply bind_inr in H as (keys & st1 & Hkeys & H).
    destruct items as [| x [| y items]]; [by injection H as <- <- ..|].
    apply bind_inr in H as (ks & st2 & Hks & H).
    destruct (mapM id ks) as [ks'|] eqn:Hm; [|done].
    destruct (sort_keyed _) as [sorted|] eqn:Hs; [|done].
    injection H as <- <-.
    apply sort_keyed_perm in Hs. rewrite Hs.
    rewrite snd_zip; [done|].
    apply mapM_Some_1, Forall2_length in Hm.
    apply for_each_length in Hks. apply for_each_length in Hkeys.
    rewrite <- Hm, Hks, Hkeys. done.
  - intros items st out st' H.
    destruct (decide (2 ≤ length items)) as [Hlen|Hlen]; last first.
    { destruct items as [| x [| y items]]; [| |simpl in Hlen; lia];
        unfold py_sorted in H; simpl in H; injection H as <- <-;
        (split; [repeat constructor | reflexivity]). }
    rewrite py_sorted_of_two_or_more in H by done.
    unfold mbind, M_bind in H. unfold bind at 1 in H.
    rewrite for_each_ret in H.
    apply bind_inr in H as (ks & st2 & Hks & H).
    apply for_each_as_sort_key in Hks as [-> ->].
    destruct (mapM id _) as [ks'|] eqn:Hm; [|done].
    destruct (sort_keyed _) as [sorted|] eqn:Hs; [|done].
    injection H as <- <-.
    pose proof (zip_own_keys _ _ Hm) as Hown.
    pose proof (sort_keyed_perm _ _ Hs) as Hperm.
    pose proof (sort_keyed_sorted _ _ Hs) as Hsorted.
    rewrite <- Hperm in Hown.
    split; [by apply sorted_values|].
    assert (length (sorted.*2) = length items) as Hl.
    { rewrite length_fmap, Hperm, length_zip_with_r_eq; [done|].
      apply mapM_Some_1, Forall2_length in Hm.
      by rewrite length_fmap in Hm. }
    rewrite py_sorted_of_two_or_more by lia.
    unfold mbind, M_bind. unfold bind at 1.
    rewrite for_each_ret.
    unfold bind. rewrite (for_each_as_sort_key_own _ _ Hown).
    rewrite mapM_id_Some, zip_fst_snd, (sort_keyed_already _ Hsorted). done.
Qed.

Lemma sorting_rearranges_witness :
  Sorted value_le [VInt 1; VInt 2; VInt 3; VInt 4]
  ∧ py_sorted [VInt 1; VInt 2; VInt 3; VInt 4] (λ x, ret x) initial_state
    = (inr [VInt 1; VInt 2; VInt 3; VInt 4], initial_state).
Proof.
  apply (proj2 sorting_rearranges_in_ascending_order
           [VInt 4; VInt 2; VInt 1; VInt 3] initial_state
           [VInt 1; VInt 2; VInt 3; VInt 4] initial_state);
    vm_compute; reflexivity.
Defined.

(** ** Truncation, washers and converter options *)

Lemma string_take_length n s :
  String.length (string_take n s) = Nat.min n (String.length s).
Proof.
  revert s. induction n as [| n IH]; intros [| c s]; simpl; try done.
  by rewrite IH.
Qed.

Lemma string_take_prefix n s : String.prefix (string_take n s) s = true.
Proof.
  revert s. induction n as [| n IH]; intros [| c s]; simpl; try done.
  destruct (Ascii.ascii_dec c c); [apply IH | done].
Qed.

Lemma string_take_all n s : String.length s ≤ n → string_take n s = s.
Proof.
  revert s. induction n as [| n IH]; intros [| c s]; simpl; try done; [lia|].
  intros H. rewrite IH; [done | lia].
Qed.

Lemma slice_stop_bound len n : slice_stop len n ≤ len.
Proof. unfold slice_stop. destruct (0 <=? n)%Z eqn:H; lia. Qed.

Lemma slice_stop_nonneg len n :
  (0 ≤ n)%Z → slice_stop len n = Nat.min (Z.to_nat n) len.
Proof. intros H%Z.leb_le. unfold slice_stop. by rewrite H. Qed.

Lemma slice_stop_negative len n :
  (n < 0)%Z → slice_stop len n = len - Z.to_nat (- n).
Proof. intros H. unfold slice_stop. rewrite (proj2 (Z.leb_gt _ _) H). lia. Qed.

Lemma truncate_list l n opts st :
  truncate_value (VList l) (VInt n) opts st
  = (inr (VList (take (slice_stop (length l) n) l)), st).
Proof. reflexivity. Qed.

Lemma truncate_string s n opts st :
  truncate_value (VStr s) (VInt n) opts st
  = (inr (VStr (string_take (slice_stop (String.length s) n) s)), st).
Proof. reflexivity. Qed.

(** X5: [max_len] keeps a prefix of a list or a string and never fails on
    them: with a non-negative [max_len] at most that many items, all of them
    when there are fewer, and truncating again changes nothing; with a
    negative [max_len] that many items are dropped from the end. *)
Theorem truncation_keeps_a_prefix (n : Z) opts st :
  (∀ l : list pyval, ∃ out,
     truncate_value (VList l) (VInt n) opts st = (inr (VList out), st)
     ∧ out `prefix_of` l
     ∧ ((0 ≤ n)%Z → length out = Nat.min (Z.to_nat n) (length l)
                    ∧ truncate_value (VList out) (VInt n) opts st
                      = (inr (VList out), st))
     ∧ ((n < 0)%Z → length out = length l - Z.to_nat (- n)))
  ∧ (∀ s : string, ∃ out,
       truncate_value (VStr s) (VInt n) opts st = (inr (VStr out), st)
       ∧ String.prefix out s = true
       ∧ ((0 ≤ n)%Z → String.length out = Nat.min (Z.to_nat n) (String.length s)
                      ∧ truncate_value (VStr out) (VInt n) opts st
                        = (inr (VStr out), st))
       ∧ ((n < 0)%Z → String.length out = String.length s - Z.to_nat (- n))).
Proof.
  split.
  - intros l. exists (take (slice_stop (length l) n) l). split; [reflexivity|].
    split; [apply prefix_take|]. split.
    + intros Hn. rewrite length_take, !slice_stop_nonneg by done.
      split; [lia|].
      rewrite truncate_list, length_take, !slice_stop_nonneg, take_take by done.
      do 4 f_equal. lia.
    + intros Hn. rewrite length_take, slice_stop_negative by done. lia.
  - intros s. exists (string_take (slice_stop (String.length s) n) s).
    split; [reflexivity|].
    split; [apply string_take_prefix|]. split.
    + intros Hn. rewrite string_take_length, !slice_stop_nonneg by done.
      split; [lia|].
      rewrite truncate_string, string_take_length, !slice_stop_nonneg by done.
      rewrite (string_take_all _ (string_take _ s)); [done|].
      rewrite string_take_length. lia.
    + intros Hn. rewrite string_take_length, slice_stop_negative by done. lia.
Qed.

Lemma truncation_keeps_a_prefix_witness :
  ∃ out, truncate_value (VStr "Hello world!") (VInt 10) ∅ initial_state
         = (inr (VStr out), initial_state)
         ∧ String.length out = 10.
Proof.
  destruct (proj2 (truncation_keeps_a_prefix 10 ∅ initial_state) "Hello world!")
    as (out & Hout & _ & Hlen & _).
  exists out. split; [exact Hout|]. exact (proj1 (Hlen ltac:(lia))).
Defined.

(** X6: the washer applied to a value is the first one of the table whose
    type the value is an instance of, and no other washer is called; a
    value that is an instance of none of the types is returned as it is,
    without calling anything. *)
Theorem first_matching_washer_is_applied E self val st :
  (Forall (λ tw, isinstance E val tw.1 = false) (converter_washers (cls self)) →
   wash_result E self val st = (inr val, st))
  ∧ (∀ pre washer_type washer post,
       converter_washers (cls self) = (pre ++ (washer_type, washer) :: post)%list →
       Forall (λ tw, isinstance E val tw.1 = false) pre →
       isinstance E val washer_type = true →
       wash_result E self val st = py_call E washer [val] [] st).
Proof.
  unfold wash_result. split.
  - induction 1 as [| [t w] washers Ht _ IH]; [done|].
    simpl in *. by rewrite Ht.
  - intros pre t w post -> Hpre Ht.
    induction Hpre as [| [t' w'] pre Ht' _ IH]; simpl in *.
    + by rewrite Ht.
    + by rewrite Ht'.
Qed.

Lemma first_matching_washer_witness :
  wash_result example_env
    (instance (ConverterClass "Washing" (Some (TClass "dict")) (Some (TClass "dict"))
                 [] [] None [] [("str", VFunc "double"); ("Number", VFunc "double")]
                 None None ∅ None None None)
       (VDict ∅) None [])
    (VInt 21) initial_state
  = (inr (VInt 42), initial_state).
Proof.
  exact (proj2 (first_matching_washer_is_applied example_env
                  (instance (ConverterClass "Washing" (Some (TClass "dict"))
                               (Some (TClass "dict")) [] [] None []
                               [("str", VFunc "double"); ("Number", VFunc "double")]
                               None None ∅ None None None)
                     (VDict ∅) None [])
                  (VInt 21) initial_state)
           [("str", VFunc "double")] "Number" (VFunc "double") [] eq_refl
           ltac:(repeat constructor) eq_refl).
Defined.

Lemma merge_lookup (obj source : dict) (k : string) :
  merge obj source !! k
  = match obj !! k, source !! k with
    | Some obj_value, Some src_value => Some (merge_value obj_value src_value)
    | Some obj_value, None => Some obj_value
    | None, src_value => src_value
    end.
Proof.
  unfold merge. rewrite lookup_union_with.
  by destruct (obj !! k), (source !! k).
Qed.

Lemma merged_options_skip chain (k : string) : ∀ base : dict,
  Forall (λ d : dict, d !! k = None) chain →
  foldl merge base chain !! k = base !! k.
Proof.
  induction chain as [| d chain IH]; intros base H; [done|].
  inversion H; subst. simpl. rewrite IH by done.
  rewrite merge_lookup, H2. by destruct (base !! k).
Qed.

(** X7: the options of a converter are those of [Converter] merged with
    those of the subclass chain, base first.  For a key, the most derived
    class that sets it decides: its value replaces the inherited one,
    except that two dictionaries (or two lists) are merged into one
    another, so that the keys of the inherited dictionary that the subclass
    does not set survive.  A key that no subclass sets keeps the default of
    [Converter], and each of the six keys of [Converter] is always there. *)
Theorem most_derived_option_wins c (k : string) :
  (∀ pre (d : dict) post v,
     converter_options c = (pre ++ d :: post)%list →
     d !! k = Some v →
     Forall (λ d' : dict, d' !! k = None) post →
     converter_option c k
     = match foldl merge Converter_converter_options pre !! k with
       | Some inherited => merge_value inherited v
       | None => v
       end)
  ∧ (∀ inherited v,
       is_mergeable inherited && is_mergeable v = false →
       merge_value inherited v = v)
  ∧ (∀ (inherited own : dict) j,
       merge_value (VDict inherited) (VDict own) = VDict (merge inherited own)
       ∧ (own !! j = None → merge inherited own !! j = inherited !! j)
       ∧ (inherited !! j = None → merge inherited own !! j = own !! j))
  ∧ (Forall (λ d : dict, d !! k = None) (converter_options c) →
     converter_option c k = dict_get Converter_converter_options k VNone)
  ∧ (k ∈ ["convert_nones_to_blanks"; "include_nones"; "include_empty_strings";
          "pass_attrs_to_init"; "merge_all"; "copy_only"] →
     is_Some (_resolved_converter_options c !! k)).
Proof.
  unfold converter_option, _resolved_converter_options, dict_get.
  split; [|split; [|split; [|split]]].
  - intros pre d post v -> Hd Hpost.
    rewrite foldl_app. simpl. rewrite merged_options_skip by done.
    rewrite merge_lookup, Hd.
    by destruct (foldl merge Converter_converter_options pre !! k).
  - intros inherited v H. by destruct inherited, v.
  - intros inherited own j. split; [reflexivity|].
    rewrite merge_lookup. split; intros ->; by destruct (_ !! j).
  - intros H. by rewrite merged_options_skip.
  - intros Hk.
    assert (is_Some (Converter_converter_options !! k)) as Hbase.
    { repeat (apply elem_of_cons in Hk as [-> | Hk]; [by eexists|]).
      by apply elem_of_nil in Hk. }
    revert Hbase. generalize Converter_converter_options.
    induction (converter_options c) as [| d chain IH]; intros base Hbase; [done|].
    simpl. apply IH. rewrite merge_lookup.
    destruct (d !! k), Hbase as [? ->]; by eexists.
Qed.

Lemma most_derived_option_witness :
  converter_option
    (ConverterClass "MySubclass1Converter" (Some (TClass "dict")) (Some (TClass "dict"))
       [] [] None
       [ {[ "convert_nones_to_blanks" := VBool true;
            "extra_dtypes" := VDict {[ "a" := VInt 1 ]} ]};
         {[ "extra_dtypes" := VDict {[ "b" := VInt 2 ]} ]} ]
       [] None None ∅ None None None)
    "extra_dtypes"
  = VDict {[ "a" := VInt 1; "b" := VInt 2 ]}.
Proof.
  etransitivity;
    [exact (proj1 (most_derived_option_wins
                     (ConverterClass "MySubclass1Converter" (Some (TClass "dict"))
                        (Some (TClass "dict")) [] [] None
                        [ {[ "convert_nones_to_blanks" := VBool true;
                             "extra_dtypes" := VDict {[ "a" := VInt 1 ]} ]};
                          {[ "extra_dtypes" := VDict {[ "b" := VInt 2 ]} ]} ]
                        [] None None ∅ None None None)
                     "extra_dtypes")
              [ {[ "convert_nones_to_blanks" := VBool true;
                   "extra_dtypes" := VDict {[ "a" := VInt 1 ]} ]} ]
              {[ "extra_dtypes" := VDict {[ "b" := VInt 2 ]} ]} []
              (VDict {[ "b" := VInt 2 ]})
              eq_refl eq_refl ltac:(constructor))
    | vm_compute; reflexivity].
Defined.

(** ** Resolving a value *)

Lemma get_NOS (ctx : dict) st :
  get (VDict ctx) NOS VSentry st = (inr (default VSentry (ctx !! NOS)), st).
Proof.
  unfold get, to_path.
  replace (string_mem "["%char NOS || string_mem "\"%char NOS) with false
    by (vm_compute; reflexivity).
  replace (string_mem "."%char NOS) with false by (vm_compute; reflexivity).
  unfold mbind, M_bind, bind, ret. simpl. by destruct (ctx !! NOS).
Qed.

(** X8: a rule whose source is [NOS] never reads the source: no getter is
    called, neither the adapter's nor one given in the options, and the raw
    value is what the context holds under that very name, the omit
    sentinel when it holds nothing; without a default and an override the
    rule then resolves to the omit sentinel. *)
Theorem rule_not_on_source_reads_no_source E self inst (opts : dict) st :
  truthy (dict_get opts "pass_instance_to_converter" (VBool false)) = false →
  _get_value_raw E self inst NOS opts st
  = (inr (default VSentry (observed st !! NOS)), st)
  ∧ (opts !! "_kwarg_override" = None → opts !! "default" = None →
     observed st !! NOS = None →
     _get_value E self inst NOS opts st = (inr VSentry, st)).
Proof.
  intros Hpass.
  assert (_get_value_raw E self inst NOS opts st
          = (inr (default VSentry (observed st !! NOS)), st)) as Hraw.
  { unfold _get_value_raw. rewrite Hpass, String.eqb_refl.
    unfold mbind, M_bind, bind. simpl. unfold context. simpl.
    apply get_NOS. }
  split; [done|].
  intros Hover Hdef Hctx. unfold _get_value.
  rewrite (dict_get_absent opts "_kwarg_override") by done. simpl.
  unfold mbind, M_bind, bind. rewrite Hraw, Hctx. simpl.
  by rewrite (dict_get_absent opts "default").
Qed.

Lemma rule_not_on_source_witness :
  _get_value plain_env (instance Plain (VDict {[ "x" := VInt 5 ]}) None []) VSentry
    NOS {[ "getter" := VFunc "getter" ]} initial_state
  = (inr VSentry, initial_state).
Proof.
  exact (proj2 (rule_not_on_source_reads_no_source plain_env
                  (instance Plain (VDict {[ "x" := VInt 5 ]}) None []) VSentry
                  {[ "getter" := VFunc "getter" ]} initial_state eq_refl)
           eq_refl eq_refl eq_refl).
Defined.

(** X9: with [pluralize], and when no default takes the place of the value,
    a value found on the source or in the context comes out as a
    collection: a collection as it is, anything else, [None] included,
    wrapped in a one-element list. *)
Theorem pluralize_gives_a_collection E self inst from_attr (opts : dict) v st st' :
  dict_get opts "_kwarg_override" VNone = VNone →
  truthy (dict_get opts "pluralize" (VBool false)) = true →
  _get_value_raw E self inst from_attr opts st = (inr v, st') →
  is_sentry v = false →
  opts !! "default" = None ∨ is_none v || is_empty_str v = false →
  _get_value E self inst from_attr opts st
  = (inr (if val_is_collection v then v else VList [v]), st')
  ∧ val_is_collection (if val_is_collection v then v else VList [v]) = true.
Proof.
  intros Hover Hplural Hraw Hsentry Hdefault. split.
  - unfold _get_value. rewrite Hover. simpl.
    unfold mbind, M_bind, bind. rewrite Hraw, Hplural, Hsentry. simpl.
    destruct Hdefault as [Hd | Hv].
    + rewrite (dict_get_absent opts "default") by done. simpl.
      rewrite ?andb_false_r.
      destruct (is_none v || is_empty_str v), (val_is_collection v); done.
    + rewrite Hv. by destruct (val_is_collection v).
  - by destruct (val_is_collection v) eqn:Hc.
Qed.

Lemma pluralize_gives_a_collection_witness :
  _get_value example_env
    (instance Plain (VDict {[ "x" := VDict {[ "some" := VStr "dict" ]} ]}) None [])
    VSentry "x" {[ "pluralize" := VBool true ]} initial_state
  = (inr (VList [VDict {[ "some" := VStr "dict" ]}]), initial_state).
Proof.
  exact (proj1 (pluralize_gives_a_collection example_env
                  (instance Plain (VDict {[ "x" := VDict {[ "some" := VStr "dict" ]} ]})
                     None [])
                  VSentry "x" {[ "pluralize" := VBool true ]}
                  (VDict {[ "some" := VStr "dict" ]}) initial_state initial_state
                  eq_refl eq_refl eq_refl eq_refl (or_introl eq_refl))).
Defined.

(** ** Converting a child value *)

(** X10: with a converter and no filter, a [None] value is returned as
    [None] and nothing is called, unless [converter_wants_nones] is set;
    this holds whatever the converter is, even one that could not be
    resolved. *)
Theorem none_bypasses_the_converter E sub self to_attr (opts : dict) c inst st :
  opts !! "filter" = None →
  opts !! "converter" = Some c →
  is_sentry c = false →
  truthy (dict_get opts "converter_wants_nones" (VBool false)) = false →
  _convert_child E sub self to_attr opts VNone inst st = (inr VNone, st).
Proof.
  intros Hf Hc Hs Hw. unfold _convert_child.
  rewrite (dict_get_absent opts "filter") by done.
  unfold dict_get at 1. rewrite Hc. simpl. rewrite Hs, Hw.
  rewrite andb_false_r. simpl. unfold mbind, M_bind, bind. simpl. done.
Qed.

Lemma none_bypasses_the_converter_witness :
  _convert_child plain_env (fun _ _ _ _ _ => raise RecursionError)
    (instance Plain (VDict ∅) None []) "x" {[ "converter" := VInt 5 ]}
    VNone VSentry initial_state
  = (inr VNone, initial_state).
Proof.
  exact (none_bypasses_the_converter plain_env (fun _ _ _ _ _ => raise RecursionError)
           (instance Plain (VDict ∅) None []) "x" {[ "converter" := VInt 5 ]}
           (VInt 5) VSentry initial_state eq_refl eq_refl eq_refl eq_refl).
Defined.

Lemma dict_get_present (o : dict) k v d : o !! k = Some v → dict_get o k d = v.
Proof. intros H. unfold dict_get. by rewrite H. Qed.

(** X11: a converter that is a plain callable, on a rule without filter,
    reverse attribute or merge, is applied to every item of a collection in
    order, the items for which it returns the omit sentinel being left out;
    with [map] off, or on a value that is not a collection and not [None],
    it is applied once to the whole value. *)
Theorem callable_converter_is_mapped_over_a_collection
    E sub self to_attr (opts : dict) f val inst st :
  opts !! "filter" = None →
  opts !! "converter" = Some f →
  is_callable f = true →
  is_converter_class E f = None →
  opts !! "reverse_attr_name" = None →
  _attr_should_be_merged self opts = false →
  (truthy (dict_get opts "map" (VBool true)) = true →
   ∀ items, val = VList items →
     _convert_child E sub self to_attr opts val inst st
     = (results ← for_each (λ val_, py_call E f [val_] []) items;
        ret (VList (filter (λ subval, negb (is_sentry subval)) results))) st)
  ∧ (truthy (dict_get opts "map" (VBool true)) && val_is_collection val = false →
     is_none val = false →
     "inst" ∉ parameters E f →
     _convert_child E sub self to_attr opts val inst st = py_call E f [val] [] st).
Proof.
  intros Hf Hc Hcall Hclass Hrev Hmerge.
  assert (is_sentry f = false) as Hs by (by destruct f).
  split.
  - intros Hmap items ->. unfold _convert_child.
    rewrite (dict_get_absent opts "filter"), (dict_get_absent opts "reverse_attr_name")
      by done.
    rewrite !(dict_get_present opts "converter" f) by done.
    simpl. rewrite Hs, Hmap, Hmerge. simpl.
    unfold mbind, M_bind, bind. simpl.
    destruct f; try done; simpl in Hclass |- *; rewrite ?Hclass; simpl;
      rewrite andb_false_r; reflexivity.
  - intros Hmap Hnone Hinst. unfold _convert_child.
    rewrite (dict_get_absent opts "filter"), (dict_get_absent opts "reverse_attr_name")
      by done.
    rewrite !(dict_get_present opts "converter" f) by done.
    simpl. rewrite Hs, Hmap, Hmerge, Hnone. simpl.
    unfold mbind, M_bind, bind. simpl.
    destruct f as [| | | | | | |f|c|]; try done;
      simpl in Hclass |- *; rewrite ?Hclass; simpl;
      rewrite andb_false_r, (bool_decide_eq_false_2 _ Hinst), ?andb_false_r;
      simpl; [reflexivity | by destruct c].
Qed.

Lemma callable_converter_is_mapped_witness :
  _convert_child example_env (fun _ _ _ _ _ => raise RecursionError)
    (instance Plain (VDict ∅) None []) "x" {[ "converter" := VFunc "double" ]}
    (VList [VInt 1; VInt 2]) VSentry initial_state
  = (inr (VList [VInt 2; VInt 4]), initial_state)
  ∧ _convert_child example_env (fun _ _ _ _ _ => raise RecursionError)
      (instance Plain (VDict ∅) None []) "x" {[ "converter" := VFunc "double" ]}
      (VInt 21) VSentry initial_state
    = (inr (VInt 42), initial_state).
Proof.
  pose proof (callable_converter_is_mapped_over_a_collection example_env
                (fun _ _ _ _ _ => raise RecursionError)
                (instance Plain (VDict ∅) None []) "x"
                {[ "converter" := VFunc "double" ]} (VFunc "double")) as H.
  split.
  - etransitivity;
      [exact (proj1 (H (VList [VInt 1; VInt 2]) VSentry initial_state
                       eq_refl eq_refl eq_refl eq_refl eq_refl eq_refl)
                eq_refl [VInt 1; VInt 2] eq_refl)
      | vm_compute; reflexivity].
  - etransitivity;
      [refine (proj2 (H (VInt 21) VSentry initial_state
                       eq_refl eq_refl eq_refl eq_refl eq_refl eq_refl)
                eq_refl eq_refl _);
       apply (bool_decide_eq_false_1 _); reflexivity
      | vm_compute; reflexivity].
Defined.

(** X12: a converter given by the name of a callable attribute of the
    converter class is that attribute: the rule behaves as if the options
    held the method itself, and the registry of named converters is not
    consulted. *)
Theorem converter_named_after_a_method
    E sub self to_attr (opts : dict) name m val inst st :
  opts !! "converter" = Some (VStr name) →
  methods (cls self) !! name = Some m →
  is_callable m = true →
  _convert_child E sub self to_attr opts val inst st
  = _convert_child E sub self to_attr (<["converter" := m]> opts) val inst st.
Proof.
  intros Hc Hm Hcall. unfold _convert_child, _attr_should_be_merged.
  other_keys. rewrite !dict_get_insert_eq.
  rewrite !(dict_get_present opts "converter" (VStr name)) by done.
  assert (is_sentry m = false) as Hs by (by destruct m).
  rewrite Hs. cbn [is_sentry andb].
  unfold mbind, M_bind, bind.
  match goal with
  | |- (let (_, _) := ?x in _) = _ => destruct x as [[e|included] st1]
  end; [reflexivity|].
  destruct (negb included); [reflexivity|].
  destruct (is_none val && _); [reflexivity|].
  rewrite Hm. change (default VNone (Some m)) with m. rewrite Hcall.
  destruct m; try discriminate; reflexivity.
Qed.

Lemma converter_named_after_a_method_witness :
  _convert_child example_env (fun _ _ _ _ _ => raise RecursionError)
    (instance (ConverterClass "WithMethod" (Some (TClass "dict")) (Some (TClass "dict"))
                 [] [] None [] [] None None {[ "twice" := VFunc "double" ]}
                 None None None)
       (VDict ∅) None [])
    "x" {[ "converter" := VStr "twice" ]} (VInt 21) VSentry initial_state
  = (inr (VInt 42), initial_state).
Proof.
  etransitivity;
    [exact (converter_named_after_a_method example_env
              (fun _ _ _ _ _ => raise RecursionError)
              (instance (ConverterClass "WithMethod" (Some (TClass "dict"))
                           (Some (TClass "dict"))
                           [] [] None [] [] None None {[ "twice" := VFunc "double" ]}
                           None None None)
                 (VDict ∅) None [])
              "x" {[ "converter" := VStr "twice" ]} "twice" (VFunc "double")
              (VInt 21) VSentry initial_state eq_refl eq_refl eq_refl)
    | vm_compute; reflexivity].
Defined.

(** X13: a converter option that is neither a name, a callable nor a
    [Converter] subclass makes the rule fail with a [TypeError] as soon as
    there is a value to convert, whatever the value is. *)
Theorem unusable_converter_is_a_type_error
    E sub self to_attr (opts : dict) c val inst st :
  opts !! "filter" = None →
  opts !! "converter" = Some c →
  is_sentry c = false →
  is_str c = false →
  is_callable c = false →
  is_none val && negb (truthy (dict_get opts "converter_wants_nones" (VBool false)))
  = false →
  _convert_child E sub self to_attr opts val inst st
  = (inl (TypeError "Unexpected type of subconverter"), st).
Proof.
  intros Hf Hc Hs Hstr Hcall Hnone. unfold _convert_child.
  rewrite (dict_get_absent opts "filter") by done.
  rewrite !(dict_get_present opts "converter" c) by done.
  rewrite Hs, Hnone. cbn [is_sentry negb andb].
  rewrite andb_false_r. unfold mbind, M_bind, bind. simpl.
  destruct c; try discriminate; reflexivity.
Qed.

Lemma unusable_converter_witness :
  _convert_child plain_env (fun _ _ _ _ _ => raise RecursionError)
    (instance Plain (VDict ∅) None []) "x" {[ "converter" := VInt 5 ]}
    (VStr "value") VSentry initial_state
  = (inl (TypeError "Unexpected type of subconverter"), initial_state).
Proof.
  exact (unusable_converter_is_a_type_error plain_env
           (fun _ _ _ _ _ => raise RecursionError)
           (instance Plain (VDict ∅) None []) "x" {[ "converter" := VInt 5 ]}
           (VInt 5) (VStr "value") VSentry initial_state
           eq_refl eq_refl eq_refl eq_refl eq_refl eq_refl).
Defined.

(** ** Compound converters *)

Lemma for_fold_app {A B} (f : B → A → M B) (l1 l2 : list A) (b : B) st :
  for_fold f (l1 ++ l2)%list b st = (b' ← for_fold f l1 b; for_fold f l2 b') st.
Proof.
  revert b st. induction l1 as [| a l1 IH]; intros b st; [reflexivity|].
  simpl. unfold mbind, M_bind, bind in *.
  destruct (f b a st) as [[e|b'] st1]; [reflexivity|]. apply IH.
Qed.

(** X14: a compound converter applies its converters one after the
    other, left to right, each to the result of the one before and all
    with the keyword arguments of the call: a converter that is not a
    [Converter] subclass is called on the running result; a [Converter]
    subclass is constructed on it (with the [dest] keyword as destination
    and the other keywords as extra attributes) and converted.  So the
    compound of no converter returns its value unchanged, the compound of
    two lists is the compound of the first followed by the compound of the
    second, and a converter that raises ends the chain, the later ones not
    being run. *)
Theorem compound_converter_composes E class_convert :
  (∀ val kw st,
     create_compound_converter E class_convert [] val kw st = (inr val, st))
  ∧ (∀ conv converters val kw st,
       is_converter_class E conv = None →
       create_compound_converter E class_convert (conv :: converters) val kw st
       = (result ← py_call E conv [val] kw;
          create_compound_converter E class_convert converters result kw) st)
  ∧ (∀ cname c converters val kw st,
       converter_classes E !! cname = Some c →
       kwarg kw "context" = None →
       kwarg kw "_extra" = None →
       create_compound_converter E class_convert (VClass cname :: converters) val kw st
       = (result ← class_convert c val None (default VNone (kwarg kw "dest")) ∅
                     (filter (fun kv => kv.1 ∉ ["context"; "dest"; "_extra"]) kw);
          create_compound_converter E class_convert converters result kw) st)
  ∧ (∀ cs1 cs2 val kw st,
       create_compound_converter E class_convert (cs1 ++ cs2)%list val kw st
       = (result ← create_compound_converter E class_convert cs1 val kw;
          create_compound_converter E class_convert cs2 result kw) st)
  ∧ (∀ cs1 cs2 val kw st e st',
       create_compound_converter E class_convert cs1 val kw st = (inl e, st') →
       create_compound_converter E class_convert (cs1 ++ cs2)%list val kw st
       = (inl e, st')).
Proof.
  assert (∀ cs1 cs2 val kw st,
            create_compound_converter E class_convert (cs1 ++ cs2)%list val kw st
            = (result ← create_compound_converter E class_convert cs1 val kw;
               create_compound_converter E class_convert cs2 result kw) st) as Happ.
  { intros. apply for_fold_app. }
  split; [reflexivity|]. split; [|split; [|split]].
  - intros conv converters val kw st Hconv.
    unfold create_compound_converter. cbn [for_fold]. by rewrite Hconv.
  - intros cname c converters val kw st Hc Hctx Hextra.
    unfold create_compound_converter. cbn [for_fold].
    unfold is_converter_class. rewrite Hc, Hctx, Hextra.
    unfold mbind, M_bind, bind. reflexivity.
  - exact Happ.
  - intros cs1 cs2 val kw st e st' He. rewrite Happ.
    unfold mbind, M_bind, bind. by rewrite He.
Qed.

Lemma compound_converter_composes_witness :
  create_compound_converter example_env (convert_to_depth example_env 3)
    [VFunc "double"; VFunc "bigger_than_ten"] (VInt 6) [] initial_state
  = (inr (VBool true), initial_state)
  ∧ create_compound_converter example_env (convert_to_depth example_env 3)
      ([VFunc "bigger_than_ten"] ++ [VFunc "double"])%list (VStr "x") [] initial_state
    = (inl (TypeError "'>' not supported between these instances"), initial_state).
Proof.
  pose proof (compound_converter_composes example_env
                (convert_to_depth example_env 3)) as (_ & Hone & _ & _ & Hraise).
  split.
  - etransitivity;
      [exact (Hone (VFunc "double") [VFunc "bigger_than_ten"] (VInt 6) []
                initial_state eq_refl)
      | vm_compute; reflexivity].
  - exact (Hraise [VFunc "bigger_than_ten"] [VFunc "double"] (VStr "x") []
             initial_state
             (TypeError "'>' not supported between these instances") initial_state
             eq_refl).
Defined.

(** ** What construction establishes *)

Lemma default_allowed_admissible o : default_allowed o = default_is_admissible o.
Proof.
  unfold default_allowed, default_is_admissible, dict_get.
  by destruct (o !! "default").
Qed.

Lemma triple_single E cls a b c st r st' :
  normalize_single_copy_attr E cls (VList [a; b; c]) st = (inr r, st') →
  ∃ d s, r.1.1 = VStr d ∧ d ≠ "" ∧ r.1.2 = VStr s.
Proof.
  unfold normalize_single_copy_attr. simpl. unfold_monad. simpl.
  destruct (truthy a) eqn:Ht; simpl.
  - destruct a as [| | | | d | | | | |]; simpl; try done.
    apply negb_true_iff, String.eqb_neq in Ht.
    destruct b as [| | | | s | | | | |]; simpl; try done.
    intros H. exists d, s. repeat case_match; simplify_eq; done.
  - destruct b as [| | | | s | | | | |]; simpl; try done.
    intros H. exists ("-not-on-dest-" +:+ pretty (counter st)), s.
    repeat case_match; simplify_eq; done.
Qed.

Lemma triples_pass E cls rules : ∀ st out st',
  forallb is_triple rules = true →
  normalize_copy_attrs E cls rules st = (inr out, st') →
  forallb is_named out = true.
Proof.
  unfold normalize_copy_attrs.
  induction rules as [| raw rules IH]; intros st out st' Ht H; simpl in H.
  { by injection H as <- <-. }
  simpl in Ht. apply andb_true_iff in Ht as [Hraw Hrules].
  apply bind_inr in H as (r & st1 & Hr & H).
  apply bind_inr in H as (outs & st2 & Houts & H).
  injection H as <- <-.
  apply bind_inr in Hr as (r0 & st0 & Hsingle & Hcheck).
  simpl. rewrite (IH _ _ _ Hrules Houts), andb_true_r.
  destruct raw as [| | | | | l | | | |]; try done.
  destruct l as [| a [| b [| c [|]]]]; try done.
  apply triple_single in Hsingle as (d & s & Hd & Hne & Hs).
  destruct r0 as [[d0 s0] o]. simpl in Hd, Hs. subst d0 s0.
  destruct o; try done.
  rewrite check_default_allowed in Hcheck.
  destruct (default_allowed _); simplify_eq. simpl.
  by apply negb_true_iff, String.eqb_neq.
Qed.

Lemma rule_tuple_is_triple rules : forallb is_triple (map rule_tuple rules) = true.
Proof. induction rules as [| [[d s] o] rules IH]; simpl; done. Qed.

Lemma additional_is_triple (l : list (string * pyval)) :
  forallb is_triple
    (map (fun kv => VList [VStr kv.1; VStr NOS; VDict {[ "default" := kv.2 ]}]) l)
  = true.
Proof. induction l as [| kv l IH]; [done|]. exact IH. Qed.

(** X15: construction establishes the shape of the rules the rest of the
    conversion relies on: in every converter [__init__] returns, each
    normalised rule has a non-empty string as its destination and a string
    as its source, and options whose [default], if any, is a callable, a
    number or a string; so taking a rule apart never fails. *)
Theorem constructed_rules_are_named
    E c source context dest _extra extra_attrs st self st' :
  __init__ E c source context dest _extra extra_attrs st = (inr self, st') →
  forallb is_named (_normalized_attrs self) = true
  ∧ forallb (λ r, default_is_admissible r.2) (_normalized_attrs self) = true
  ∧ ∀ r, r ∈ _normalized_attrs self →
      ∃ to_attr from_attr, ∀ st0,
        rule_names r st0 = (inr (to_attr, from_attr, r.2), st0).
Proof.
  unfold __init__. intros H.
  repeat (case_match; [discriminate H|]).
  apply (bind_inr (_normalized_dynamic_copy_attrs E _)) in H
    as (attrs & st1 & Hattrs & H).
  injection H as <- <-. simpl.
  unfold _normalized_dynamic_copy_attrs in Hattrs.
  apply bind_inr in Hattrs as (raw & st2 & Hraw & Hnorm).
  unfold dynamic_copy_attrs in Hraw.
  apply bind_inr in Hraw as (first & st3 & Hfirst & Hraw).
  injection Hraw as <- <-.
  assert (forallb is_named attrs = true) as Hnamed.
  { eapply triples_pass; [|exact Hnorm].
    rewrite forallb_app, rule_tuple_is_triple. apply additional_is_triple. }
  split; [done|]. split.
  - apply pass_defaults_allowed in Hnorm. clear -Hnorm.
    induction attrs as [| r attrs IH]; [done|]. simpl in *.
    apply andb_true_iff in Hnorm as [Hr Hrest].
    by rewrite <- default_allowed_admissible, Hr, IH.
  - intros r Hr.
    rewrite forallb_forall in Hnamed. apply list_elem_of_In, Hnamed in Hr.
    destruct r as [[d s] o]. destruct d; try done. destruct s; try done.
    by eexists _, _.
Qed.

Lemma constructed_rules_are_named_witness :
  forallb is_named
    (_normalized_attrs
       (Self MyConverter (VDict ∅) VNone [] true ∅ None
          [(VStr "a", VStr "a", ∅);
           (VStr "b", VStr "a", ∅);
           (VStr "c", VStr NOS, {[ "default" := VStr "a default" ]});
           (VStr "d", VStr "a", {[ "converter" := VFunc "double" ]});
           (VStr "e", VStr NOS, {[ "default" := VClass "dict" ]})]))
  = true.
Proof.
  refine (proj1 (constructed_rules_are_named example_env MyConverter (VDict ∅) None
                   VNone ∅ [] initial_state _ initial_state _)).
  vm_compute. reflexivity.
Defined.

(** ** Keyword arguments of a conversion *)

Lemma first_rule_for_app k rules rules' :
  first_rule_for k (rules ++ rules')%list
  = match first_rule_for k rules with
    | Some r => Some r
    | None => first_rule_for k rules'
    end.
Proof.
  unfold first_rule_for. induction rules as [| a rules IH]; [done|]. simpl.
  by destruct (match a.1.1 with VStr d => (d =? k)%string | _ => false end).
Qed.

Lemma stash_override_found attrs k v :
  match stash_override attrs k v with
  | Some attrs' =>
      (∃ d s o, first_rule_for k attrs = Some (d, s, o)
                ∧ first_rule_for k attrs' = Some (d, s, <["_kwarg_override" := v]> o))
      ∧ ∀ k', k' ≠ k → first_rule_for k' attrs' = first_rule_for k' attrs
  | None => first_rule_for k attrs = None
  end.
Proof.
  unfold first_rule_for.
  induction attrs as [| [[d s] o] attrs IH]; simpl; [done|].
  destruct (match d with VStr d0 => (d0 =? k)%string | _ => false end) eqn:Hd.
  - simpl. rewrite Hd. split; [by exists d, s, o|].
    intros k' Hk'. simpl.
    destruct d as [| | | | d0 | | | | |]; try done.
    apply String.eqb_eq in Hd as ->.
    apply String.eqb_neq in Hk'. rewrite String.eqb_sym in Hk'. by rewrite Hk'.
  - destruct (stash_override attrs k v) as [attrs'|]; simpl; [|by rewrite ?Hd].
    rewrite Hd. destruct IH as [IH1 IH2]. split; [done|].
    intros k' Hk'. simpl.
    destruct (match d with VStr d0 => (d0 =? k')%string | _ => false end); [done|].
    by apply IH2.
Qed.

Lemma overrides_are_stashed (kws : kwargs) : ∀ rules,
  NoDup kws.*1 →
  let rules' :=
    foldl (fun attrs kv =>
             match stash_override attrs kv.1 kv.2 with
             | Some attrs' => attrs'
             | None => (attrs ++ [(VStr kv.1, VStr NOS, {[ "_kwarg_override" := kv.2 ]})])%list
             end) rules kws in
  (∀ k v, (k, v) ∈ kws →
     first_rule_for k rules'
     = Some (match first_rule_for k rules with
             | Some (d, s, o) => (d, s, <["_kwarg_override" := v]> o)
             | None => (VStr k, VStr NOS, {[ "_kwarg_override" := v ]})
             end))
  ∧ (∀ k, k ∉ kws.*1 → first_rule_for k rules' = first_rule_for k rules).
Proof.
  induction kws as [| [k0 v0] kws IH]; intros rules Hnodup; simpl.
  { split; [|done]. intros k v Hin. by apply elem_of_nil in Hin. }
  simpl in Hnodup. apply NoDup_cons in Hnodup as [Hk0 Hnodup].
  pose proof (stash_override_found rules k0 v0) as Hstep.
  set (rules1 := match stash_override rules k0 v0 with
                 | Some attrs' => attrs'
                 | None => (rules ++ [(VStr k0, VStr NOS, {[ "_kwarg_override" := v0 ]})])%list
                 end) in *.
  assert (first_rule_for k0 rules1
          = Some (match first_rule_for k0 rules with
                  | Some (d, s, o) => (d, s, <["_kwarg_override" := v0]> o)
                  | None => (VStr k0, VStr NOS, {[ "_kwarg_override" := v0 ]})
                  end)
          ∧ ∀ k', k' ≠ k0 → first_rule_for k' rules1 = first_rule_for k' rules)
    as [Hown Hothers].
  { subst rules1. destruct (stash_override rules k0 v0) as [attrs'|].
    - destruct Hstep as [(d & s & o & Hwas & Hfound) Hrest]. split; [|done].
      by rewrite Hfound, Hwas.
    - split.
      + rewrite first_rule_for_app, Hstep. unfold first_rule_for. simpl.
        by rewrite String.eqb_refl.
      + intros k' Hk'. rewrite first_rule_for_app.
        destruct (first_rule_for k' rules); [done|].
        unfold first_rule_for. simpl.
        apply String.eqb_neq in Hk'. rewrite String.eqb_sym in Hk'. by rewrite Hk'. }
  destruct (IH rules1 Hnodup) as [IHin IHout]. split.
  - intros k v [Heq | Hin]%elem_of_cons.
    + injection Heq as -> ->. rewrite IHout by done. exact Hown.
    + rewrite (IHin k v Hin). rewrite Hothers; [done|].
      intros ->. apply Hk0. apply list_elem_of_fmap. by exists (k0, v).
  - intros k Hk. apply not_elem_of_cons in Hk as [Hne Hk].
    rewrite IHout by done. by apply Hothers.
Qed.

(** X16: for a class whose rules do not share an options dictionary,
    [dynamic_copy_attrs] gives every keyword argument of the conversion to
    the first rule whose destination has its name: that rule keeps its
    destination, its source and its options and gets the value as
    [_kwarg_override]; when the class has no rule for the name, the rule
    (name, [NOS], [{_kwarg_override: value}]) is appended.  The first rule
    for every other destination is the one of the class, and the
    additional attributes of the class follow, untouched. *)
Theorem keyword_arguments_become_overrides E self st out st' :
  NoDup (omap given_options (conversions (cls self))) →
  NoDup (extra_attrs self).*1 →
  dynamic_copy_attrs E self st = (inr out, st') →
  ∃ rules rules',
    normalize_copy_attrs E (cls self) (conversions (cls self)) st = (inr rules, st')
    ∧ out = (map rule_tuple rules' ++ additional_rules (cls self))%list
    ∧ (∀ k v, (k, v) ∈ extra_attrs self →
         first_rule_for k rules'
         = Some (match first_rule_for k rules with
                 | Some (to_attr, from_attr, opts) =>
                     (to_attr, from_attr, <["_kwarg_override" := v]> opts)
                 | None => (VStr k, VStr NOS, {[ "_kwarg_override" := v ]})
                 end))
    ∧ (∀ k, k ∉ (extra_attrs self).*1 →
         first_rule_for k rules' = first_rule_for k rules).
Proof.
  intros _ Hnodup H. unfold dynamic_copy_attrs in H.
  apply bind_inr in H as (rules & st1 & Hrules & H).
  injection H as <- <-.
  exists rules. eexists. split; [exact Hrules|]. split; [reflexivity|].
  exact (overrides_are_stashed (extra_attrs self) rules Hnodup).
Qed.

Lemma keyword_arguments_become_overrides_witness :
  ∃ rules rules',
    normalize_copy_attrs plain_env
      (dict_converter "Keywords" [VList [VStr "x"; VStr "a"; VDict {[ "max_len" := VInt 3 ]}]])
      [VList [VStr "x"; VStr "a"; VDict {[ "max_len" := VInt 3 ]}]] initial_state
    = (inr rules, initial_state)
    ∧ [VList [VStr "x"; VStr "a";
              VDict {[ "_kwarg_override" := VInt 1; "max_len" := VInt 3 ]}];
       VList [VStr "y"; VStr NOS; VDict {[ "_kwarg_override" := VInt 2 ]}]]
      = (map rule_tuple rules'
         ++ additional_rules
              (dict_converter "Keywords"
                 [VList [VStr "x"; VStr "a"; VDict {[ "max_len" := VInt 3 ]}]]))%list
    ∧ (∀ k v, (k, v) ∈ [("x", VInt 1); ("y", VInt 2)] →
         first_rule_for k rules'
         = Some (match first_rule_for k rules with
                 | Some (to_attr, from_attr, opts) =>
                     (to_attr, from_attr, <["_kwarg_override" := v]> opts)
                 | None => (VStr k, VStr NOS, {[ "_kwarg_override" := v ]})
                 end))
    ∧ (∀ k, k ∉ ["x"; "y"] → first_rule_for k rules' = first_rule_for k rules).
Proof.
  refine (keyword_arguments_become_overrides plain_env
            (Self (dict_converter "Keywords"
                     [VList [VStr "x"; VStr "a"; VDict {[ "max_len" := VInt 3 ]}]])
               (VDict ∅) VNone [("x", VInt 1); ("y", VInt 2)] true ∅ None [])
            initial_state _ initial_state _ _ _).
  - apply NoDup_singleton.
  - apply (bool_decide_unpack _). vm_compute. reflexivity.
  - vm_compute. reflexivity.
Defined.

(** ** Rules on a dictionary source *)

Lemma plain_key_not_NOS k : plain_key k = true → (k =? NOS)%string = false.
Proof.
  unfold plain_key. intros H.
  repeat (apply andb_true_iff in H as [H ?]).
  by repeat match goal with H : negb _ = true |- _ => apply negb_true_iff in H end.
Qed.

Lemma get_value_raw_plain E self inst k (opts d : dict) st :
  source self = VDict d →
  from_getter (cls self) = None →
  plain_key k = true →
  truthy (dict_get opts "pass_instance_to_converter" (VBool false)) = false →
  opts !! "getter" = None →
  _get_value_raw E self inst k opts st = (inr (resolved d (observed st) k), st).
Proof.
  intros Hsrc Hget Hk Hpass Hgetter. unfold _get_value_raw.
  rewrite Hpass, (plain_key_not_NOS k Hk).
  rewrite (dict_get_absent opts "getter") by done. cbn [is_sentry negb].
  unfold call_from_getter, default_getter.
  rewrite Hget, (plain_key_not_self k Hk), Hsrc.
  unfold mbind, M_bind, bind. rewrite get_plain_key by done.
  unfold resolved.
  destruct (is_sentry (default VSentry (d !! k))); [|reflexivity].
  unfold context. simpl. by rewrite get_plain_key.
Qed.

Lemma get_value_plain E self inst k (opts d : dict) st :
  source self = VDict d →
  from_getter (cls self) = None →
  plain_key k = true →
  truthy (dict_get opts "pass_instance_to_converter" (VBool false)) = false →
  opts !! "getter" = None →
  opts !! "_kwarg_override" = None →
  opts !! "default" = None →
  truthy (dict_get opts "pluralize" (VBool false))
  && negb (is_sentry (resolved d (observed st) k)) = false →
  _get_value E self inst k opts st = (inr (resolved d (observed st) k), st).
Proof.
  intros Hsrc Hget Hk Hpass Hgetter Hover Hdef Hplural. unfold _get_value.
  rewrite (dict_get_absent opts "_kwarg_override") by done. cbn [is_none negb].
  unfold mbind, M_bind, bind.
  rewrite (get_value_raw_plain E self inst k opts d st) by done.
  rewrite (dict_get_absent opts "default") by done. cbn [is_sentry negb andb].
  destruct (resolved d (observed st) k) eqn:Hr; simpl in *; try done;
    rewrite ?andb_true_r in Hplural; rewrite ?Hplural; simpl;
    repeat case_match; reflexivity.
Qed.

(** X17: on a dictionary source read by the default getter, a rule for a
    key that neither the source nor the context holds, with no default and
    no override, resolves to nothing: when the rule is [required] the
    conversion fails with [ValueRequired] naming the source key, otherwise
    the rule is omitted; in both cases no converter, filter or washer is
    run. *)
Theorem missing_value_is_required_or_omitted
    E sub self to_attr k (opts d : dict) inst st :
  source self = VDict d →
  from_getter (cls self) = None →
  plain_key k = true →
  d !! k = None →
  observed st !! k = None →
  truthy (dict_get opts "pass_instance_to_converter" (VBool false)) = false →
  opts !! "getter" = None →
  opts !! "_kwarg_override" = None →
  opts !! "default" = None →
  _normalize_value E sub self to_attr k opts inst st
  = if truthy (dict_get opts "required" (VBool false))
    then (inl (ValueRequired k None), st)
    else (inr VSentry, st).
Proof.
  intros Hsrc Hget Hk Hd Hctx Hpass Hgetter Hover Hdef.
  assert (resolved d (observed st) k = VSentry) as Hr.
  { unfold resolved. by rewrite Hd, Hctx. }
  unfold _normalize_value. unfold mbind, M_bind, bind.
  rewrite (get_value_plain E self inst k opts d st)
    by (try done; rewrite Hr; apply andb_false_r).
  rewrite Hr. cbn [is_sentry].
  by destruct (truthy (dict_get opts "required" (VBool false))).
Qed.

Lemma missing_value_witness :
  _normalize_value plain_env (fun _ _ _ _ _ => raise RecursionError)
    (instance Plain (VDict {[ "y" := VInt 1 ]}) None []) "x" "x"
    {[ "required" := VBool true; "converter" := VFunc "f" ]} VSentry initial_state
  = (inl (ValueRequired "x" None), initial_state).
Proof.
  exact (missing_value_is_required_or_omitted plain_env
           (fun _ _ _ _ _ => raise RecursionError)
           (instance Plain (VDict {[ "y" := VInt 1 ]}) None []) "x" "x"
           {[ "required" := VBool true; "converter" := VFunc "f" ]}
           {[ "y" := VInt 1 ]} VSentry initial_state
           eq_refl eq_refl eq_refl eq_refl eq_refl eq_refl eq_refl eq_refl eq_refl).
Defined.

(** ** Creation of the destination *)

Lemma instance_convert_copy_only E sub self st :
  truthy (converter_option (cls self) "copy_only") = true →
  dest self = VNone →
  ∃ e st', instance_convert E sub self st = (inl e, st')
           ∧ ∀ init, params_for_initialization E sub self st = (inr init, st') →
               e = TypeError "Cannot instantiate new instance. copy_only parameter set to true".
Proof.
  intros Hcopy Hdest. unfold instance_convert.
  unfold mbind, M_bind, bind.
  destruct (params_for_initialization E sub self st) as [[e|init] st1].
  { exists e, st1. split; [reflexivity|]. intros init [=]. }
  rewrite Hdest. cbn [is_none negb]. unfold instantiate. rewrite Hcopy.
  eexists _, _. split; [reflexivity|]. done.
Qed.

(** X18: a converter whose options set [copy_only] never creates a
    destination: converting without [dest] returns no result, whatever the
    source, the rules and the context are; once the constructor arguments
    have been computed the failure is the [TypeError] of [instantiate]. *)
Theorem copy_only_never_creates
    E depth c source context _extra extra_attrs st :
  truthy (converter_option c "copy_only") = true →
  (∀ v st', convert_to_depth E depth c source context VNone _extra extra_attrs st
            ≠ (inr v, st'))
  ∧ ∀ sub self st0 init st1,
      cls self = c → dest self = VNone →
      params_for_initialization E sub self st0 = (inr init, st1) →
      instance_convert E sub self st0
      = (inl (TypeError "Cannot instantiate new instance. copy_only parameter set to true"),
         st1).
Proof.
  intros Hcopy. split.
  - intros v st' H. destruct depth as [| depth]; [discriminate H|].
    simpl in H. unfold convert_class in H.
    apply (bind_inr (__init__ _ _ _ _ _ _ _)) in H as (self & st1 & Hinit & H).
    assert (cls self = c ∧ dest self = VNone) as [Hcls Hdest].
    { unfold __init__ in Hinit.
      repeat (case_match; [discriminate Hinit|]).
      apply (bind_inr (_normalized_dynamic_copy_attrs E _)) in Hinit
        as (attrs & st2 & _ & Hinit).
      by injection Hinit as <- <-. }
    unfold convert, _updated_context in H.
    apply bind_inr in H as (built & st2 & _ & H).
    apply bind_inr in H as (old & st3 & _ & H).
    apply bind_inr in H as (u & st4 & _ & H).
    unfold try_finally in H.
    match type of H with
    | context [instance_convert ?E' ?s ?slf ?st0] =>
        destruct (instance_convert_copy_only E' s slf st0) as (e & st5 & He & _);
          [by rewrite Hcls | done | rewrite He in H]
    end.
    simpl in H. discriminate H.
  - intros sub self st0 init st1 Hcls Hdest Hinit.
    unfold instance_convert. unfold mbind, M_bind, bind.
    rewrite Hinit, Hdest. cbn [is_none negb]. unfold instantiate.
    by rewrite Hcls, Hcopy.
Qed.

Lemma copy_only_never_creates_witness :
  instance_convert example_env (fun _ _ _ _ _ => raise RecursionError)
    (instance (with_options Plain {[ "copy_only" := VBool true ]})
       (VDict {[ "x" := VInt 1 ]}) None [(VStr "x", VStr "x", ∅)])
    initial_state
  = (inl (TypeError "Cannot instantiate new instance. copy_only parameter set to true"),
     initial_state).
Proof.
  refine (proj2 (copy_only_never_creates example_env 1
                   (with_options Plain {[ "copy_only" := VBool true ]})
                   VNone None ∅ [] initial_state _)
            (fun _ _ _ _ _ => raise RecursionError)
            (instance (with_options Plain {[ "copy_only" := VBool true ]})
               (VDict {[ "x" := VInt 1 ]}) None [(VStr "x", VStr "x", ∅)])
            initial_state [] initial_state eq_refl eq_refl _);
    vm_compute; reflexivity.
Defined.

(** ** Population of a dictionary *)

Lemma set_value_dict_plain E self (d : dict) k opts val st :
  undotted k = true →
  no_setter opts = true →
  _set_value E self (VDict d) k opts val st = (inr (VDict (<[k := val]> d)), st).
Proof.
  intros Hk Hset. apply negb_true_iff in Hk. apply negb_true_iff in Hset.
  unfold _set_value. cbn [_set_value_fuel].
  rewrite (partition_dot_undotted k Hk). simpl. by rewrite Hset.
Qed.

Lemma populate_dict E self params : ∀ (m : dict) st,
  forallb plainly_set params = true →
  populate_instance E self (VDict m) params st
  = (inr (VDict (set_all params m)), st).
Proof.
  unfold populate_instance, set_all.
  induction params as [| [k [v o]] params IH]; intros m st H; [reflexivity|].
  simpl in H. apply andb_true_iff in H as [Hp Hrest].
  unfold plainly_set, merge_flagged in Hp. simpl in Hp.
  apply andb_true_iff in Hp as [Hp Hset].
  apply andb_true_iff in Hp as [Hk Hmerge]. apply negb_true_iff in Hmerge.
  cbn [for_fold foldl]. unfold mbind, M_bind, bind at 1.
  rewrite Hmerge, set_value_dict_plain by done.
  by apply IH.
Qed.

Lemma set_all_insert params : ∀ (m : dict) k v,
  k ∉ params.*1 →
  set_all params (<[k := v]> m) = <[k := v]> (set_all params m).
Proof.
  unfold set_all.
  induction params as [| [k' x'] params IH]; intros m k v Hk; [reflexivity|].
  simpl in *. apply not_elem_of_cons in Hk as [Hne Hk].
  rewrite <- IH by done. f_equal. by apply insert_insert_ne.
Qed.

Lemma set_all_lookup params : ∀ (m : dict) k v o,
  NoDup params.*1 →
  (k, (v, o)) ∈ params →
  set_all params m !! k = Some v.
Proof.
  induction params as [| [k' [v' o']] params IH]; intros m k v o Hnodup Hin.
  { by apply elem_of_nil in Hin. }
  simpl in Hnodup. apply NoDup_cons in Hnodup as [Hk' Hnodup].
  apply elem_of_cons in Hin as [Heq | Hin].
  - injection Heq as -> -> ->. unfold set_all. simpl.
    fold (set_all params (<[k' := v']> m)).
    rewrite set_all_insert by done. apply lookup_insert_eq.
  - unfold set_all. simpl. fold (set_all params (<[k' := v']> m)).
    by eapply IH.
Qed.

Lemma set_all_lookup_other params : ∀ (m : dict) k,
  k ∉ params.*1 → set_all params m !! k = m !! k.
Proof.
  induction params as [| [k' [v' o']] params IH]; intros m k Hk; [reflexivity|].
  simpl in Hk. apply not_elem_of_cons in Hk as [Hne Hk].
  unfold set_all. simpl. fold (set_all params (<[k' := v']> m)).
  rewrite IH by done. by apply lookup_insert_ne.
Qed.

(** X19: populating a dictionary stores every parameter that is set by
    plain item assignment (undotted name, no [merge], no setter) under its
    name and touches nothing else: with distinct names, each parameter is
    read back from the result and every other key keeps the value it
    had. *)
Theorem populated_dictionary_holds_the_parameters E self params (m : dict) st :
  forallb plainly_set params = true →
  NoDup params.*1 →
  ∃ m', populate_instance E self (VDict m) params st = (inr (VDict m'), st)
        ∧ (∀ k v o, (k, (v, o)) ∈ params → m' !! k = Some v)
        ∧ (∀ k, k ∉ params.*1 → m' !! k = m !! k).
Proof.
  intros Hplain Hnodup. exists (set_all params m).
  split; [by apply populate_dict|]. split.
  - intros k v o Hin. by eapply set_all_lookup.
  - intros k Hk. by apply set_all_lookup_other.
Qed.

Lemma populated_dictionary_witness :
  ∃ m', populate_instance plain_env
          (instance Plain (VDict ∅) None []) (VDict {[ "z" := VInt 0 ]})
          [("x", (VInt 1, ∅)); ("y", (VInt 2, {[ "max_len" := VInt 3 ]}))]
          initial_state
        = (inr (VDict m'), initial_state)
        ∧ (∀ k v o,
             (k, (v, o)) ∈ ([("x", (VInt 1, ∅)); ("y", (VInt 2, {[ "max_len" := VInt 3 ]}))]
                            : list (string * (pyval * dict))) →
             m' !! k = Some v)
        ∧ (∀ k, k ∉ ["x"; "y"] → m' !! k = ({[ "z" := VInt 0 ]} : dict) !! k).
Proof.
  refine (populated_dictionary_holds_the_parameters plain_env
            (instance Plain (VDict ∅) None []) 
            [("x", (VInt 1, ∅)); ("y", (VInt 2, {[ "max_len" := VInt 3 ]}))]
            {[ "z" := VInt 0 ]} initial_state _ _).
  - vm_compute. reflexivity.
  - apply (bool_decide_unpack _). vm_compute. reflexivity.
Defined.

(** ** A dictionary converter whose rules copy keys *)

Lemma for_each_cons_inr {A B} (f : A → M B) a l st b st1 bs st2 :
  f a st = (inr b, st1) →
  for_each f l st1 = (inr bs, st2) →
  for_each f (a :: l) st = (inr (b :: bs), st2).
Proof.
  intros Ha Hl. cbn [for_each]. unfold mbind, M_bind, bind. by rewrite Ha, Hl.
Qed.

Lemma normalize_copies E c : ∀ rules pairs st,
  Forall2 copies rules pairs →
  forallb copyable pairs = true →
  normalize_copy_attrs E c rules st = (inr (map copy_rule pairs), st).
Proof.
  unfold normalize_copy_attrs.
  intros rules pairs st H. revert st.
  induction H as [| raw p rules pairs Hraw Hrest IH]; intros st Hok; [reflexivity|].
  simpl in Hok. apply andb_true_iff in Hok as [Hp Hok].
  unfold copyable in Hp. apply andb_true_iff in Hp as [_ Hsrc].
  apply (for_each_cons_inr _ _ _ st _ st); [|by apply IH].
  unfold mbind, M_bind, bind.
  assert (normalize_single_copy_attr E c raw st
          = (inr (VStr p.1, VStr p.2, VDict ∅), st)) as ->.
  { destruct Hraw as [[-> ->] | ->]; [reflexivity|].
    unfold normalize_single_copy_attr. simpl. unfold_monad. simpl.
    by rewrite (plain_key_not_NOS _ Hsrc). }
  by rewrite check_default_allowed.
Qed.

Lemma copy_rules_canonical pairs :
  forallb copyable pairs = true →
  forallb is_canonical (map rule_tuple (map copy_rule pairs)) = true.
Proof.
  induction pairs as [| p pairs IH]; [done|]. simpl.
  intros [Hp Hok]%andb_true_iff. rewrite IH, andb_true_r by done.
  unfold copyable in Hp. apply andb_true_iff in Hp as [Hp _].
  apply andb_true_iff in Hp as [_ Hne]. by rewrite Hne.
Qed.

Lemma init_copies E nm rules pairs (d : dict) context dest st :
  Forall2 copies rules pairs →
  forallb copyable pairs = true →
  __init__ E (dict_converter nm rules) (VDict d) context dest ∅ [] st
  = (inr (Self (dict_converter nm rules) (VDict d) dest [] (is_none dest) ∅ context
            (map copy_rule pairs)), st).
Proof.
  intros Hrules Hok. unfold __init__. simpl.
  unfold _normalized_dynamic_copy_attrs, dynamic_copy_attrs. simpl.
  unfold mbind, M_bind, bind.
  rewrite (normalize_copies E _ rules pairs st Hrules Hok). simpl.
  rewrite app_nil_r.
  destruct (canonical_pass E (dict_converter nm rules)
              (map rule_tuple (map copy_rule pairs)) st
              (copy_rules_canonical pairs Hok)) as (out & Hout & Hmap).
  apply rule_tuple_inj in Hmap as ->. by rewrite Hout.
Qed.

Lemma dict_converter_option nm rules k :
  converter_option (dict_converter nm rules) k
  = dict_get Converter_converter_options k VNone.
Proof. reflexivity. Qed.

Lemma dict_get_empty k dflt : dict_get ∅ k dflt = dflt.
Proof. apply dict_get_absent, lookup_empty. Qed.

Lemma is_initialization_attr_copy self nm rules attr :
  cls self = dict_converter nm rules →
  _is_initialization_attr self attr ∅ = false.
Proof.
  intros Hcls. unfold _is_initialization_attr.
  rewrite Hcls, dict_converter_option, !dict_get_empty.
  replace (dict_get Converter_converter_options "pass_attrs_to_init" VNone)
    with (VBool false) by (vm_compute; reflexivity).
  reflexivity.
Qed.

Lemma normalize_value_copy E sub self nm rules dst src inst (d : dict) st :
  cls self = dict_converter nm rules →
  source self = VDict d →
  plain_key src = true →
  _normalize_value E sub self dst src ∅ inst st
  = (inr (resolved d (observed st) src), st).
Proof.
  intros Hcls Hsrc Hk. unfold _normalize_value, mbind, M_bind, bind.
  rewrite (get_value_plain E self inst src ∅ d st);
    try done; try (by rewrite Hcls); try apply lookup_empty.
  rewrite !dict_get_empty.
  destruct (is_sentry (resolved d (observed st) src)) eqn:Hs.
  { simpl. by destruct (resolved d (observed st) src). }
  cbn [is_callable negb]. unfold _convert_child, mbind, M_bind, bind.
  rewrite !dict_get_empty. cbn [is_sentry negb andb].
  rewrite andb_false_r. cbn [ret negb truthy is_none andb].
  rewrite Hcls, !dict_converter_option.
  replace (dict_get Converter_converter_options "include_nones" VNone)
    with (VBool true) by (vm_compute; reflexivity).
  replace (dict_get Converter_converter_options "convert_nones_to_blanks" VNone)
    with (VBool false) by (vm_compute; reflexivity).
  replace (dict_get Converter_converter_options "include_empty_strings" VNone)
    with (VBool true) by (vm_compute; reflexivity).
  cbn [truthy negb andb]. rewrite andb_false_r, Hs.
  unfold wash_result. rewrite Hcls. reflexivity.
Qed.

Lemma odict_set_keys {A} (dct : list (string * A)) k x k' :
  k' ∈ (odict_set dct k x).*1 → k' = k ∨ k' ∈ dct.*1.
Proof.
  induction dct as [| [k0 x0] dct IH]; simpl.
  - intros ->%list_elem_of_singleton. by left.
  - destruct (String.eqb k0 k) eqn:Hk; simpl.
    + intros H. by right.
    + intros [-> | H]%elem_of_cons.
      * right. apply elem_of_cons. by left.
      * destruct (IH H) as [-> | Hin]; [by left|].
        right. apply elem_of_cons. by right.
Qed.

Lemma odict_set_NoDup {A} (dct : list (string * A)) k x :
  NoDup dct.*1 → NoDup (odict_set dct k x).*1.
Proof.
  induction dct as [| [k0 x0] dct IH]; simpl; intros H.
  - apply NoDup_singleton.
  - apply NoDup_cons in H as [Hk0 H].
    destruct (String.eqb k0 k) eqn:Hk; simpl.
    + by apply NoDup_cons.
    + apply NoDup_cons. split; [|by apply IH].
      intros [-> | Hin]%odict_set_keys; [|done].
      by rewrite String.eqb_refl in Hk.
Qed.

Lemma set_all_odict_set dct : ∀ (m : dict) k v o,
  NoDup dct.*1 →
  set_all (odict_set dct k (v, o)) m = <[k := v]> (set_all dct m).
Proof.
  induction dct as [| [k0 [v0 o0]] dct IH]; intros m k v o H; [reflexivity|].
  simpl in H. apply NoDup_cons in H as [Hk0 H]. simpl.
  destruct (String.eqb k0 k) eqn:Hk.
  - apply String.eqb_eq in Hk as ->. unfold set_all. simpl.
    fold (set_all dct (<[k := v]> m)). fold (set_all dct (<[k := v0]> m)).
    rewrite !set_all_insert by done. by rewrite insert_insert_eq.
  - unfold set_all. simpl.
    fold (set_all (odict_set dct k (v, o)) (<[k0 := v0]> m)).
    fold (set_all dct (<[k0 := v0]> m)). by apply IH.
Qed.

Lemma odict_set_plainly dct k x :
  forallb plainly_set dct = true →
  plainly_set (k, x) = true →
  forallb plainly_set (odict_set dct k x) = true.
Proof.
  intros Hdct Hx. induction dct as [| [k0 x0] dct IH]; simpl.
  - by rewrite Hx.
  - simpl in Hdct. apply andb_true_iff in Hdct as [H0 Hdct].
    destruct (String.eqb k0 k) eqn:Hk; simpl.
    + apply String.eqb_eq in Hk as ->. by rewrite Hx, Hdct.
    + by rewrite H0, IH.
Qed.

Lemma copy_params_invariant (d ctx m : dict) pairs : ∀ dct,
  forallb copyable pairs = true →
  forallb plainly_set dct = true →
  NoDup dct.*1 →
  forallb plainly_set (copy_params d ctx pairs dct) = true
  ∧ set_all (copy_params d ctx pairs dct) m
    = foldl (fun m p =>
               let val := resolved d ctx p.2 in
               if is_sentry val then m else <[p.1 := val]> m)
            (set_all dct m) pairs.
Proof.
  unfold copy_params.
  induction pairs as [| p pairs IH]; intros dct Hok Hplain Hnodup; [done|].
  simpl in Hok. apply andb_true_iff in Hok as [Hp Hok]. cbn [foldl].
  destruct (is_sentry (resolved d ctx p.2)) eqn:Hs; [by apply IH|].
  destruct (IH (odict_set dct p.1 (resolved d ctx p.2, ∅))) as [H1 H2];
    [done | | by apply odict_set_NoDup |].
  - apply odict_set_plainly; [done|].
    unfold copyable in Hp. apply andb_true_iff in Hp as [Hp _].
    apply andb_true_iff in Hp as [Hdst _].
    unfold plainly_set, merge_flagged, no_setter. simpl.
    by rewrite Hdst, !dict_get_empty.
  - split; [done|]. rewrite H2. by rewrite set_all_odict_set.
Qed.

Lemma for_fold_cons_inr {A B} (f : B → A → M B) a l b st b' st1 :
  f b a st = (inr b', st1) →
  for_fold f (a :: l) b st = for_fold f l b' st1.
Proof.
  intros H. cbn [for_fold]. unfold mbind, M_bind, bind. by rewrite H.
Qed.

Lemma params_for_copies E sub self nm rules (d : dict) pairs initialization inst :
  cls self = dict_converter nm rules →
  source self = VDict d →
  forallb copyable pairs = true →
  ∀ dct st,
    for_fold
      (fun dct rule =>
         '(to_attr, from_attr, opts) ← rule_names rule;
         if negb (Bool.eqb (_is_initialization_attr self to_attr opts) initialization)
         then ret dct
         else
           val ← _normalize_value E sub self to_attr from_attr opts inst;
           if is_sentry val then ret dct
           else ret (odict_set dct to_attr (val, opts)))
      (map copy_rule pairs) dct st
    = (inr (if initialization then dct
            else copy_params d (observed st) pairs dct), st).
Proof.
  intros Hcls Hsrc. unfold copy_params.
  induction pairs as [| p pairs IH]; intros Hok dct st.
  { by destruct initialization. }
  simpl in Hok. apply andb_true_iff in Hok as [Hp Hok].
  unfold copyable in Hp. apply andb_true_iff in Hp as [_ Hk].
  cbn [map foldl].
  match goal with
  | |- for_fold ?f _ _ _ = _ =>
      assert (f dct (copy_rule p) st
              = (inr (if initialization then dct
                      else if is_sentry (resolved d (observed st) p.2) then dct
                           else odict_set dct p.1 (resolved d (observed st) p.2, ∅)),
                 st)) as Hstep
  end.
  { unfold copy_rule, mbind, M_bind, bind. cbn [rule_names ret].
    rewrite (is_initialization_attr_copy self nm rules) by done.
    destruct initialization; cbn [Bool.eqb negb]; [reflexivity|].
    rewrite (normalize_value_copy E sub self nm rules _ _ _ d) by done.
    by destruct (is_sentry (resolved d (observed st) p.2)). }
  rewrite (for_fold_cons_inr _ _ _ _ _ _ _ Hstep), IH by done.
  by destruct initialization.
Qed.

Lemma params_for_copy E sub self nm rules (d : dict) pairs initialization inst st :
  cls self = dict_converter nm rules →
  source self = VDict d →
  _normalized_attrs self = map copy_rule pairs →
  forallb copyable pairs = true →
  params_for E sub self initialization inst st
  = (inr (if initialization then []
          else copy_params d (observed st) pairs []), st).
Proof.
  intros Hcls Hsrc Hattrs Hok. unfold params_for. rewrite Hattrs.
  by apply (params_for_copies E sub self nm rules d pairs initialization inst).
Qed.

Lemma copied_from_other (d ctx : dict) pairs : ∀ (m : dict) k,
  k ∉ pairs.*1 →
  foldl (fun m p =>
           let val := resolved d ctx p.2 in
           if is_sentry val then m else <[p.1 := val]> m) m pairs !! k
  = m !! k.
Proof.
  induction pairs as [| p pairs IH]; intros m k Hk; [reflexivity|].
  simpl in Hk. apply not_elem_of_cons in Hk as [Hne Hk]. cbn [foldl].
  rewrite IH by done.
  destruct (is_sentry (resolved d ctx p.2)); [done|].
  by apply lookup_insert_ne.
Qed.

Lemma copied_from_pair (d ctx : dict) pairs : ∀ (m : dict) p,
  NoDup pairs.*1 →
  p ∈ pairs →
  is_sentry (resolved d ctx p.2) = false →
  foldl (fun m p =>
           let val := resolved d ctx p.2 in
           if is_sentry val then m else <[p.1 := val]> m) m pairs !! p.1
  = Some (resolved d ctx p.2).
Proof.
  induction pairs as [| q pairs IH]; intros m p Hnodup Hin Hs.
  { by apply elem_of_nil in Hin. }
  simpl in Hnodup. apply NoDup_cons in Hnodup as [Hq Hnodup]. cbn [foldl].
  apply elem_of_cons in Hin as [-> | Hin]; [|by apply IH].
  rewrite copied_from_other by done. rewrite Hs. apply lookup_insert_eq.
Qed.

(** X20: a dictionary converter whose rules are bare names or
    (destination, source) pairs copies keys: converting a dictionary
    returns a new dictionary that holds, under each destination, the value
    the source has under the rule's source key, or else the value the
    context has under it (the context passed to the call first, the
    current one next), and no entry for a rule that finds neither; no other
    key is set, no name is generated, and the context is the current one
    again afterwards. *)
Theorem dict_converter_copies_keys E depth nm rules pairs (d : dict) context st :
  Forall2 copies rules pairs →
  forallb copyable pairs = true →
  let ctx := default ∅ context ∪ observed st in
  convert_to_depth E (S depth) (dict_converter nm rules) (VDict d) context VNone ∅ [] st
  = (inr (VDict (copied d ctx pairs)), State (Some (observed st)) (counter st))
  ∧ (∀ k, k ∉ pairs.*1 → copied d ctx pairs !! k = None)
  ∧ (NoDup pairs.*1 →
     ∀ p, p ∈ pairs →
       copied d ctx pairs !! p.1
       = if is_sentry (resolved d ctx p.2) then None else Some (resolved d ctx p.2)).
Proof.
  intros Hrules Hok ctx. split; [|split].
  - cbn [convert_to_depth]. unfold convert_class, mbind, M_bind, bind.
    rewrite (init_copies E nm rules pairs d context VNone st Hrules Hok).
    cbn [is_none].
    set (self := Self (dict_converter nm rules) (VDict d) VNone [] true ∅ context
                   (map copy_rule pairs)).
    unfold convert, _updated_context, mbind, M_bind, bind.
    cbn [build_context cls self dict_converter ret _context].
    unfold Converter.context, set_context, try_finally. cbn [counter].
    set (st1 := State (Some (default ∅ context ∪ (∅ ∪ default ∅ (context_local st))))
                  (counter st)).
    assert (observed st1 = ctx) as Hctx.
    { unfold observed, ctx, st1. simpl. by rewrite (left_id_L ∅ (∪)). }
    assert (instance_convert E
              (fun c' to_convert dest' _extra' kw =>
                 convert_to_depth E depth c' to_convert None dest' _extra' kw)
              self st1
            = (inr (VDict (copied d ctx pairs)), st1)) as ->; [|reflexivity].
    unfold instance_convert, params_for_initialization, params_for_population,
      mbind, M_bind, bind.
    rewrite (params_for_copy E _ self nm rules d pairs true) by done.
    change (dest self) with VNone. cbn [is_none negb].
    unfold instantiate. change (cls self) with (dict_converter nm rules).
    rewrite dict_converter_option.
    replace (dict_get Converter_converter_options "copy_only" VNone)
      with (VBool false) by (vm_compute; reflexivity).
    cbn [truthy to_class dict_converter map py_call ret list_to_map foldr
           is_none is_sentry orb andb].
    rewrite (params_for_copy E _ self nm rules d pairs false) by done.
    rewrite Hctx.
    destruct (copy_params_invariant d ctx ∅ pairs [] Hok eq_refl (NoDup_nil_2))
      as [Hplain Hset].
    rewrite (populate_dict E self _ ∅ st1 Hplain), Hset. reflexivity.
  - intros k Hk. unfold copied. rewrite copied_from_other by done.
    apply lookup_empty.
  - intros Hnodup p Hin. unfold copied.
    destruct (is_sentry (resolved d ctx p.2)) eqn:Hs.
    + assert (∀ m : dict, m !! p.1 = None → NoDup pairs.*1 → p ∈ pairs →
                foldl (fun m p =>
                         let val := resolved d ctx p.2 in
                         if is_sentry val then m else <[p.1 := val]> m) m pairs !! p.1
                = None) as Hnone.
      { clear Hok Hrules Hnodup Hin.
        induction pairs as [| q pairs IH]; intros m Hm Hnodup Hin.
        { by apply elem_of_nil in Hin. }
        simpl in Hnodup. apply NoDup_cons in Hnodup as [Hq Hnodup]. cbn [foldl].
        apply elem_of_cons in Hin as [<- | Hin].
        - rewrite copied_from_other by done. by rewrite Hs.
        - apply IH; [|done|done].
          destruct (is_sentry (resolved d ctx q.2)); [done|].
          rewrite lookup_insert_ne; [done|].
          intros Heq. apply Hq. rewrite Heq.
          apply list_elem_of_fmap. by exists p. }
      apply Hnone; [apply lookup_empty | done | done].
    + by apply copied_from_pair.
Qed.

Lemma dict_converter_copies_keys_witness :
  convert_to_depth plain_env 1
    (dict_converter "Renaming" [VStr "x"; VList [VStr "y"; VStr "x"]; VStr "w"])
    (VDict {[ "x" := VInt 1; "z" := VInt 3 ]}) None VNone ∅ [] initial_state
  = (inr (VDict {[ "x" := VInt 1; "y" := VInt 1 ]}), State (Some ∅) 1).
Proof.
  assert (Forall2 copies [VStr "x"; VList [VStr "y"; VStr "x"]; VStr "w"]
            [("x", "x"); ("y", "x"); ("w", "w")]) as Hrules.
  { repeat constructor; by right. }
  etransitivity;
    [exact (proj1 (dict_converter_copies_keys plain_env 0 "Renaming"
                     [VStr "x"; VList [VStr "y"; VStr "x"]; VStr "w"]
                     [("x", "x"); ("y", "x"); ("w", "w")]
                     {[ "x" := VInt 1; "z" := VInt 3 ]} None initial_state
                     Hrules eq_refl))
    | vm_compute; reflexivity].
Defined.

(** X21: given an existing dictionary as [dest], the same converter
    creates nothing: the result is that dictionary with the values the
    rules find set under their destinations; a key that is no rule's
    destination, and the destination of a rule that finds no value, keep
    what [dest] held. *)
Theorem dict_converter_updates_a_destination
    E depth nm rules pairs (d dest : dict) context st :
  Forall2 copies rules pairs →
  forallb copyable pairs = true →
  let ctx := default ∅ context ∪ observed st in
  convert_to_depth E (S depth) (dict_converter nm rules) (VDict d) context
    (VDict dest) ∅ [] st
  = (inr (VDict (updated dest d ctx pairs)), State (Some (observed st)) (counter st))
  ∧ (∀ k, k ∉ pairs.*1 → updated dest d ctx pairs !! k = dest !! k)
  ∧ (NoDup pairs.*1 →
     ∀ p, p ∈ pairs →
       updated dest d ctx pairs !! p.1
       = if is_sentry (resolved d ctx p.2) then dest !! p.1
         else Some (resolved d ctx p.2)).
Proof.
  intros Hrules Hok ctx. split; [|split].
  - cbn [convert_to_depth]. unfold convert_class, mbind, M_bind, bind.
    rewrite (init_copies E nm rules pairs d context (VDict dest) st Hrules Hok).
    cbn [is_none].
    set (self := Self (dict_converter nm rules) (VDict d) (VDict dest) [] false ∅
                   context (map copy_rule pairs)).
    unfold convert, _updated_context, mbind, M_bind, bind.
    cbn [build_context cls self dict_converter ret _context].
    unfold Converter.context, set_context, try_finally. cbn [counter].
    set (st1 := State (Some (default ∅ context ∪ (∅ ∪ default ∅ (context_local st))))
                  (counter st)).
    assert (observed st1 = ctx) as Hctx.
    { unfold observed, ctx, st1. simpl. by rewrite (left_id_L ∅ (∪)). }
    assert (instance_convert E
              (fun c' to_convert dest' _extra' kw =>
                 convert_to_depth E depth c' to_convert None dest' _extra' kw)
              self st1
            = (inr (VDict (updated dest d ctx pairs)), st1)) as ->; [|reflexivity].
    unfold instance_convert, params_for_initialization, params_for_population,
      mbind, M_bind, bind.
    rewrite (params_for_copy E _ self nm rules d pairs true) by done.
    change (Converter.dest self) with (VDict dest).
    cbn [is_none negb populate_instance for_fold ret andb].
    rewrite (params_for_copy E _ self nm rules d pairs false) by done.
    rewrite Hctx.
    destruct (copy_params_invariant d ctx dest pairs [] Hok eq_refl (NoDup_nil_2))
      as [Hplain Hset].
    rewrite (populate_dict E self _ dest st1 Hplain), Hset. reflexivity.
  - intros k Hk. unfold updated. by rewrite copied_from_other.
  - intros Hnodup p Hin. unfold updated.
    destruct (is_sentry (resolved d ctx p.2)) eqn:Hs; [|by apply copied_from_pair].
    clear Hok Hrules. revert dest Hnodup Hin.
    induction pairs as [| q pairs IH]; intros dest Hnodup Hin.
    { by apply elem_of_nil in Hin. }
    simpl in Hnodup. apply NoDup_cons in Hnodup as [Hq Hnodup]. cbn [foldl].
    apply elem_of_cons in Hin as [<- | Hin].
    + rewrite copied_from_other by done. by rewrite Hs.
    + rewrite IH by done.
      destruct (is_sentry (resolved d ctx q.2)); [done|].
      apply lookup_insert_ne.
      intros Heq. apply Hq. rewrite Heq.
      apply list_elem_of_fmap. by exists p.
Qed.

Lemma dict_converter_updates_witness :
  convert_to_depth plain_env 1
    (dict_converter "Renaming" [VStr "x"; VList [VStr "y"; VStr "x"]; VStr "w"])
    (VDict {[ "x" := VInt 1; "z" := VInt 3 ]}) None
    (VDict {[ "w" := VInt 7; "x" := VInt 0 ]}) ∅ [] initial_state
  = (inr (VDict {[ "w" := VInt 7; "x" := VInt 1; "y" := VInt 1 ]}), State (Some ∅) 1).
Proof.
  assert (Forall2 copies [VStr "x"; VList [VStr "y"; VStr "x"]; VStr "w"]
            [("x", "x"); ("y", "x"); ("w", "w")]) as Hrules.
  { repeat constructor; by right. }
  etransitivity;
    [exact (proj1 (dict_converter_updates_a_destination plain_env 0 "Renaming"
                     [VStr "x"; VList [VStr "y"; VStr "x"]; VStr "w"]
                     [("x", "x"); ("y", "x"); ("w", "w")]
                     {[ "x" := VInt 1; "z" := VInt 3 ]}
                     {[ "w" := VInt 7; "x" := VInt 0 ]} None initial_state
                     Hrules eq_refl))
    | vm_compute; reflexivity].
Defined.

(** ** Filters *)

Lemma for_each_filter E sub self f (p : pyval → bool) items : ∀ st,
  (∀ x st0, x ∈ items → _filter_includes_val E self f x st0 = (inr (p x), st0)) →
  for_each (fun val_ =>
              keep ← (if is_sentry f then ret true
                      else _filter_includes_val E self f val_);
              if keep : bool then apply_cfunc E sub self CIdentity val_ []
              else ret VSentry) items st
  = (if is_sentry f then (inr items, st)
     else (inr (map (fun x => if p x then x else VSentry) items), st)).
Proof.
  induction items as [| x items IH]; intros st Hp.
  { by destruct (is_sentry f). }
  assert (∀ x0 st0, x0 ∈ items →
            _filter_includes_val E self f x0 st0 = (inr (p x0), st0)) as Hrest.
  { intros x0 st0 Hin. apply Hp. apply elem_of_cons. by right. }
  specialize (IH st Hrest).
  destruct (is_sentry f) eqn:Hs.
  - eapply for_each_cons_inr; [|exact IH]. reflexivity.
  - eapply for_each_cons_inr; [|exact IH].
    unfold mbind, M_bind, bind. rewrite Hp by (apply elem_of_cons; by left).
    by destruct (p x).
Qed.

Lemma filter_marked (p : pyval → bool) items :
  Forall (fun x => is_sentry x = false) items →
  filter (fun subval => negb (is_sentry subval))
    (map (fun x => if p x then x else VSentry) items)
  = filter p items.
Proof.
  induction 1 as [| x items Hx Hitems IH]; [reflexivity|].
  cbn [map]. rewrite !filter_cons.
  destruct (p x) eqn:Hp; rewrite ?Hx; simpl;
    repeat case_decide; simpl in *; try done; by rewrite IH.
Qed.

(** X22: a rule with a filter and no converter, on a collection, keeps the
    items the filter accepts, in their order, and nothing else: the filter
    is asked about every item, and the accepted items are kept as they
    are. *)
Theorem filter_keeps_the_accepted_items
    E sub self to_attr (opts : dict) f (p : pyval → bool) items inst st :
  opts !! "filter" = Some f →
  is_sentry f = false →
  opts !! "converter" = None →
  opts !! "reverse_attr_name" = None →
  _attr_should_be_merged self opts = false →
  truthy (dict_get opts "map" (VBool true)) = true →
  (∀ x st0, x ∈ items → _filter_includes_val E self f x st0 = (inr (p x), st0)) →
  Forall (fun x => is_sentry x = false) items →
  _convert_child E sub self to_attr opts (VList items) inst st
  = (inr (VList (filter p items)), st).
Proof.
  intros Hf Hs Hc Hrev Hmerge Hmap Hp Hitems. unfold _convert_child.
  rewrite !(dict_get_present opts "filter" f) by done.
  rewrite (dict_get_absent opts "converter"), (dict_get_absent opts "reverse_attr_name")
    by done.
  rewrite Hs, Hmap, Hmerge. simpl.
  unfold mbind, M_bind, bind. simpl.
  pose proof (for_each_filter E sub self f p items st Hp) as Heach.
  rewrite Hs in Heach. unfold mbind, M_bind, bind in Heach. simpl in Heach.
  rewrite Heach. simpl. by rewrite filter_marked.
Qed.

Lemma filter_keeps_the_accepted_items_witness :
  _convert_child example_env (fun _ _ _ _ _ => raise RecursionError)
    (instance Plain (VDict ∅) None []) "x" {[ "filter" := VFunc "bigger_than_ten" ]}
    (VList [VInt 5; VInt 20; VInt 11]) VSentry initial_state
  = (inr (VList [VInt 20; VInt 11]), initial_state).
Proof.
  refine (filter_keeps_the_accepted_items example_env
            (fun _ _ _ _ _ => raise RecursionError)
            (instance Plain (VDict ∅) None []) "x"
            {[ "filter" := VFunc "bigger_than_ten" ]} (VFunc "bigger_than_ten")
            (fun x => match x with VInt n => (10 <? n)%Z | _ => false end)
            [VInt 5; VInt 20; VInt 11] VSentry initial_state
            eq_refl eq_refl eq_refl eq_refl eq_refl eq_refl _ _).
  - intros x st0 Hin.
    repeat (apply elem_of_cons in Hin as [-> | Hin]; [reflexivity|]).
    by apply elem_of_nil in Hin.
  - repeat constructor.
Defined.

(** ** The [sort] option *)

Lemma dict_get_singleton_ne k k' (v d : pyval) :
  k ≠ k' → dict_get {[ k := v ]} k' d = d.
Proof. intros H. apply dict_get_absent. by apply lookup_singleton_ne. Qed.

Lemma dict_get_singleton_eq k (v d : pyval) : dict_get {[ k := v ]} k d = v.
Proof. unfold dict_get. by rewrite lookup_singleton_eq. Qed.

Ltac other_singleton_keys :=
  repeat match goal with
    | |- context [dict_get {[ ?k := ?v ]} ?k' ?d] =>
        lazymatch k' with
        | k => fail
        | _ => rewrite (dict_get_singleton_ne k k' v d) by discriminate
        end
    end.

(** X23: on a dictionary converter, a rule whose only option is a truthy
    [sort] fails with a [ValueError] when the value it resolves is not a
    collection ([None] and strings included), and with a [TypeError] when
    the value is a collection but [sort] is neither [True] nor a callable;
    with [sort: True] a list is sorted by its own items. *)
Theorem sort_needs_a_collection_and_a_key
    E sub self nm rules dst src s inst (d : dict) st :
  cls self = dict_converter nm rules →
  source self = VDict d →
  plain_key src = true →
  truthy s = true →
  is_sentry (resolved d (observed st) src) = false →
  let val := resolved d (observed st) src in
  let outcome := _normalize_value E sub self dst src {[ "sort" := s ]} inst st in
  (val_is_collection val = false →
   outcome = (inl (ValueError "sort is only applicable to collections"), st))
  ∧ (val_is_collection val = true → is_callable s = false → s ≠ VBool true →
     outcome = (inl (TypeError "sort value must be a boolean or a callable"), st))
  ∧ (∀ items, val = VList items → s = VBool true →
     outcome = (sorted ← py_sorted items (fun x => ret x); ret (VList sorted)) st).
Proof.
  intros Hcls Hsrc Hk Hsort Hs val outcome. subst val.
  set (val := resolved d (observed st) src) in *.
  assert (outcome
          = (if negb (val_is_collection val)
             then raise (ValueError "sort is only applicable to collections")
             else
               sort_key ← (if is_callable s
                           then ret (fun x => py_call E s [x] [])
                           else match s with
                                | VBool true => ret (fun x => ret x)
                                | _ => raise (TypeError "sort value must be a boolean or a callable")
                                end);
               items ← py_iter val;
               sorted ← py_sorted items sort_key;
               ret (VList sorted)) st) as Hout.
  { subst outcome. unfold _normalize_value, mbind, M_bind, bind.
    rewrite (get_value_plain E self inst src {[ "sort" := s ]} d st);
      try done; try (by rewrite Hcls); try (by apply lookup_singleton_ne);
      try (by rewrite dict_get_singleton_ne).
    fold val. other_singleton_keys. rewrite dict_get_singleton_eq, Hs, Hsort.
    cbn [is_callable negb]. unfold _convert_child, mbind, M_bind, bind.
    other_singleton_keys. cbn [is_sentry negb andb].
    rewrite andb_false_r. cbn [ret negb truthy is_none andb].
    rewrite Hcls, !dict_converter_option.
    replace (dict_get Converter_converter_options "include_nones" VNone)
      with (VBool true) by (vm_compute; reflexivity).
    replace (dict_get Converter_converter_options "convert_nones_to_blanks" VNone)
      with (VBool false) by (vm_compute; reflexivity).
    replace (dict_get Converter_converter_options "include_empty_strings" VNone)
      with (VBool true) by (vm_compute; reflexivity).
    cbn [truthy negb andb]. rewrite andb_false_r, Hs.
    unfold wash_result. rewrite Hcls. reflexivity. }
  split; [|split].
  - intros Hcol. by rewrite Hout, Hcol.
  - intros Hcol Hcall Hne. rewrite Hout, Hcol, Hcall. cbn [negb].
    unfold mbind, M_bind, bind.
    destruct s as [| | [|] | | | | | | |]; try done.
  - intros items Hitems ->. rewrite Hout, Hitems. reflexivity.
Qed.

Lemma sort_needs_a_collection_witness :
  _normalize_value plain_env (fun _ _ _ _ _ => raise RecursionError)
    (instance Plain (VDict {[ "x" := VInt 3 ]}) None []) "x" "x"
    {[ "sort" := VBool true ]} VSentry initial_state
  = (inl (ValueError "sort is only applicable to collections"), initial_state).
Proof.
  exact (proj1 (sort_needs_a_collection_and_a_key plain_env
                  (fun _ _ _ _ _ => raise RecursionError)
                  (instance Plain (VDict {[ "x" := VInt 3 ]}) None [])
                  "Plain" [VStr "x"] "x" "x" (VBool true) VSentry
                  {[ "x" := VInt 3 ]} initial_state
                  eq_refl eq_refl eq_refl eq_refl eq_refl)
           eq_refl).
Defined.

(** ** Forms of a rule *)

(** X24: the forms of a rule that the class documentation lists as
    equivalent have one normal form, for a name that is neither empty nor
    [NOS]: the bare name, the 1-tuple, the pair with empty options, the
    pair repeating the name and the triple with empty options all
    normalise to (name, name, no options) and generate no name; the pair
    with a callable differs from them by its [converter] option only. *)
Theorem documented_forms_share_a_normal_form E cls a st :
  a ≠ "" →
  a ≠ NOS →
  let normal_form := (inr (VStr a, VStr a, VDict ∅), st) in
  normalize_single_copy_attr E cls (VStr a) st = normal_form
  ∧ normalize_single_copy_attr E cls (VList [VStr a]) st = normal_form
  ∧ normalize_single_copy_attr E cls (VList [VStr a; VDict ∅]) st = normal_form
  ∧ normalize_single_copy_attr E cls (VList [VStr a; VStr a]) st = normal_form
  ∧ normalize_single_copy_attr E cls (VList [VStr a; VStr a; VDict ∅]) st = normal_form
  ∧ ∀ f, is_callable f = true →
      normalize_single_copy_attr E cls (VList [VStr a; f]) st
      = (inr (VStr a, VStr a, VDict {[ "converter" := f ]}), st).
Proof.
  intros Hne Hnos normal_form. subst normal_form.
  apply String.eqb_neq in Hne. apply String.eqb_neq in Hnos.
  unfold normalize_single_copy_attr.
  repeat split; simpl; unfold_monad; simpl; rewrite ?Hnos, ?Hne; simpl;
    try reflexivity.
  intros f Hf. by destruct f.
Qed.

Lemma documented_forms_witness :
  normalize_single_copy_attr plain_env Plain (VList [VStr "a"; VStr "a"; VDict ∅])
    initial_state
  = normalize_single_copy_attr plain_env Plain (VStr "a") initial_state.
Proof.
  pose proof (documented_forms_share_a_normal_form plain_env Plain "a" initial_state
                ltac:(discriminate) ltac:(discriminate)) as H.
  simpl in H. destruct H as (H1 & _ & _ & _ & H5 & _).
  exact (eq_trans H5 (eq_sym H1)).
Defined.

(** ** Nested converters *)

(** X25: a converter that is a [Converter] subclass, on a rule without
    filter, reverse attribute or merge, converts every item of a
    collection in order by a conversion of that class, with no destination
    and no extra attribute and with the [_extra] of the enclosing
    converter, the items converted to the omit sentinel being left out; a
    value that is not mapped and not [None] is converted the same way, as
    a whole. *)
Theorem converter_class_converts_each_item
    E sub self to_attr (opts : dict) cname c val inst st :
  opts !! "filter" = None →
  opts !! "converter" = Some (VClass cname) →
  converter_classes E !! cname = Some c →
  opts !! "reverse_attr_name" = None →
  _attr_should_be_merged self opts = false →
  (truthy (dict_get opts "map" (VBool true)) = true →
   ∀ items, val = VList items →
     _convert_child E sub self to_attr opts val inst st
     = (results ← for_each (λ val_, sub c val_ VNone (_extra self) []) items;
        ret (VList (filter (λ subval, negb (is_sentry subval)) results))) st)
  ∧ (truthy (dict_get opts "map" (VBool true)) && val_is_collection val = false →
     is_none val = false →
     _convert_child E sub self to_attr opts val inst st
     = sub c val VNone (_extra self) [] st).
Proof.
  intros Hf Hc Hclass Hrev Hmerge.
  split.
  - intros Hmap items ->. unfold _convert_child.
    rewrite (dict_get_absent opts "filter"), (dict_get_absent opts "reverse_attr_name")
      by done.
    rewrite !(dict_get_present opts "converter" (VClass cname)) by done.
    simpl in Hclass |- *. rewrite Hmap, Hmerge.
    unfold mbind, M_bind, bind. simpl. rewrite Hclass. simpl. reflexivity.
  - intros Hmap Hnone. unfold _convert_child.
    rewrite (dict_get_absent opts "filter"), (dict_get_absent opts "reverse_attr_name")
      by done.
    rewrite !(dict_get_present opts "converter" (VClass cname)) by done.
    simpl in Hclass |- *. rewrite Hmap, Hmerge, Hnone.
    unfold mbind, M_bind, bind. simpl. rewrite Hclass. simpl. reflexivity.
Qed.

Lemma converter_class_converts_each_item_witness :
  _convert_child example_env
    (fun c' to_convert dest' _extra' kw =>
       convert_to_depth example_env 2 c' to_convert None dest' _extra' kw)
    (instance Plain (VDict ∅) None []) "subs"
    {[ "converter" := VClass "MySubConverter" ]}
    (VList [VDict {[ "from_context" := VInt 1; "other" := VInt 2 ]}; VDict ∅])
    VSentry initial_state
  = (inr (VList [VDict {[ "from_context" := VInt 1 ]}; VDict ∅]), State (Some ∅) 1).
Proof.
  etransitivity;
    [exact (proj1 (converter_class_converts_each_item example_env
                     (fun c' to_convert dest' _extra' kw =>
                        convert_to_depth example_env 2 c' to_convert None dest' _extra' kw)
                     (instance Plain (VDict ∅) None []) "subs"
                     {[ "converter" := VClass "MySubConverter" ]}
                     "MySubConverter" MySubConverter
                     (VList [VDict {[ "from_context" := VInt 1; "other" := VInt 2 ]};
                             VDict ∅])
                     VSentry initial_state eq_refl eq_refl eq_refl eq_refl eq_refl)
              eq_refl _ eq_refl)
    | vm_compute; reflexivity].
Defined.

(** ** Rules passed to the constructor *)

Lemma init_dict_converter_option nm rules k :
  converter_option (InitDictConverter nm rules) k
  = dict_get (<["pass_attrs_to_init" := VBool true]> Converter_converter_options) k VNone.
Proof.
  unfold converter_option, _resolved_converter_options, InitDictConverter.
  cbn [with_options converter_options foldl]. unfold dict_get.
  rewrite merge_lookup.
  destruct (decide (k = "pass_attrs_to_init")) as [-> | Hk]; [reflexivity|].
  rewrite lookup_singleton_ne, lookup_insert_ne by done.
  by destruct (Converter_converter_options !! k).
Qed.

Lemma init_constructs E nm rules pairs (d : dict) context dest st :
  Forall2 copies rules pairs →
  forallb copyable pairs = true →
  __init__ E (InitDictConverter nm rules) (VDict d) context dest ∅ [] st
  = (inr (Self (InitDictConverter nm rules) (VDict d) dest [] (is_none dest) ∅ context
            (map copy_rule pairs)), st).
Proof.
  intros Hrules Hok. unfold __init__. simpl.
  unfold _normalized_dynamic_copy_attrs, dynamic_copy_attrs. simpl.
  unfold mbind, M_bind, bind.
  rewrite (normalize_copies E _ rules pairs st Hrules Hok). simpl.
  rewrite app_nil_r.
  destruct (canonical_pass E (InitDictConverter nm rules)
              (map rule_tuple (map copy_rule pairs)) st
              (copy_rules_canonical pairs Hok)) as (out & Hout & Hmap).
  apply rule_tuple_inj in Hmap as ->. by rewrite Hout.
Qed.

Lemma is_initialization_attr_constructed self nm rules attr :
  cls self = InitDictConverter nm rules →
  _is_initialization_attr self attr ∅ = undotted attr.
Proof.
  intros Hcls. unfold _is_initialization_attr, undotted.
  rewrite Hcls, init_dict_converter_option, !dict_get_empty.
  rewrite dict_get_insert_eq. simpl. by rewrite !andb_true_r.
Qed.

Lemma normalize_value_constructed E sub self nm rules dst src inst (d : dict) st :
  cls self = InitDictConverter nm rules →
  source self = VDict d →
  plain_key src = true →
  _normalize_value E sub self dst src ∅ inst st
  = (inr (resolved d (observed st) src), st).
Proof.
  intros Hcls Hsrc Hk. unfold _normalize_value, mbind, M_bind, bind.
  rewrite (get_value_plain E self inst src ∅ d st);
    try done; try (by rewrite Hcls); try apply lookup_empty.
  rewrite !dict_get_empty.
  destruct (is_sentry (resolved d (observed st) src)) eqn:Hs.
  { simpl. by destruct (resolved d (observed st) src). }
  cbn [is_callable negb]. unfold _convert_child, mbind, M_bind, bind.
  rewrite !dict_get_empty. cbn [is_sentry negb andb].
  rewrite andb_false_r. cbn [ret negb truthy is_none andb].
  rewrite Hcls, !init_dict_converter_option.
  rewrite !dict_get_insert_ne by done.
  replace (dict_get Converter_converter_options "include_nones" VNone)
    with (VBool true) by (vm_compute; reflexivity).
  replace (dict_get Converter_converter_options "convert_nones_to_blanks" VNone)
    with (VBool false) by (vm_compute; reflexivity).
  replace (dict_get Converter_converter_options "include_empty_strings" VNone)
    with (VBool true) by (vm_compute; reflexivity).
  cbn [truthy negb andb]. rewrite andb_false_r, Hs.
  unfold wash_result. rewrite Hcls. reflexivity.
Qed.

Lemma params_for_constructed E sub self nm rules (d : dict) pairs initialization inst st :
  cls self = InitDictConverter nm rules →
  source self = VDict d →
  _normalized_attrs self = map copy_rule pairs →
  forallb copyable pairs = true →
  params_for E sub self initialization inst st
  = (inr (if initialization then copy_params d (observed st) pairs [] else []), st).
Proof.
  intros Hcls Hsrc Hattrs. unfold params_for, copy_params. rewrite Hattrs.
  clear Hattrs. generalize (@nil (string * (pyval * dict))) as dct.
  induction pairs as [| p pairs IH]; intros dct Hok.
  { by destruct initialization. }
  simpl in Hok. apply andb_true_iff in Hok as [Hp Hok].
  unfold copyable in Hp. apply andb_true_iff in Hp as [Hp Hk].
  apply andb_true_iff in Hp as [Hdst _].
  cbn [map foldl].
  match goal with
  | |- for_fold ?f _ _ _ = _ =>
      assert (f dct (copy_rule p) st
              = (inr (if initialization
                      then if is_sentry (resolved d (observed st) p.2) then dct
                           else odict_set dct p.1 (resolved d (observed st) p.2, ∅)
                      else dct),
                 st)) as Hstep
  end.
  { unfold copy_rule, mbind, M_bind, bind. cbn [rule_names ret].
    rewrite (is_initialization_attr_constructed self nm rules), Hdst by done.
    destruct initialization; cbn [Bool.eqb negb]; [|reflexivity].
    rewrite (normalize_value_constructed E sub self nm rules p.1 p.2 inst d st
               Hcls Hsrc Hk).
    by destruct (is_sentry (resolved d (observed st) p.2)). }
  rewrite (for_fold_cons_inr _ _ _ _ _ _ _ Hstep), IH by done.
  by destruct initialization.
Qed.

Lemma copy_params_NoDup (d ctx : dict) pairs : ∀ dct,
  NoDup dct.*1 → NoDup (copy_params d ctx pairs dct).*1.
Proof.
  unfold copy_params.
  induction pairs as [| p pairs IH]; intros dct Hnodup; [done|]. cbn [foldl].
  destruct (is_sentry (resolved d ctx p.2)); apply IH; [done|].
  by apply odict_set_NoDup.
Qed.

Lemma keywords_to_dict (dct : list (string * (pyval * dict))) :
  NoDup dct.*1 →
  list_to_map (map (fun kv => (kv.1, kv.2.1)) dct) = set_all dct ∅.
Proof.
  induction dct as [| [k [v o]] dct IH]; intros Hnodup; [reflexivity|].
  simpl in Hnodup. apply NoDup_cons in Hnodup as [Hk Hnodup].
  cbn [map list_to_map foldr fst snd]. unfold set_all. cbn [foldl fst snd].
  fold (set_all dct (<[k := v]> ∅)).
  rewrite set_all_insert by done. f_equal. by apply IH.
Qed.

(** X26: with [pass_attrs_to_init], the same rules travel another way and
    arrive at the same place: every value the rules find is a keyword
    argument of the constructor of the destination class, nothing is left
    to set afterwards, and for a dictionary the result is the dictionary
    the converter without the option builds. *)
Theorem constructor_arguments_give_the_same_dictionary
    E depth nm rules pairs (d : dict) context st :
  Forall2 copies rules pairs →
  forallb copyable pairs = true →
  let ctx := default ∅ context ∪ observed st in
  convert_to_depth E (S depth) (InitDictConverter nm rules) (VDict d) context VNone
    ∅ [] st
  = (inr (VDict (copied d ctx pairs)), State (Some (observed st)) (counter st))
  ∧ ∀ sub self inst st0,
      cls self = InitDictConverter nm rules →
      source self = VDict d →
      _normalized_attrs self = map copy_rule pairs →
      params_for_initialization E sub self st0
      = (inr (copy_params d (observed st0) pairs []), st0)
      ∧ params_for_population E sub self inst st0 = (inr [], st0).
Proof.
  intros Hrules Hok ctx. split.
  - cbn [convert_to_depth]. unfold convert_class, mbind, M_bind, bind.
    rewrite (init_constructs E nm rules pairs d context VNone st Hrules Hok).
    cbn [is_none].
    set (self := Self (InitDictConverter nm rules) (VDict d) VNone [] true ∅ context
                   (map copy_rule pairs)).
    unfold convert, _updated_context, mbind, M_bind, bind.
    change (build_context (cls self)) with (@None pyval).
    change (_context self) with context. cbn [ret].
    unfold Converter.context, set_context, try_finally. cbn [counter].
    set (st1 := State (Some (default ∅ context ∪ (∅ ∪ default ∅ (context_local st))))
                  (counter st)).
    assert (observed st1 = ctx) as Hctx.
    { unfold observed, ctx, st1. simpl. by rewrite (left_id_L ∅ (∪)). }
    assert (instance_convert E
              (fun c' to_convert dest' _extra' kw =>
                 convert_to_depth E depth c' to_convert None dest' _extra' kw)
              self st1
            = (inr (VDict (copied d ctx pairs)), st1)) as ->; [|reflexivity].
    unfold instance_convert, params_for_initialization, params_for_population,
      mbind, M_bind, bind.
    rewrite (params_for_constructed E _ self nm rules d pairs true) by done.
    change (dest self) with VNone. cbn [is_none negb].
    unfold instantiate. change (cls self) with (InitDictConverter nm rules).
    rewrite init_dict_converter_option, dict_get_insert_ne by done.
    replace (dict_get Converter_converter_options "copy_only" VNone)
      with (VBool false) by (vm_compute; reflexivity).
    change (to_class (InitDictConverter nm rules)) with (Some (TClass "dict")).
    cbn [truthy py_call ret is_none is_sentry orb andb].
    rewrite (params_for_constructed E _ self nm rules d pairs false) by done.
    cbn [populate_instance for_fold ret].
    change (post_convert (cls self)) with (@None pyval).
    rewrite Hctx.
    rewrite keywords_to_dict by (apply copy_params_NoDup, NoDup_nil_2).
    destruct (copy_params_invariant d ctx ∅ pairs [] Hok eq_refl (NoDup_nil_2))
      as [_ Hset].
    rewrite Hset. reflexivity.
  - intros sub self inst st0 Hcls Hsrc Hattrs.
    unfold params_for_initialization, params_for_population. split.
    + by rewrite (params_for_constructed E sub self nm rules d pairs true).
    + by rewrite (params_for_constructed E sub self nm rules d pairs false).
Qed.

Lemma constructor_arguments_witness :
  convert_to_depth plain_env 1
    (InitDictConverter "Renaming" [VStr "x"; VList [VStr "y"; VStr "x"]; VStr "w"])
    (VDict {[ "x" := VInt 1; "z" := VInt 3 ]}) None VNone ∅ [] initial_state
  = (inr (VDict {[ "x" := VInt 1; "y" := VInt 1 ]}), State (Some ∅) 1).
Proof.
  assert (Forall2 copies [VStr "x"; VList [VStr "y"; VStr "x"]; VStr "w"]
            [("x", "x"); ("y", "x"); ("w", "w")]) as Hrules.
  { repeat constructor; by right. }
  etransitivity;
    [exact (proj1 (constructor_arguments_give_the_same_dictionary plain_env 0
                     "Renaming"
                     [VStr "x"; VList [VStr "y"; VStr "x"]; VStr "w"]
                     [("x", "x"); ("y", "x"); ("w", "w")]
                     {[ "x" := VInt 1; "z" := VInt 3 ]} None initial_state
                     Hrules eq_refl))
    | vm_compute; reflexivity].
Defined.

(** ** Keyword arguments of a conversion on a dictionary converter *)

Lemma get_value_null_override E self inst k (opts d : dict) st :
  source self = VDict d →
  from_getter (cls self) = None →
  plain_key k = true →
  truthy (dict_get opts "pass_instance_to_converter" (VBool false)) = false →
  opts !! "getter" = None →
  override_of opts = VNone →
  truthy (dict_get opts "pluralize" (VBool false)) = false →
  _get_value E self inst k opts st
  = (let found := resolved d (observed st) k in
     if is_sentry found || is_none found || is_empty_str found
     then match opts !! "default" with
          | None => (inr found, st)
          | Some dflt =>
              if is_sentry dflt then (inr found, st)
              else if is_callable dflt then py_call E dflt [] [] st
                   else (inr dflt, st)
          end
     else (inr found, st)).
Proof.
  intros Hsrc Hget Hk Hpass Hgetter Hover Hplural. unfold _get_value.
  unfold override_of in Hover. rewrite Hover. cbn [is_none negb].
  unfold mbind, M_bind, bind.
  rewrite (get_value_raw_plain E self inst k opts d st) by done.
  rewrite Hplural. cbn [andb]. unfold dict_get.
  destruct (is_sentry (resolved d (observed st) k)
            || is_none (resolved d (observed st) k)
            || is_empty_str (resolved d (observed st) k)) eqn:Hfound;
    [|reflexivity].
  destruct (opts !! "default") as [dflt|]; simpl.
  - destruct (is_sentry dflt) eqn:Hs; simpl.
    + by destruct (resolved d (observed st) k).
    + by destruct (is_callable dflt).
  - by destruct (resolved d (observed st) k).
Qed.

Lemma override_of_empty : override_of ∅ = VNone.
Proof. reflexivity. Qed.

Lemma override_of_singleton v : override_of {[ "_kwarg_override" := v ]} = v.
Proof. apply dict_get_singleton_eq. Qed.

Lemma normalize_value_keyword E sub self nm rules r inst (d : dict) st :
  cls self = dict_converter nm rules →
  source self = VDict d →
  keyword_rule r →
  ∃ dst src, r.1 = (VStr dst, VStr src)
    ∧ _normalize_value E sub self dst src r.2 inst st
      = (inr (rule_value d (observed st) r), st).
Proof.
  intros Hcls Hsrc (dst & src & Hr & Hdst & Hne & Hopts & Hval).
  exists dst, src. split; [done|].
  destruct r as [[d0 s0] o]. simpl in *. injection Hr as -> ->.
  unfold rule_value. simpl.
  destruct Hopts as [-> | Ho].
  { rewrite override_of_empty in *. simpl.
    by apply (normalize_value_copy E sub self nm rules). }
  set (v := override_of o) in *. rewrite Ho. clearbody v. clear Ho.
  unfold _normalize_value, mbind, M_bind, bind.
  assert (_get_value E self inst src {[ "_kwarg_override" := v ]} st
          = (inr (if is_none v then resolved d (observed st) src else v), st)) as ->.
  { destruct (is_none v) eqn:Hn.
    - destruct v; try done.
      rewrite (get_value_null_override E self inst src _ d st);
        try done; try (by rewrite Hcls); try (by apply lookup_singleton_ne).
      rewrite lookup_singleton_ne by done. simpl.
      by destruct (_ || _).
    - unfold _get_value. rewrite dict_get_singleton_eq, Hn. reflexivity. }
  set (val := if is_none v then resolved d (observed st) src else v).
  other_singleton_keys.
  destruct (is_sentry val) eqn:Hs.
  { simpl. by destruct val. }
  cbn [is_callable negb]. unfold _convert_child, mbind, M_bind, bind.
  other_singleton_keys. cbn [is_sentry negb andb].
  rewrite andb_false_r. cbn [ret negb truthy is_none andb].
  rewrite Hcls, !dict_converter_option.
  replace (dict_get Converter_converter_options "include_nones" VNone)
    with (VBool true) by (vm_compute; reflexivity).
  replace (dict_get Converter_converter_options "convert_nones_to_blanks" VNone)
    with (VBool false) by (vm_compute; reflexivity).
  replace (dict_get Converter_converter_options "include_empty_strings" VNone)
    with (VBool true) by (vm_compute; reflexivity).
  cbn [truthy negb andb]. rewrite andb_false_r, Hs.
  unfold wash_result. rewrite Hcls. reflexivity.
Qed.

Lemma is_initialization_attr_keyword self nm rules r attr :
  cls self = dict_converter nm rules →
  keyword_rule r →
  _is_initialization_attr self attr r.2 = false.
Proof.
  intros Hcls (dst & src & _ & _ & _ & Hopts & _).
  destruct Hopts as [-> | ->].
  { by apply (is_initialization_attr_copy self nm rules). }
  unfold _is_initialization_attr. other_singleton_keys.
  rewrite Hcls, dict_converter_option.
  replace (dict_get Converter_converter_options "pass_attrs_to_init" VNone)
    with (VBool false) by (vm_compute; reflexivity).
  reflexivity.
Qed.

Lemma params_for_keywords E sub self nm rules (d : dict) rs initialization inst :
  cls self = dict_converter nm rules →
  source self = VDict d →
  Forall keyword_rule rs →
  ∀ dct st,
    for_fold
      (fun dct rule =>
         '(to_attr, from_attr, opts) ← rule_names rule;
         if negb (Bool.eqb (_is_initialization_attr self to_attr opts) initialization)
         then ret dct
         else
           val ← _normalize_value E sub self to_attr from_attr opts inst;
           if is_sentry val then ret dct
           else ret (odict_set dct to_attr (val, opts)))
      rs dct st
    = (inr (if initialization then dct
            else keyword_params d (observed st) rs dct), st).
Proof.
  intros Hcls Hsrc Hrs. unfold keyword_params.
  induction Hrs as [| r rs Hr Hrs IH]; intros dct st.
  { by destruct initialization. }
  cbn [foldl].
  match goal with
  | |- for_fold ?f _ _ _ = _ =>
      assert (f dct r st
              = (inr (if initialization then dct
                      else if is_sentry (rule_value d (observed st) r) then dct
                           else odict_set dct (rule_dest r)
                                  (rule_value d (observed st) r, r.2)),
                 st)) as Hstep
  end.
  { destruct (normalize_value_keyword E sub self nm rules r inst d st Hcls Hsrc Hr)
      as (dst & src & Hnames & Hval).
    pose proof (is_initialization_attr_keyword self nm rules r dst Hcls Hr) as Hinit.
    destruct r as [[d0 s0] o]. simpl in Hnames, Hval, Hinit.
    injection Hnames as -> ->.
    unfold rule_dest, mbind, M_bind, bind. cbn [rule_names ret fst snd].
    rewrite Hinit.
    destruct initialization; cbn [Bool.eqb negb]; [reflexivity|].
    rewrite Hval.
    by destruct (is_sentry (rule_value d (observed st) (VStr dst, VStr src, o))). }
  rewrite (for_fold_cons_inr _ _ _ _ _ _ _ Hstep), IH.
  by destruct initialization.
Qed.

Lemma params_for_keyword E sub self nm rules (d : dict) initialization inst st :
  cls self = dict_converter nm rules →
  source self = VDict d →
  Forall keyword_rule (_normalized_attrs self) →
  params_for E sub self initialization inst st
  = (inr (if initialization then []
          else keyword_params d (observed st) (_normalized_attrs self) []), st).
Proof.
  intros Hcls Hsrc Hrs. unfold params_for.
  by apply (params_for_keywords E sub self nm rules d _ initialization inst).
Qed.

Lemma keyword_params_invariant (d ctx m : dict) rs : ∀ dct,
  Forall keyword_rule rs →
  forallb plainly_set dct = true →
  NoDup dct.*1 →
  forallb plainly_set (keyword_params d ctx rs dct) = true
  ∧ set_all (keyword_params d ctx rs dct) m = built_by d ctx rs (set_all dct m).
Proof.
  unfold keyword_params, built_by.
  induction rs as [| r rs IH]; intros dct Hrs Hplain Hnodup; [done|].
  inversion Hrs as [| ? ? Hr Hrs']; subst. cbn [foldl].
  destruct (is_sentry (rule_value d ctx r)) eqn:Hs; [by apply IH|].
  destruct (IH (odict_set dct (rule_dest r) (rule_value d ctx r, r.2))) as [H1 H2];
    [done | | by apply odict_set_NoDup |].
  - apply odict_set_plainly; [done|].
    destruct Hr as (dst & src & Hnames & Hdst & _ & Hopts & _).
    destruct r as [[d0 s0] o]. simpl in *. injection Hnames as -> ->.
    unfold plainly_set, merge_flagged, no_setter, rule_dest. simpl. rewrite Hdst.
    destruct Hopts as [-> | ->]; [by rewrite !dict_get_empty|].
    by rewrite !dict_get_singleton_ne.
  - split; [done|]. rewrite H2. by rewrite set_all_odict_set.
Qed.

Lemma copy_rule_keyword p : copyable p = true → keyword_rule (copy_rule p).
Proof.
  unfold copyable. intros H.
  apply andb_true_iff in H as [H Hsrc]. apply andb_true_iff in H as [Hdst Hne].
  apply negb_true_iff, String.eqb_neq in Hne.
  exists p.1, p.2. repeat split; try done. by left.
Qed.

Lemma copy_rules_keyword pairs :
  forallb copyable pairs = true → Forall keyword_rule (map copy_rule pairs).
Proof.
  induction pairs as [| p pairs IH]; simpl; [constructor|].
  intros [Hp Hok]%andb_true_iff. constructor; [by apply copy_rule_keyword | by apply IH].
Qed.

Lemma override_rule_keyword dst src v :
  undotted dst = true → dst ≠ "" →
  (if is_none v then plain_key src = true else is_sentry v = false) →
  keyword_rule (VStr dst, VStr src, {[ "_kwarg_override" := v ]}).
Proof.
  intros Hdst Hne Hv. exists dst, src. simpl.
  rewrite override_of_singleton. repeat split; try done. by right.
Qed.

Lemma stash_copy_rules p pairs k v :
  stash_override (map copy_rule (p :: pairs)) k v
  = if String.eqb p.1 k
    then Some ((VStr p.1, VStr p.2, {[ "_kwarg_override" := v ]}) :: map copy_rule pairs)
    else cons (copy_rule p) <$> stash_override (map copy_rule pairs) k v.
Proof.
  simpl. destruct (String.eqb p.1 k); [|done]. by rewrite insert_empty.
Qed.

Lemma built_by_copy (d ctx : dict) p rs m :
  built_by d ctx (copy_rule p :: rs) m
  = built_by d ctx rs
      (if is_sentry (resolved d ctx p.2) then m else <[p.1 := resolved d ctx p.2]> m).
Proof. reflexivity. Qed.

Lemma built_by_override (d ctx : dict) dst src v rs m :
  is_none v = false →
  built_by d ctx ((VStr dst, VStr src, {[ "_kwarg_override" := v ]}) :: rs) m
  = built_by d ctx rs (if is_sentry v then m else <[dst := v]> m).
Proof.
  intros Hn. unfold built_by. cbn [foldl]. unfold rule_value, rule_dest. cbn [fst snd].
  by rewrite override_of_singleton, Hn.
Qed.

Lemma built_by_null_override (d ctx : dict) dst src rs m :
  built_by d ctx ((VStr dst, VStr src, {[ "_kwarg_override" := VNone ]}) :: rs) m
  = built_by d ctx rs
      (if is_sentry (resolved d ctx src) then m else <[dst := resolved d ctx src]> m).
Proof.
  unfold built_by. cbn [foldl]. unfold rule_value, rule_dest. cbn [fst snd].
  by rewrite override_of_singleton.
Qed.

Lemma built_by_insert (d ctx : dict) k v pairs : ∀ m,
  k ∉ pairs.*1 →
  built_by d ctx (map copy_rule pairs) (<[k := v]> m)
  = <[k := v]> (built_by d ctx (map copy_rule pairs) m).
Proof.
  induction pairs as [| q pairs IH]; intros m Hk; [reflexivity|].
  simpl in Hk. apply not_elem_of_cons in Hk as [Hne Hk].
  cbn [map]. rewrite !built_by_copy.
  destruct (is_sentry (resolved d ctx q.2)); [by apply IH|].
  rewrite <- IH by done. f_equal. by apply insert_insert_ne.
Qed.

Lemma built_by_copied (d ctx : dict) pairs :
  built_by d ctx (map copy_rule pairs) ∅ = copied d ctx pairs.
Proof.
  unfold copied. generalize (∅ : dict).
  induction pairs as [| p pairs IH]; intros m; [reflexivity|].
  cbn [map foldl]. rewrite built_by_copy. apply IH.
Qed.

Lemma stash_copy_rules_spec (d ctx : dict) k v pairs :
  forallb copyable pairs = true →
  NoDup pairs.*1 →
  is_sentry v = false →
  match stash_override (map copy_rule pairs) k v with
  | Some rs =>
      k ∈ pairs.*1
      ∧ Forall keyword_rule rs
      ∧ ∀ m, built_by d ctx rs m
             = if is_none v then built_by d ctx (map copy_rule pairs) m
               else <[k := v]> (built_by d ctx (map copy_rule pairs) m)
  | None => k ∉ pairs.*1
  end.
Proof.
  intros Hok Hnodup Hv.
  induction pairs as [| p pairs IH]; [apply not_elem_of_nil|].
  simpl in Hok. apply andb_true_iff in Hok as [Hp Hok].
  simpl in Hnodup. apply NoDup_cons in Hnodup as [Hfresh Hnodup].
  specialize (IH Hok Hnodup).
  rewrite stash_copy_rules.
  destruct (String.eqb p.1 k) eqn:Hk.
  - apply String.eqb_eq in Hk. subst k.
    split; [apply elem_of_cons; by left|]. split.
    + constructor; [|by apply copy_rules_keyword].
      pose proof Hp as Hp'. unfold copyable in Hp'.
      apply andb_true_iff in Hp' as [Hp' Hsrc]. apply andb_true_iff in Hp' as [Hdst Hne].
      apply negb_true_iff, String.eqb_neq in Hne.
      apply override_rule_keyword; try done. by destruct (is_none v).
    + intros m. cbn [map]. rewrite built_by_copy.
      destruct (is_none v) eqn:Hn.
      * destruct v; try done; by rewrite built_by_null_override.
      * rewrite built_by_override, Hv by done.
        rewrite built_by_insert by done.
        destruct (is_sentry (resolved d ctx p.2)); [done|].
        rewrite built_by_insert by done. by rewrite insert_insert_eq.
  - apply String.eqb_neq in Hk.
    destruct (stash_override (map copy_rule pairs) k v) as [rs|];
      cbn [fmap option_fmap option_map].
    + destruct IH as (Hin & Hrs & Hbuilt). split; [apply elem_of_cons; by right|].
      split; [constructor; [by apply copy_rule_keyword | done]|].
      intros m. cbn [map]. rewrite !built_by_copy. apply Hbuilt.
    + intros [Heq | Hin]%elem_of_cons; [by subst | done].
Qed.

Lemma built_by_app (d ctx : dict) rs1 rs2 m :
  built_by d ctx (rs1 ++ rs2)%list m = built_by d ctx rs2 (built_by d ctx rs1 m).
Proof. unfold built_by. apply foldl_app. Qed.

Lemma keyword_rules_spec (d ctx : dict) k v pairs :
  forallb copyable pairs = true →
  NoDup pairs.*1 →
  is_sentry v = false →
  undotted k = true → k ≠ "" →
  (is_none v = true → k ∈ pairs.*1) →
  Forall keyword_rule (keyword_rules pairs k v)
  ∧ built_by d ctx (keyword_rules pairs k v) ∅
    = if is_none v then copied d ctx pairs else <[k := v]> (copied d ctx pairs).
Proof.
  intros Hok Hnodup Hv Hk Hne Hnull. unfold keyword_rules.
  pose proof (stash_copy_rules_spec d ctx k v pairs Hok Hnodup Hv) as Hspec.
  destruct (stash_override (map copy_rule pairs) k v) as [rs|].
  - destruct Hspec as (_ & Hrs & Hbuilt). split; [done|].
    by rewrite Hbuilt, built_by_copied.
  - destruct (is_none v) eqn:Hn; [by specialize (Hnull eq_refl)|].
    split.
    + apply Forall_app. split; [by apply copy_rules_keyword|].
      constructor; [|constructor]. apply override_rule_keyword; try done.
      by rewrite Hn.
    + rewrite built_by_app, built_by_copied, built_by_override by done.
      by rewrite Hv.
Qed.

Lemma keyword_rules_canonical rs :
  Forall keyword_rule rs → forallb is_canonical (map rule_tuple rs) = true.
Proof.
  induction 1 as [| r rs Hr Hrs IH]; [done|]. cbn [map forallb].
  rewrite IH, andb_true_r.
  destruct Hr as (dst & src & Hnames & _ & Hne & Hopts & _).
  destruct r as [[d0 s0] o]. simpl in *. injection Hnames as -> ->.
  apply String.eqb_neq in Hne. rewrite Hne. simpl. unfold default_allowed.
  destruct Hopts as [-> | ->]; [done|]. by rewrite lookup_singleton_ne.
Qed.

Lemma init_keyword E nm rules pairs (d : dict) context dest k v st :
  Forall2 copies rules pairs →
  forallb copyable pairs = true →
  Forall keyword_rule (keyword_rules pairs k v) →
  __init__ E (dict_converter nm rules) (VDict d) context dest ∅ [(k, v)] st
  = (inr (Self (dict_converter nm rules) (VDict d) dest [(k, v)] (is_none dest) ∅
            context (keyword_rules pairs k v)), st).
Proof.
  intros Hrules Hok Hkw. unfold __init__. simpl.
  unfold _normalized_dynamic_copy_attrs, dynamic_copy_attrs. simpl.
  unfold mbind, M_bind, bind.
  rewrite (normalize_copies E _ rules pairs st Hrules Hok). simpl.
  rewrite app_nil_r. fold (keyword_rules pairs k v).
  destruct (canonical_pass E (dict_converter nm rules)
              (map rule_tuple (keyword_rules pairs k v)) st
              (keyword_rules_canonical _ Hkw)) as (out & Hout & Hmap).
  apply rule_tuple_inj in Hmap as ->. by rewrite Hout.
Qed.

Lemma convert_keyword E depth nm rules pairs (d : dict) context st k v :
  Forall2 copies rules pairs →
  forallb copyable pairs = true →
  NoDup pairs.*1 →
  is_sentry v = false →
  undotted k = true → k ≠ "" →
  (is_none v = true → k ∈ pairs.*1) →
  convert_to_depth E (S depth) (dict_converter nm rules) (VDict d) context VNone ∅
    [(k, v)] st
  = (inr (VDict (if is_none v
                 then copied d (default ∅ context ∪ observed st) pairs
                 else <[k := v]> (copied d (default ∅ context ∪ observed st) pairs))),
     State (Some (observed st)) (counter st)).
Proof.
  intros Hrules Hok Hnodup Hv Hk Hne Hnull.
  set (ctx := default ∅ context ∪ observed st).
  destruct (keyword_rules_spec d ctx k v pairs Hok Hnodup Hv Hk Hne Hnull)
    as [Hkw Hbuilt].
  cbn [convert_to_depth]. unfold convert_class, mbind, M_bind, bind.
  rewrite (init_keyword E nm rules pairs d context VNone k v st Hrules Hok Hkw).
  cbn [is_none].
  set (self := Self (dict_converter nm rules) (VDict d) VNone [(k, v)] true ∅ context
                 (keyword_rules pairs k v)).
  unfold convert, _updated_context, mbind, M_bind, bind.
  cbn [build_context cls self dict_converter ret _context].
  unfold Converter.context, set_context, try_finally. cbn [counter].
  set (st1 := State (Some (default ∅ context ∪ (∅ ∪ default ∅ (context_local st))))
                (counter st)).
  assert (observed st1 = ctx) as Hctx.
  { unfold observed, ctx, st1. simpl. by rewrite (left_id_L ∅ (∪)). }
  assert (instance_convert E
            (fun c' to_convert dest' _extra' kw =>
               convert_to_depth E depth c' to_convert None dest' _extra' kw)
            self st1
          = (inr (VDict (built_by d ctx (keyword_rules pairs k v) ∅)), st1)) as ->.
  2: { by rewrite Hbuilt. }
  unfold instance_convert, params_for_initialization, params_for_population,
    mbind, M_bind, bind.
  rewrite (params_for_keyword E _ self nm rules d true) by done.
  change (dest self) with VNone. cbn [is_none negb].
  unfold instantiate. change (cls self) with (dict_converter nm rules).
  rewrite dict_converter_option.
  replace (dict_get Converter_converter_options "copy_only" VNone)
    with (VBool false) by (vm_compute; reflexivity).
  cbn [truthy to_class dict_converter map py_call ret list_to_map foldr
         is_none is_sentry orb andb].
  rewrite (params_for_keyword E _ self nm rules d false) by done.
  change (_normalized_attrs self) with (keyword_rules pairs k v).
  rewrite Hctx.
  destruct (keyword_params_invariant d ctx ∅ (keyword_rules pairs k v) [] Hkw
              eq_refl (NoDup_nil_2)) as [Hplain Hset].
  rewrite (populate_dict E self _ ∅ st1 Hplain), Hset. reflexivity.
Qed.

(** C10: a keyword override that is not [None] is the value of its rule,
    returned at once: neither the getter nor the source, the context or
    the default is consulted.  A [None] override decides nothing: the
    getter given in the options is called and its value used; with the
    default getter on a dictionary the value is the one of the source,
    else the one of the context, else the default (called when callable).
    So for a converter that copies keys of a dictionary, the keyword
    argument [k=None] changes nothing in the result when [k] is the
    destination of a rule, and [k=v] with another [v] puts [v] under [k],
    whatever the source holds. *)
Theorem null_override_is_ignored E :
  (∀ self inst from_attr (opts : dict) v st,
     opts !! "_kwarg_override" = Some v → v ≠ VNone →
     _get_value E self inst from_attr opts st = (inr v, st))
  ∧ (∀ self inst from_attr (opts : dict) g x st st1,
       override_of opts = VNone →
       truthy (dict_get opts "pass_instance_to_converter" (VBool false)) = false →
       from_attr ≠ NOS →
       opts !! "getter" = Some g →
       is_sentry g = false →
       py_call E g [source self; VStr from_attr; VDict opts] [] st = (inr x, st1) →
       is_sentry x || is_none x || is_empty_str x = false →
       truthy (dict_get opts "pluralize" (VBool false)) = false →
       _get_value E self inst from_attr opts st = (inr x, st1))
  ∧ (∀ self inst k (opts d : dict) st,
       override_of opts = VNone →
       source self = VDict d →
       from_getter (cls self) = None →
       plain_key k = true →
       truthy (dict_get opts "pass_instance_to_converter" (VBool false)) = false →
       opts !! "getter" = None →
       truthy (dict_get opts "pluralize" (VBool false)) = false →
       _get_value E self inst k opts st
       = (let found := resolved d (observed st) k in
          if is_sentry found || is_none found || is_empty_str found
          then match opts !! "default" with
               | None => (inr found, st)
               | Some dflt =>
                   if is_sentry dflt then (inr found, st)
                   else if is_callable dflt then py_call E dflt [] [] st
                        else (inr dflt, st)
               end
          else (inr found, st)))
  ∧ (∀ depth nm rules pairs (d : dict) context st k v,
       Forall2 copies rules pairs →
       forallb copyable pairs = true →
       NoDup pairs.*1 →
       let ctx := default ∅ context ∪ observed st in
       (k ∈ pairs.*1 →
        convert_to_depth E (S depth) (dict_converter nm rules) (VDict d) context VNone
          ∅ [(k, VNone)] st
        = (inr (VDict (copied d ctx pairs)), State (Some (observed st)) (counter st)))
       ∧ (is_none v = false → is_sentry v = false → undotted k = true → k ≠ "" →
          convert_to_depth E (S depth) (dict_converter nm rules) (VDict d) context VNone
            ∅ [(k, v)] st
          = (inr (VDict (<[k := v]> (copied d ctx pairs))),
             State (Some (observed st)) (counter st)))).
Proof.
  split; [|split; [|split]].
  - intros self inst from_attr opts v st Hv Hnone.
    unfold _get_value, dict_get. rewrite Hv. simpl. destruct v; done.
  - intros self inst from_attr opts g x st st1 Hover Hpass Hnos Hg Hs Hcall Hx Hplural.
    unfold _get_value. unfold override_of in Hover. rewrite Hover. cbn [is_none negb].
    unfold _get_value_raw. apply String.eqb_neq in Hnos.
    rewrite Hpass, Hnos, !(dict_get_present opts "getter" g), Hs by done.
    cbn [negb]. unfold mbind, M_bind, bind. rewrite Hcall.
    apply orb_false_iff in Hx as [Hx Hempty]. apply orb_false_iff in Hx as [Hsx Hnx].
    rewrite Hsx. cbn [ret]. by rewrite Hsx, Hnx, Hempty, Hplural.
  - intros self inst k opts d st Hover Hsrc Hget Hk Hpass Hgetter Hplural.
    by apply get_value_null_override.
  - intros depth nm rules pairs d context st k v Hrules Hok Hnodup ctx. split.
    + intros Hin.
      assert (undotted k = true ∧ k ≠ "") as [Hk Hne].
      { apply list_elem_of_fmap in Hin as (p & -> & Hp).
        rewrite forallb_forall in Hok. apply list_elem_of_In, Hok in Hp.
        unfold copyable in Hp. apply andb_true_iff in Hp as [Hp _].
        apply andb_true_iff in Hp as [Hdst Hne].
        by apply negb_true_iff, String.eqb_neq in Hne. }
      by rewrite (convert_keyword E depth nm rules pairs d context st k VNone).
    + intros Hn Hs Hk Hne.
      rewrite (convert_keyword E depth nm rules pairs d context st k v);
        try done; [by rewrite Hn | by rewrite Hn].
Qed.

Lemma null_override_is_ignored_witness :
  _get_value plain_env (instance Plain (VDict {[ "x" := VInt 5 ]}) None [])
    VSentry "x" {[ "_kwarg_override" := VInt 9 ]} initial_state
  = (inr (VInt 9), initial_state)
  ∧ _get_value plain_env (instance Plain (VDict {[ "x" := VInt 5 ]}) None [])
      VSentry "x" {[ "_kwarg_override" := VNone ]} initial_state
    = (inr (VInt 5), initial_state)
  ∧ convert_to_depth plain_env 1 (dict_converter "Plain" [VStr "x"])
      (VDict {[ "x" := VInt 5 ]}) None VNone ∅ [("x", VNone)] initial_state
    = (inr (VDict {[ "x" := VInt 5 ]}), State (Some ∅) 1)
  ∧ convert_to_depth plain_env 1 (dict_converter "Plain" [VStr "x"])
      (VDict {[ "x" := VInt 5 ]}) None VNone ∅ [("x", VInt 9)] initial_state
    = (inr (VDict {[ "x" := VInt 9 ]}), State (Some ∅) 1).
Proof.
  pose proof (null_override_is_ignored plain_env) as (Hset & _ & Hnull & Hkw).
  assert (Forall2 copies [VStr "x"] [("x", "x")]) as Hrules.
  { repeat constructor. }
  assert (NoDup ([("x", "x")] : list (string * string)).*1) as Hnodup.
  { apply NoDup_singleton. }
  split; [|split; [|split]].
  - exact (Hset (instance Plain (VDict {[ "x" := VInt 5 ]}) None []) VSentry "x"
             {[ "_kwarg_override" := VInt 9 ]} (VInt 9) initial_state
             eq_refl ltac:(discriminate)).
  - etransitivity;
      [exact (Hnull (instance Plain (VDict {[ "x" := VInt 5 ]}) None []) VSentry "x"
                {[ "_kwarg_override" := VNone ]} {[ "x" := VInt 5 ]} initial_state
                eq_refl eq_refl eq_refl eq_refl eq_refl eq_refl eq_refl)
      | vm_compute; reflexivity].
  - etransitivity;
      [exact (proj1 (Hkw 0 "Plain" [VStr "x"] [("x", "x")] {[ "x" := VInt 5 ]} None
                       initial_state "x" VNone Hrules eq_refl Hnodup)
                ltac:(apply list_elem_of_singleton; reflexivity))
      | vm_compute; reflexivity].
  - etransitivity;
      [exact (proj2 (Hkw 0 "Plain" [VStr "x"] [("x", "x")] {[ "x" := VInt 5 ]} None
                       initial_state "x" (VInt 9) Hrules eq_refl Hnodup)
                eq_refl eq_refl eq_refl ltac:(discriminate))
      | vm_compute; reflexivity].
Defined.
